(** * Notry: the note repository and the session controller

    A shallow embedding of [tn_improved.py]: the [NoteStore] class (one SQLite
    table [notes]) and the modal part of [NotryApp] (SEARCH/EDIT, the marked
    set, import and export), followed by the properties of the specification
    that are checked against it.

    Conventions of the embedding.
    - Python [str] and SQLite [TEXT] are [string]; one [ascii] is one code
      point in the range 0..255, classified the way Python and SQLite classify
      it ([isspace], [isalnum], [str.lower], SQL [lower], [LIKE]).  Code
      points above 255 are outside the model.
    - Python [int] and SQLite [INTEGER] are [Z]; values beyond 64 bits, which
      the driver refuses to bind, and storage faults are outside the model.
    - The table is the list of its rows in rowid order together with the
      [sqlite_sequence] counter that [AUTOINCREMENT] maintains.
    - The clock ([datetime.now] rendered by [isoformat]) is an input [now].
    - A method that mutates the store returns the new store with its result. *)

From Stdlib Require Import ZArith Lia List Ascii String Bool.
From stdpp Require Import gmap strings pretty sorting.
From Stdlib Require Import Sorted Permutation.
Import ListNotations.

Local Open Scope string_scope.
Local Open Scope Z_scope.

#[local] Set Warnings "-clear-no-such-hyp".

(** ** Text *)

Module Text.

Definition chars (s : string) : list ascii := list_ascii_of_string s.
Definition text (l : list ascii) : string := string_of_list_ascii l.

Definition ord (c : ascii) : N := N_of_ascii c.
Definition chr (n : N) : ascii := ascii_of_N n.

Definition in_range (lo hi : N) (c : ascii) : bool :=
  ((lo <=? ord c) && (ord c <=? hi))%N.

Definition one_of (codes : list N) (c : ascii) : bool :=
  existsb (N.eqb (ord c)) codes.

(** [str.isspace] for one character (also what [str.strip] removes). *)
Definition isspace (c : ascii) : bool :=
  in_range 9 13 c || in_range 28 32 c || one_of [133; 160]%N c.

(** [str.isalnum] for one character: letters, decimal digits, and the
    superscript digits and vulgar fractions of the Latin-1 block. *)
Definition isalnum (c : ascii) : bool :=
  in_range 48 57 c || in_range 65 90 c || in_range 97 122 c
  || one_of [170; 178; 179; 181; 185; 186; 188; 189; 190]%N c
  || in_range 192 214 c || in_range 216 246 c || in_range 248 255 c.

(** [str.lower] for one character. *)
Definition py_lower_char (c : ascii) : ascii :=
  if in_range 65 90 c || in_range 192 214 c || in_range 216 222 c
  then chr (ord c + 32) else c.

(** SQL [lower()] for one character: SQLite folds the 26 ASCII letters only. *)
Definition sql_lower_char (c : ascii) : ascii :=
  if in_range 65 90 c then chr (ord c + 32) else c.

Definition lower (s : string) : string := text (map py_lower_char (chars s)).
Definition sql_lower (s : string) : string := text (map sql_lower_char (chars s)).

Fixpoint lstrip_chars (l : list ascii) : list ascii :=
  match l with
  | c :: l' => if isspace c then lstrip_chars l' else l
  | [] => []
  end.

Definition strip_chars (l : list ascii) : list ascii :=
  rev (lstrip_chars (rev (lstrip_chars l))).

(** [str.strip()] *)
Definition strip (s : string) : string := text (strip_chars (chars s)).

(** [not s]: the empty string is falsy. *)
Definition is_empty (s : string) : bool :=
  match s with EmptyString => true | String _ _ => false end.

(** [s.startswith(":")] *)
Definition starts_with_colon (s : string) : bool :=
  match s with String ":" _ => true | _ => false end.

Fixpoint take_word (l : list ascii) : list ascii :=
  match l with
  | c :: l' => if isspace c then [] else c :: take_word l'
  | [] => []
  end.

(** [s.split()[0]] when [s.split()] is not empty. *)
Definition first_token (s : string) : option string :=
  match lstrip_chars (chars s) with
  | [] => None
  | l => Some (text (take_word l))
  end.

(** [s.replace(" ", "-")] *)
Definition replace_spaces (l : list ascii) : list ascii :=
  map (fun c => if Ascii.eqb c " " then "-"%char else c) l.

(** [str.encode('utf-8')] on code points below 256: one byte below 128,
    two bytes from 128 on. *)
Definition utf8_char (c : ascii) : list Z :=
  let n := Z.of_N (ord c) in
  if n <? 128 then [n] else [192 + n / 64; 128 + n mod 64].

Definition utf8_encode (s : string) : list Z := flat_map utf8_char (chars s).

End Text.

(** ** SHA-256 ([hashlib.sha256(...).hexdigest()]) *)

Module Sha256.

Definition w32 (x : Z) : Z := x mod 2 ^ 32.
Definition add32 (x y : Z) : Z := w32 (x + y).
Definition rotr (n x : Z) : Z :=
  Z.lor (Z.shiftr x n) (w32 (Z.shiftl x (32 - n))).
Definition xor3 (x y z : Z) : Z := Z.lxor (Z.lxor x y) z.

Definition Ch (x y z : Z) : Z :=
  Z.lxor (Z.land x y) (Z.land (Z.lnot x) z).
Definition Maj (x y z : Z) : Z :=
  xor3 (Z.land x y) (Z.land x z) (Z.land y z).
Definition Sigma0 (x : Z) : Z := xor3 (rotr 2 x) (rotr 13 x) (rotr 22 x).
Definition Sigma1 (x : Z) : Z := xor3 (rotr 6 x) (rotr 11 x) (rotr 25 x).
Definition sigma0 (x : Z) : Z := xor3 (rotr 7 x) (rotr 18 x) (Z.shiftr x 3).
Definition sigma1 (x : Z) : Z := xor3 (rotr 17 x) (rotr 19 x) (Z.shiftr x 10).

Definition K : list Z :=
  [ 1116352408; 1899447441; 3049323471; 3921009573; 961987163; 1508970993;
    2453635748; 2870763221; 3624381080; 310598401; 607225278; 1426881987;
    1925078388; 2162078206; 2614888103; 3248222580; 3835390401; 4022224774;
    264347078; 604807628; 770255983; 1249150122; 1555081692; 1996064986;
    2554220882; 2821834349; 2952996808; 3210313671; 3336571891; 3584528711;
    113926993; 338241895; 666307205; 773529912; 1294757372; 1396182291;
    1695183700; 1986661051; 2177026350; 2456956037; 2730485921; 2820302411;
    3259730800; 3345764771; 3516065817; 3600352804; 4094571909; 275423344;
    430227734; 506948616; 659060556; 883997877; 958139571; 1322822218;
    1537002063; 1747873779; 1955562222; 2024104815; 2227730452; 2361852424;
    2428436474; 2756734187; 3204031479; 3329325298 ].

Definition H0 : list Z :=
  [ 1779033703; 3144134277; 1013904242; 2773480762;
    1359893119; 2600822924; 528734635; 1541459225 ].

(** Big-endian rendering of [x] on [n] bytes. *)
Fixpoint be_bytes (n : nat) (x : Z) : list Z :=
  match n with
  | O => []
  | S n' => be_bytes n' (x / 256) ++ [x mod 256]
  end.

Definition pad (msg : list Z) : list Z :=
  let len := Z.of_nat (length msg) in
  msg ++ [128] ++ repeat 0 (Z.to_nat ((55 - len) mod 64)) ++ be_bytes 8 (8 * len).

Fixpoint chunks (fuel size : nat) (l : list Z) : list (list Z) :=
  match fuel, l with
  | S fuel', _ :: _ => firstn size l :: chunks fuel' size (skipn size l)
  | _, _ => []
  end.

Definition be_word (bs : list Z) : Z := fold_left (fun acc b => acc * 256 + b) bs 0.

(** The message schedule: [n] more words after the ones in [w]. *)
Fixpoint schedule (n : nat) (w : list Z) : list Z :=
  match n with
  | O => w
  | S n' =>
      let t := length w in
      let at_ (k : nat) := nth (t - k) w 0 in
      schedule n' (w ++ [add32 (add32 (sigma1 (at_ 2%nat)) (at_ 7%nat))
                               (add32 (sigma0 (at_ 15%nat)) (at_ 16%nat))])
  end.

Definition round (st : list Z) (kw : Z * Z) : list Z :=
  match st with
  | [a; b; c; d; e; f; g; h] =>
      let t1 := add32 (add32 (add32 h (Sigma1 e)) (add32 (w32 (Ch e f g)) (fst kw))) (snd kw) in
      let t2 := add32 (Sigma0 a) (Maj a b c) in
      [add32 t1 t2; a; b; c; add32 d t1; e; f; g]
  | _ => st
  end.

Definition compress (h : list Z) (block : list Z) : list Z :=
  let w := schedule 48 (map be_word (chunks 16 4 block)) in
  let st := fold_left round (combine K w) h in
  map (fun p => add32 (fst p) (snd p)) (combine h st).

Definition digest (msg : list Z) : list Z :=
  let p := pad msg in
  flat_map (be_bytes 4) (fold_left compress (chunks (length p) 64 p) H0).

Definition hex_digit (n : Z) : ascii :=
  Text.chr (Z.to_N (if n <? 10 then 48 + n else 87 + n)).

Definition hexdigest (msg : list Z) : string :=
  Text.text (flat_map (fun b => [hex_digit (b / 16); hex_digit (b mod 16)]) (digest msg)).

End Sha256.

(** ** The SQL fragments the queries rely on *)

Module Sql.

(** SQLite hands [LIKE] its operands as C strings: they end at the first
    NUL character. *)
Fixpoint c_str (l : list ascii) : list ascii :=
  match l with
  | c :: l' => if Ascii.eqb c zero then [] else c :: c_str l'
  | [] => []
  end.

(** Two characters agree under [LIKE] when they are equal or are the two
    cases of one ASCII letter. *)
Definition like_eq (c d : ascii) : bool :=
  Ascii.eqb (Text.sql_lower_char c) (Text.sql_lower_char d).

(** [pattern_compare p s]: the pattern [p] matches all of [s]; [%] stands
    for any run of characters, [_] for any one character, and no escape
    character is declared. *)
Fixpoint pattern_compare (p : list ascii) : list ascii -> bool :=
  match p with
  | [] => fun s => match s with [] => true | _ :: _ => false end
  | c :: p' =>
      if Ascii.eqb c "%" then
        fix any_run (s : list ascii) : bool :=
          pattern_compare p' s
          || match s with [] => false | _ :: s' => any_run s' end
      else if Ascii.eqb c "_" then
        fun s => match s with [] => false | _ :: s' => pattern_compare p' s' end
      else
        fun s => match s with
                 | [] => false
                 | d :: s' => like_eq c d && pattern_compare p' s'
                 end
  end.

(** [x LIKE pat] *)
Definition like (x pat : string) : bool :=
  pattern_compare (c_str (Text.chars pat)) (c_str (Text.chars x)).

(** [LIMIT ?]: a negative bound means no bound. *)
Definition limit_rows {A : Type} (limit : Z) (l : list A) : list A :=
  if limit <? 0 then l else firstn (Z.to_nat limit) l.

(** [char(10)] *)
Definition char10 : string := String "010"%char EmptyString.

(** [ORDER BY]: the rows in the order [R] of their keys; rows that [R]
    does not separate keep their table order, as a scan of the index on
    the key returns them. *)
Section OrderBy.
Context {A : Type} (R : relation A) `{!RelDecision R}.

Fixpoint insert_row (x : A) (l : list A) : list A :=
  match l with
  | [] => [x]
  | y :: l' => if decide (R x y) then x :: l else y :: insert_row x l'
  end.

Definition order_by (l : list A) : list A := fold_right insert_row [] l.
End OrderBy.

End Sql.

(** ** Storage: [class NoteStore] *)

Module NoteStore.

(** One row of [notes]. *)
Record Note : Type := mkNote {
  id : Z;
  title : string;
  body : string;
  created_at : string;
  updated_at : string;
  import_hash : option string
}.

(** The table and the largest rowid it ever held ([sqlite_sequence]). *)
Record t : Type := mkStore {
  rows : list Note;
  seq : Z
}.

(** What [get] and [all] return for a row. *)
Definition Row : Type := Z * string * string * string * string.

Definition row_of (r : Note) : Row :=
  (id r, title r, body r, created_at r, updated_at r).

(** A store just created by [__init__] on a fresh file. *)
Definition empty : t := mkStore [] 0.

(** [ORDER BY updated_at DESC]: text comparison, newest first; rows with the
    same stamp stay in rowid order. *)
Definition newer_first (r1 r2 : Note) : Prop :=
  String.le (updated_at r2) (updated_at r1).

#[global] Instance newer_first_dec : RelDecision newer_first.
Proof. intros r1 r2. unfold newer_first. apply _. Defined.

Definition order_by_updated_desc (l : list Note) : list Note :=
  Sql.order_by newer_first l.

Definition count (s : t) : Z := Z.of_nat (length (rows s)).

(** [content = f"{title}||{body}"] *)
Definition hash_content (title body : string) : string := title ++ "||" ++ body.

Definition _compute_hash (title body : string) : string :=
  let content := hash_content title body in
  Sha256.hexdigest (Text.utf8_encode content).

Definition has_hash (h : string) (r : Note) : bool :=
  match import_hash r with
  | Some h' => String.eqb h' h
  | None => false
  end.

Definition note_exists_by_hash (s : t) (import_hash : string) : bool :=
  0 <? Z.of_nat (length (List.filter (has_hash import_hash) (rows s))).

Definition max_rowid (l : list Note) : Z :=
  fold_right (fun r m => Z.max (id r) m) 0 l.

(** The rowid [AUTOINCREMENT] gives to the next inserted row. *)
Definition next_rowid (s : t) : Z := Z.max (max_rowid (rows s)) (seq s) + 1.

Definition upsert (now : string) (s : t) (title body : string)
    (note_id : option Z) (import_hash : option string) : t * Z :=
  match note_id with
  | None =>
      let lastrowid := next_rowid s in
      (mkStore (rows s ++ [mkNote lastrowid title body now now import_hash])%list
               lastrowid,
       lastrowid)
  | Some note_id =>
      (mkStore
         (map (fun r =>
                 if id r =? note_id
                 then mkNote (id r) title body (created_at r) now import_hash
                 else r)
              (rows s))
         (seq s),
       note_id)
  end.

Definition get (s : t) (note_id : Z) : option Row :=
  match List.find (fun r => id r =? note_id) (rows s) with
  | Some r => Some (row_of r)
  | None => None
  end.

Definition snip (r : Note) : string := title r ++ Sql.char10 ++ body r.

Definition matches_query (q : string) (r : Note) : bool :=
  Sql.like (Text.sql_lower (title r)) q || Sql.like (Text.sql_lower (body r)) q.

Definition search (s : t) (text : string) (limit : Z) : list (Z * string) :=
  let rows :=
    if Text.is_empty (Text.strip text) then
      Sql.limit_rows limit (order_by_updated_desc (rows s))
    else
      let q := "%" ++ Text.lower text ++ "%" in
      Sql.limit_rows limit
        (order_by_updated_desc (List.filter (matches_query q) (rows s)))
  in
  map (fun r => (id r, snip r)) rows.

Definition all (s : t) : list Row :=
  map row_of (order_by_updated_desc (rows s)).

Definition slug_char (c : ascii) : bool :=
  Text.isalnum c || Ascii.eqb c " " || Ascii.eqb c "-" || Ascii.eqb c "_".

(** The [safe] part of an export file name. *)
Definition safe_name (nid : Z) (title : string) : string :=
  let kept := Text.strip_chars (List.filter slug_char (Text.chars title)) in
  let safe :=
    match firstn 50 kept with
    | [] => Text.chars ("note-" ++ pretty nid)
    | cut => cut
    end in
  Text.text (Text.replace_spaces safe).

Definition file_name (nid : Z) (title : string) : string :=
  "note-" ++ pretty nid ++ "-" ++ safe_name nid title ++ ".md".

(** The middle dot of the metadata line. *)
Definition middle_dot : string := String (Text.chr 183) EmptyString.

Definition file_text (title body created updated : string) : string :=
  "# " ++ title ++ Sql.char10 ++ Sql.char10
  ++ "_Created: " ++ created ++ " " ++ middle_dot ++ " Updated: " ++ updated ++ "_"
  ++ Sql.char10 ++ Sql.char10 ++ body.

(** One turn of the export loop: a [write_text] below [dir_path], [n += 1]. *)
Definition export_row (acc : list (string * string) * Z) (r : Row)
    : list (string * string) * Z :=
  let '(nid, title, body, created, updated) := r in
  ((fst acc ++ [(file_name nid title, file_text title body created updated)])%list,
   snd acc + 1).

(** [[r for r in rows if r]] *)
Fixpoint found_rows (l : list (option Row)) : list Row :=
  match l with
  | [] => []
  | Some r :: l' => r :: found_rows l'
  | None :: l' => found_rows l'
  end.

(** Returns the files written below [dir_path], in order, with the count. *)
Definition export_separate_files (s : t) (note_ids : option (list Z))
    : list (string * string) * Z :=
  let rows :=
    match note_ids with
    | Some ((_ :: _) as ids) => map (get s) ids
    | _ => map Some (all s)
    end in
  let rows := found_rows rows in
  fold_left export_row rows ([], 0).

(** A path as [import_text_file] sees it: its stem and what [read_text]
    yields, [None] when reading raises. *)
Record Path : Type := mkPath {
  stem : string;
  read_text : option string
}.

(** [path.stem or "(untitled)"] *)
Definition import_title (path : Path) : string :=
  if Text.is_empty (stem path) then "(untitled)" else stem path.

(** [None]: the exception of [read_text] propagates. *)
Definition import_text_file (now : string) (s : t) (path : Path)
    : option (t * (Z * Z * option Z)) :=
  match read_text path with
  | None => None
  | Some content =>
      let title := import_title path in
      let import_hash := _compute_hash title content in
      if note_exists_by_hash s import_hash then Some (s, (0, 1, None))
      else
        let '(s', note_id) := upsert now s title content None (Some import_hash) in
        Some (s', (1, 0, Some note_id))
  end.

(** A directory entry as [iterdir] yields it: the path, its [name] and
    [suffix], and what [is_file] and [is_dir] answer for it. *)
Record DirEntry : Type := mkDirEntry {
  entry_path : Path;
  entry_name : string;
  entry_suffix : string;
  entry_is_file : bool;
  entry_is_dir : bool
}.

(** What a directory path holds; [None] when it is not an existing
    directory. *)
Definition Directory : Type := option (list DirEntry).

Definition default_extensions : list string := [".md"; ".markdown"; ".txt"].

(** [p.is_file() and p.suffix.lower() in extensions] *)
Definition is_importable (extensions : list string) (p : DirEntry) : bool :=
  entry_is_file p && existsb (String.eqb (Text.lower (entry_suffix p))) extensions.

(** The order of [sorted(dir_path.iterdir())]: paths of one directory compare
    by name. *)
Definition name_le (p q : DirEntry) : Prop := String.le (entry_name p) (entry_name q).

#[global] Instance name_le_dec : RelDecision name_le.
Proof. intros p q. unfold name_le. apply _. Defined.

(** The loop of [import_directory]; the [i]-th call of [import_text_file]
    reads the clock as [clock i].  The store reached comes with the totals,
    or with [None] when a read raised (what was imported before stays). *)
Fixpoint import_paths (clock : nat -> string) (extensions : list string)
    (ps : list DirEntry) (s : t) (i : nat) (imported skipped : Z) (note_ids : list Z)
    : t * option (Z * Z * list Z) :=
  match ps with
  | [] => (s, Some (imported, skipped, note_ids))
  | p :: ps' =>
      if is_importable extensions p then
        match import_text_file (clock i) s (entry_path p) with
        | None => (s, None)
        | Some (s', (imp, skip, note_id)) =>
            import_paths clock extensions ps' s' (S i) (imported + imp) (skipped + skip)
              (match note_id with
               | Some nid => note_ids ++ [nid]
               | None => note_ids
               end)%list
        end
      else import_paths clock extensions ps' s i imported skipped note_ids
  end.

(** [None] beside the store: [iterdir] or a read raised. *)
Definition import_directory (clock : nat -> string) (s : t) (dir_path : Directory)
    (extensions : list string) : t * option (Z * Z * list Z) :=
  match dir_path with
  | None => (s, None)
  | Some entries =>
      import_paths clock extensions (Sql.order_by name_le entries) s 0 0 0 []
  end.

Definition count_importable_files (dir_path : Directory) (extensions : list string) : Z :=
  match dir_path with
  | None => 0
  | Some entries => Z.of_nat (length (List.filter (is_importable extensions) entries))
  end.

(** [seed(n)]: [n] demo notes, the [i]-th written at clock reading [clock i]. *)
Definition seed_body : string :=
  "Created for testing Notry." ++ Sql.char10
  ++ "This note contains keywords like alpha beta gamma delta." ++ Sql.char10 ++ Sql.char10
  ++ "Use :help for commands.".

Fixpoint seed_from (clock : nat -> string) (s : t) (i n : nat) : t :=
  match n with
  | O => s
  | S n' =>
      let title := "Dummy note " ++ pretty (i + 1)%nat in
      seed_from clock (fst (upsert (clock i) s title seed_body None None)) (S i) n'
  end.

Definition seed (clock : nat -> string) (s : t) (n : nat) : t := seed_from clock s 0 n.

End NoteStore.

(** ** The session: [class ResultsList], [class BrowseScreen], [class NotryApp]

    Rendering (labels, preview text, mode bar) is left out; what the handlers
    read back is kept: the rows of the results list and its cursor, the
    editor text, the focus, and the notifications with their severity. *)

Module ResultsList.

(** The note id of each child, top to bottom, and the list cursor. *)
Record t : Type := mk {
  children : list Z;
  index : option nat
}.

Definition empty : t := mk [] None.

Definition set_items (items : list (Z * string)) (marked : gset Z) (max_rows : nat) : t :=
  let children := map fst (firstn max_rows items) in
  mk children (match children with [] => None | _ :: _ => Some 0%nat end).

Definition current_note_id (l : t) : option Z :=
  match index l with
  | None => None
  | Some i => nth_error (children l) i
  end.

Definition last_index (l : t) : nat := (length (children l) - 1)%nat.

Definition set_index (i : nat) (l : t) : t := mk (children l) (Some i).

(** [ListView.action_cursor_down] and [action_cursor_up]. *)
Definition action_cursor_down (l : t) : t :=
  match children l, index l with
  | [], _ => l
  | _ :: _, None => set_index 0 l
  | _ :: _, Some i => set_index (Nat.min (i + 1) (last_index l)) l
  end.

Definition action_cursor_up (l : t) : t :=
  match children l, index l with
  | [], _ => l
  | _ :: _, None => set_index (last_index l) l
  | _ :: _, Some i => set_index (i - 1) l
  end.

End ResultsList.

Module NotryApp.

Inductive Mode : Type := SEARCH | EDIT.

Inductive Severity : Type := information | warning | error.

(** Which region holds the input focus. *)
Inductive Focus : Type := OnInput | OnResults | OnEditor.

(** The messages passed to [notify], by the handler that sends them. *)
Inductive Notice : Type :=
| Welcome
| UnsavedChanges
| NoNotesMarked
| ClearedMarked (count : nat)
| NoNotesToMark
| MarkedAllInView (count : nat)
| NoNotesMarkedForBrowse
| MarkedAllInBrowse (count : nat)
| ImportCancelled
| ImportedAndSkipped (imported skipped : Z)
| Imported (imported : Z)
| ImportFailed
| NoNotesMarkedForExport
| DownloadsNotFound
| Exported (n : Z) (export_dir : string)
| Saved (nid : Z)
| QuitWithoutSaving
| Help
| UnknownCommand (cmd : string)
| NoteNotFound (nid : Z)
| TextAreaNotAvailable
| EditorNotAvailable
| EditModeEntered (title : string).

Record TextArea : Type := mkTextArea {
  text : string;
  display : bool
}.

Record t : Type := mkApp {
  store : NoteStore.t;
  mode : Mode;
  matches : list Z;
  snips : list string;
  marked : gset Z;
  editing_note_id : option Z;
  original_body : string;
  (** [self._input().value] *)
  search_value : string;
  results : ResultsList.t;
  (** [_HAS_TEXTAREA]: whether the import of [TextArea] succeeded *)
  _HAS_TEXTAREA : bool;
  (** the [#editor] widget, when the query for it finds one *)
  editor : option TextArea;
  preview_display : bool;
  focused : Focus;
  notices : list (Notice * Severity);
  (** the files written so far: directory, name, content *)
  disk : list (string * string * string)
}.

Definition max_rows : nat := 500.

Definition set_store (v : NoteStore.t) (a : t) : t :=
  mkApp v (mode a) (matches a) (snips a) (marked a) (editing_note_id a)
    (original_body a) (search_value a) (results a) (_HAS_TEXTAREA a) (editor a)
    (preview_display a) (focused a) (notices a) (disk a).
Definition set_mode (v : Mode) (a : t) : t :=
  mkApp (store a) v (matches a) (snips a) (marked a) (editing_note_id a)
    (original_body a) (search_value a) (results a) (_HAS_TEXTAREA a) (editor a)
    (preview_display a) (focused a) (notices a) (disk a).
Definition set_matches (m : list Z) (sn : list string) (a : t) : t :=
  mkApp (store a) (mode a) m sn (marked a) (editing_note_id a)
    (original_body a) (search_value a) (results a) (_HAS_TEXTAREA a) (editor a)
    (preview_display a) (focused a) (notices a) (disk a).
Definition set_marked (v : gset Z) (a : t) : t :=
  mkApp (store a) (mode a) (matches a) (snips a) v (editing_note_id a)
    (original_body a) (search_value a) (results a) (_HAS_TEXTAREA a) (editor a)
    (preview_display a) (focused a) (notices a) (disk a).
Definition set_editing_note_id (v : option Z) (a : t) : t :=
  mkApp (store a) (mode a) (matches a) (snips a) (marked a) v
    (original_body a) (search_value a) (results a) (_HAS_TEXTAREA a) (editor a)
    (preview_display a) (focused a) (notices a) (disk a).
Definition set_original_body (v : string) (a : t) : t :=
  mkApp (store a) (mode a) (matches a) (snips a) (marked a) (editing_note_id a)
    v (search_value a) (results a) (_HAS_TEXTAREA a) (editor a)
    (preview_display a) (focused a) (notices a) (disk a).
Definition set_search_value (v : string) (a : t) : t :=
  mkApp (store a) (mode a) (matches a) (snips a) (marked a) (editing_note_id a)
    (original_body a) v (results a) (_HAS_TEXTAREA a) (editor a)
    (preview_display a) (focused a) (notices a) (disk a).
Definition set_results (v : ResultsList.t) (a : t) : t :=
  mkApp (store a) (mode a) (matches a) (snips a) (marked a) (editing_note_id a)
    (original_body a) (search_value a) v (_HAS_TEXTAREA a) (editor a)
    (preview_display a) (focused a) (notices a) (disk a).
Definition set_editor (v : option TextArea) (a : t) : t :=
  mkApp (store a) (mode a) (matches a) (snips a) (marked a) (editing_note_id a)
    (original_body a) (search_value a) (results a) (_HAS_TEXTAREA a) v
    (preview_display a) (focused a) (notices a) (disk a).
Definition set_preview_display (v : bool) (a : t) : t :=
  mkApp (store a) (mode a) (matches a) (snips a) (marked a) (editing_note_id a)
    (original_body a) (search_value a) (results a) (_HAS_TEXTAREA a) (editor a)
    v (focused a) (notices a) (disk a).
Definition set_focus (v : Focus) (a : t) : t :=
  mkApp (store a) (mode a) (matches a) (snips a) (marked a) (editing_note_id a)
    (original_body a) (search_value a) (results a) (_HAS_TEXTAREA a) (editor a)
    (preview_display a) v (notices a) (disk a).
Definition notify (n : Notice) (severity : Severity) (a : t) : t :=
  mkApp (store a) (mode a) (matches a) (snips a) (marked a) (editing_note_id a)
    (original_body a) (search_value a) (results a) (_HAS_TEXTAREA a) (editor a)
    (preview_display a) (focused a) (notices a ++ [(n, severity)])%list (disk a).
Definition write_files (dir : string) (files : list (string * string)) (a : t) : t :=
  mkApp (store a) (mode a) (matches a) (snips a) (marked a) (editing_note_id a)
    (original_body a) (search_value a) (results a) (_HAS_TEXTAREA a) (editor a)
    (preview_display a) (focused a) (notices a)
    (disk a ++ map (fun f => (dir, fst f, snd f)) files)%list.

(** [__init__] and [compose]: the editor widget is composed exactly when
    [_HAS_TEXTAREA] holds. *)
Definition init (store : NoteStore.t) (has_textarea : bool) : t :=
  mkApp store SEARCH [] [] ∅ None "" "" ResultsList.empty has_textarea
    (if has_textarea then Some (mkTextArea "" false) else None)
    true OnInput [] [].

Definition _editor (a : t) : option TextArea :=
  if _HAS_TEXTAREA a then editor a else None.

(** [if _HAS_TEXTAREA: ed = self._editor(); if ed: ed.display = False] *)
Definition hide_editor (a : t) : t :=
  if _HAS_TEXTAREA a then
    match _editor a with
    | Some ed => set_editor (Some (mkTextArea (text ed) false)) a
    | None => a
    end
  else a.

Definition _refresh_results (a : t) : t :=
  let items := combine (matches a) (snips a) in
  set_results (ResultsList.set_items items (marked a) max_rows) a.

Definition refresh_search (text : string) (a : t) : t :=
  let pairs := NoteStore.search (store a) text (Z.of_nat max_rows) in
  _refresh_results (set_matches (map fst pairs) (map snd pairs) a).

Definition on_mount (a : t) : t :=
  notify Welcome information (refresh_search "" (hide_editor (set_focus OnInput a))).

Definition _enter_edit (nid : Z) (a : t) : t :=
  match NoteStore.get (store a) nid with
  | None => notify (NoteNotFound nid) warning a
  | Some (_, title, body, _, _) =>
      if negb (_HAS_TEXTAREA a) then notify TextAreaNotAvailable error a
      else
        match _editor a with
        | None => notify EditorNotAvailable error a
        | Some ed =>
            let a := set_mode EDIT a in
            let a := set_editing_note_id (Some nid) a in
            let a := set_original_body body a in
            let a := set_preview_display false a in
            let a := set_editor (Some (mkTextArea body true)) a in
            let a := set_focus OnEditor a in
            notify (EditModeEntered title) information a
        end
  end.

(** The guard of [action_mode_back]: there is an editor and its text is
    not the baseline. *)
Definition unsaved_changes (a : t) : bool :=
  if _HAS_TEXTAREA a then
    match _editor a with
    | Some ed => negb (String.eqb (text ed) (original_body a))
    | None => false
    end
  else false.

Definition action_mode_back (a : t) : t :=
  match mode a with
  | EDIT =>
      if unsaved_changes a then notify UnsavedChanges warning a
      else
        let a := set_mode SEARCH a in
        let a := set_editing_note_id None a in
        let a := set_original_body "" a in
        let a := hide_editor a in
        let a := set_preview_display true a in
        let a := refresh_search (search_value a) a in
        set_focus OnInput a
  | SEARCH => set_focus OnInput (set_mode SEARCH a)
  end.

Definition action_open_or_edit (now : string) (a : t) : t :=
  match mode a with
  | EDIT => a
  | SEARCH =>
      let nid := ResultsList.current_note_id (results a) in
      let is_in_results := match focused a with OnResults => true | _ => false end in
      match is_in_results, nid with
      | true, Some nid => _enter_edit nid a
      | _, _ =>
          let q := Text.strip (search_value a) in
          if negb (Text.is_empty q) then
            match NoteStore.search (store a) q 1 with
            | (nid, _) :: _ => _enter_edit nid a
            | [] =>
                let '(s, nid) := NoteStore.upsert now (store a) q "" None None in
                _enter_edit nid (refresh_search q (set_store s a))
            end
          else
            match nid with
            | Some nid => _enter_edit nid a
            | None => a
            end
      end
  end.

(** [if nid in marked: marked.remove(nid) else: marked.add(nid)] *)
Definition toggle (nid : Z) (marked : gset Z) : gset Z :=
  if decide (nid ∈ marked) then marked ∖ {[nid]} else marked ∪ {[nid]}.

(** [for note_id in ids: marked.add(note_id)] *)
Definition add_all (ids : list Z) (marked : gset Z) : gset Z :=
  fold_left (fun m note_id => m ∪ {[note_id]}) ids marked.

Definition action_toggle_mark (a : t) : t :=
  match mode a with
  | EDIT => a
  | SEARCH =>
      match ResultsList.current_note_id (results a) with
      | None => a
      | Some nid =>
          let current_index := ResultsList.index (results a) in
          let a := set_marked (toggle nid (marked a)) a in
          let a := _refresh_results a in
          match current_index, ResultsList.children (results a) with
          | Some i, _ :: _ =>
              let next_index := Nat.min (i + 1) (ResultsList.last_index (results a)) in
              set_results (ResultsList.set_index next_index (results a)) a
          | _, _ => a
          end
      end
  end.

Definition action_clear_all_marks (a : t) : t :=
  match mode a with
  | EDIT => a
  | SEARCH =>
      if decide (marked a = ∅) then notify NoNotesMarked information a
      else
        let count := size (marked a) in
        let a := set_marked ∅ a in
        let a := _refresh_results a in
        notify (ClearedMarked count) information a
  end.

Definition action_mark_all (a : t) : t :=
  match mode a with
  | EDIT => a
  | SEARCH =>
      match matches a with
      | [] => notify NoNotesToMark information a
      | _ :: _ =>
          let a := set_marked (add_all (matches a) (marked a)) a in
          let a := _refresh_results a in
          notify (MarkedAllInView (length (matches a))) information a
      end
  end.

Definition action_cursor_down (a : t) : t :=
  match mode a with
  | EDIT => a
  | SEARCH =>
      let a := set_focus OnResults a in
      set_results (ResultsList.action_cursor_down (results a)) a
  end.

Definition action_cursor_up (a : t) : t :=
  match mode a with
  | EDIT => a
  | SEARCH =>
      let a := set_focus OnResults a in
      set_results (ResultsList.action_cursor_up (results a)) a
  end.

(** *** Browse: [class BrowseScreen]

    The screen holds a reference to the marked set of the application, so
    its handlers act on [marked a] itself.  The focused card is the one at
    [current_index]. *)
Module BrowseScreen.

Record screen : Type := mkScreen {
  cards : list Z;
  current_index : nat
}.

(** The keys handled while the screen is up. *)
Inductive Key : Type :=
| toggle_mark | mark_all | clear_marks | cursor_down | cursor_up.

(** How the screen is dismissed: [action_cancel] or [action_select]. *)
Inductive Dismiss : Type := cancel | select.

(** [__init__] and [on_mount]: one card per marked id that resolves, in
    ascending id order. *)
Definition on_mount (store : NoteStore.t) (marked_set : gset Z) : screen :=
  let marked_ids := merge_sort Z.le (elements marked_set) in
  mkScreen
    (List.filter (fun nid => bool_decide (is_Some (NoteStore.get store nid))) marked_ids)
    0.

Definition focused_card (b : screen) : option Z :=
  nth_error (cards b) (current_index b).

Definition action_toggle_mark (ab : t * screen) : t * screen :=
  let '(a, b) := ab in
  match focused_card b with
  | None => ab
  | Some note_id =>
      let a := set_marked (toggle note_id (marked a)) a in
      if (current_index b <? length (cards b) - 1)%nat
      then (a, mkScreen (cards b) (current_index b + 1))
      else (a, b)
  end.

Definition action_mark_all (ab : t * screen) : t * screen :=
  let '(a, b) := ab in
  let count := length (cards b) in
  let a := set_marked (add_all (cards b) (marked a)) a in
  (notify (MarkedAllInBrowse count) information a, b).

Definition action_clear_marks (ab : t * screen) : t * screen :=
  let '(a, b) := ab in
  let count := size (marked a) in
  let a := set_marked ∅ a in
  (notify (ClearedMarked count) information a, b).

Definition action_cursor_down (ab : t * screen) : t * screen :=
  let '(a, b) := ab in
  if (current_index b <? length (cards b) - 1)%nat
  then (a, mkScreen (cards b) (current_index b + 1))
  else ab.

Definition action_cursor_up (ab : t * screen) : t * screen :=
  let '(a, b) := ab in
  if (0 <? current_index b)%nat
  then (a, mkScreen (cards b) (current_index b - 1))
  else ab.

Definition press (ab : t * screen) (k : Key) : t * screen :=
  match k with
  | toggle_mark => action_toggle_mark ab
  | mark_all => action_mark_all ab
  | clear_marks => action_clear_marks ab
  | cursor_down => action_cursor_down ab
  | cursor_up => action_cursor_up ab
  end.

(** What [push_screen_wait] returns. *)
Definition result (b : screen) (d : Dismiss) : option Z :=
  match d with
  | cancel => None
  | select => focused_card b
  end.

End BrowseScreen.

Definition _launch_browse_mode (keys : list BrowseScreen.Key)
    (d : BrowseScreen.Dismiss) (a : t) : t :=
  let '(a, b) :=
    fold_left BrowseScreen.press keys (a, BrowseScreen.on_mount (store a) (marked a)) in
  let a := _refresh_results a in
  match BrowseScreen.result b d with
  | Some nid => _enter_edit nid (set_mode SEARCH a)
  | None => a
  end.

Definition action_toggle_browse_mode (keys : list BrowseScreen.Key)
    (d : BrowseScreen.Dismiss) (a : t) : t :=
  match mode a with
  | EDIT => a
  | SEARCH =>
      if decide (marked a = ∅) then notify NoNotesMarkedForBrowse warning a
      else _launch_browse_mode keys d a
  end.

(** The loop of [_do_import]: the store reached, and the totals unless a
    read raised. *)
Fixpoint import_selected (now : string) (s : NoteStore.t) (files : list NoteStore.Path)
    (imported skipped : Z) (imported_note_ids : list Z)
    : NoteStore.t * option (Z * Z * list Z) :=
  match files with
  | [] => (s, Some (imported, skipped, imported_note_ids))
  | file_path :: files' =>
      match NoteStore.import_text_file now s file_path with
      | None => (s, None)
      | Some (s', (imp, skip, note_id)) =>
          import_selected now s' files' (imported + imp) (skipped + skip)
            (match note_id with
             | Some nid => imported_note_ids ++ [nid]
             | None => imported_note_ids
             end)%list
      end
  end.

(** [result] is what the import dialog returned. *)
Definition _do_import (now : string) (result : option (list NoteStore.Path)) (a : t) : t :=
  match result with
  | None | Some [] => notify ImportCancelled information a
  | Some files =>
      let '(s, outcome) := import_selected now (store a) files 0 0 [] in
      let a := set_store s a in
      match outcome with
      | None => notify ImportFailed error a
      | Some (imported, skipped, imported_note_ids) =>
          let a := set_marked (add_all imported_note_ids (marked a)) a in
          let a := set_search_value "" a in
          let a := refresh_search "" a in
          if 0 <? skipped
          then notify (ImportedAndSkipped imported skipped) information a
          else notify (Imported imported) information a
      end
  end.

Definition action_import_notes := _do_import.

(** [downloads_exists] and [export_dir] come from the file system and the
    clock. *)
Definition action_export_notes (downloads_exists : bool) (export_dir : string) (a : t) : t :=
  if decide (marked a = ∅) then notify NoNotesMarkedForExport warning a
  else if negb downloads_exists then notify DownloadsNotFound warning a
  else
    let note_ids := elements (marked a) in
    let '(files, n) := NoteStore.export_separate_files (store a) (Some note_ids) in
    notify (Exported n export_dir) information (write_files export_dir files a).

Definition action_save_edit (now : string) (a : t) : t :=
  match mode a with
  | SEARCH => a
  | EDIT =>
      if negb (_HAS_TEXTAREA a) then a
      else
        match editing_note_id a, _editor a with
        | Some nid, Some ed =>
            match NoteStore.get (store a) nid with
            | None => a
            | Some (_, title, _, _, _) =>
                let '(s, _) :=
                  NoteStore.upsert now (store a) title (text ed) (Some nid) None in
                let a := set_store s a in
                let a := set_original_body (text ed) a in
                let a := notify (Saved nid) information a in
                refresh_search (search_value a) a
            end
        | _, _ => a
        end
  end.

(** [text] is the new value of the search input. *)
Definition on_input_changed (text : string) (a : t) : t :=
  let a := set_search_value text a in
  if Text.starts_with_colon text then a
  else
    match mode a with
    | EDIT => a
    | SEARCH => refresh_search text a
    end.

Definition _run_command (cmdline : string) (a : t) : t :=
  match Text.first_token cmdline with
  | None => a
  | Some token =>
      let cmd := Text.lower token in
      if String.eqb cmd "quit" || String.eqb cmd "q" then
        match mode a with
        | EDIT =>
            let a := set_mode SEARCH a in
            let a := set_editing_note_id None a in
            let a := set_original_body "" a in
            let a := hide_editor a in
            let a := set_preview_display true a in
            let a := set_focus OnInput a in
            notify QuitWithoutSaving information a
        | SEARCH => a
        end
      else if String.eqb cmd "help" then notify Help information a
      else notify (UnknownCommand cmd) warning a
  end.

Definition on_input_submitted (now : string) (a : t) : t :=
  let text := Text.strip (search_value a) in
  match text with
  | String ":" rest => _run_command (Text.strip rest) a
  | _ => action_open_or_edit now a
  end.

Definition on_list_view_selected (a : t) : t :=
  match mode a with
  | EDIT => a
  | SEARCH =>
      match ResultsList.current_note_id (results a) with
      | Some nid => _enter_edit nid a
      | None => a
      end
  end.

(** The user types in the editor. *)
Definition editor_changed (new_text : string) (a : t) : t :=
  match editor a with
  | Some ed => set_editor (Some (mkTextArea new_text (display ed))) a
  | None => a
  end.

(** What the input layer forwards to the session. *)
Inductive Intent : Type :=
| ModeBack
| OpenOrEdit
| ToggleMark
| ClearAllMarks
| MarkAll
| CursorDown
| CursorUp
| ToggleBrowseMode (keys : list BrowseScreen.Key) (d : BrowseScreen.Dismiss)
| ImportNotes (result : option (list NoteStore.Path))
| ExportNotes (downloads_exists : bool) (export_dir : string)
| SaveEdit
| InputChanged (text : string)
| InputSubmitted
| ListViewSelected
| EditorChanged (new_text : string)
| FocusMoved (target : Focus).

(** One intent, run to completion at clock reading [now]. *)
Definition step (now : string) (a : t) (i : Intent) : t :=
  match i with
  | ModeBack => action_mode_back a
  | OpenOrEdit => action_open_or_edit now a
  | ToggleMark => action_toggle_mark a
  | ClearAllMarks => action_clear_all_marks a
  | MarkAll => action_mark_all a
  | CursorDown => action_cursor_down a
  | CursorUp => action_cursor_up a
  | ToggleBrowseMode keys d => action_toggle_browse_mode keys d a
  | ImportNotes result => action_import_notes now result a
  | ExportNotes downloads_exists export_dir =>
      action_export_notes downloads_exists export_dir a
  | SaveEdit => action_save_edit now a
  | InputChanged text => on_input_changed text a
  | InputSubmitted => on_input_submitted now a
  | ListViewSelected => on_list_view_selected a
  | EditorChanged new_text => editor_changed new_text a
  | FocusMoved target => set_focus target a
  end.

End NotryApp.

(** ** The file browser of the import: [class FileItem], [class ImportDialog]

    One directory listing at a time: moving to another directory reloads the
    dialog with [refresh_file_list] on the listing of that directory. *)

Module ImportDialog.

Record FileItem : Type := mkFileItem {
  file_path : NoteStore.DirEntry;
  is_selected : bool
}.

(** The focusable rows, directories first, and the index of the focused one
    among [dir_items + file_items] ([None]: the focus is elsewhere). *)
Record t : Type := mk {
  dir_items : list string;
  file_items : list FileItem;
  focused : option nat
}.

Definition toggle_selection (item : FileItem) : FileItem :=
  mkFileItem (file_path item) (negb (is_selected item)).

(** The key of both [sorted] calls: [x.name.lower()]. *)
Definition lower_name_le (p q : NoteStore.DirEntry) : Prop :=
  String.le (Text.lower (NoteStore.entry_name p)) (Text.lower (NoteStore.entry_name q)).

#[global] Instance lower_name_le_dec : RelDecision lower_name_le.
Proof. intros p q. unfold lower_name_le. apply _. Defined.

(** [refresh_file_list]: [has_parent] is [current_path != current_path.parent]. *)
Definition refresh_file_list (has_parent : bool) (current_path : NoteStore.Directory)
    (extensions : list string) : t :=
  match current_path with
  | None => mk [] [] None
  | Some entries =>
      let dirs := Sql.order_by lower_name_le (List.filter NoteStore.entry_is_dir entries) in
      let files :=
        Sql.order_by lower_name_le
          (List.filter (NoteStore.is_importable extensions) entries) in
      let dir_items :=
        ((if has_parent then [".."] else []) ++ map NoteStore.entry_name dirs)%list in
      let file_items := map (fun f => mkFileItem f false) files in
      mk dir_items file_items
         (match file_items, dir_items with
          | _ :: _, _ => Some (length dir_items)
          | [], _ :: _ => Some 0%nat
          | [], [] => None
          end)
  end.

Definition all_items_length (d : t) : nat :=
  (length (dir_items d) + length (file_items d))%nat.

(** The index in [file_items] of the focused row when it is a [FileItem]. *)
Definition focused_file (d : t) : option nat :=
  match focused d with
  | Some i =>
      if (length (dir_items d) <=? i)%nat && (i <? all_items_length d)%nat
      then Some (i - length (dir_items d))%nat
      else None
  | None => None
  end.

Fixpoint toggle_at (idx : nat) (items : list FileItem) : list FileItem :=
  match items, idx with
  | [], _ => []
  | item :: items', O => toggle_selection item :: items'
  | item :: items', S idx' => item :: toggle_at idx' items'
  end.

Definition action_toggle_selection (d : t) : t :=
  match focused_file d with
  | Some idx =>
      mk (dir_items d) (toggle_at idx (file_items d))
         (if (idx <? length (file_items d) - 1)%nat
          then Some (length (dir_items d) + idx + 1)%nat
          else focused d)
  | None => d
  end.

Definition action_select_all (d : t) : t :=
  mk (dir_items d) (map (fun item => mkFileItem (file_path item) true) (file_items d))
     (focused d).

Definition action_select_none (d : t) : t :=
  mk (dir_items d) (map (fun item => mkFileItem (file_path item) false) (file_items d))
     (focused d).

Definition action_cursor_down (d : t) : t :=
  match all_items_length d, focused d with
  | O, _ => d
  | S _, Some idx =>
      if (idx <? all_items_length d - 1)%nat
      then mk (dir_items d) (file_items d) (Some (idx + 1)%nat)
      else d
  | S _, None => mk (dir_items d) (file_items d) (Some 0%nat)
  end.

Definition action_cursor_up (d : t) : t :=
  match all_items_length d, focused d with
  | O, _ => d
  | S _, Some idx =>
      if (0 <? idx)%nat
      then mk (dir_items d) (file_items d) (Some (idx - 1)%nat)
      else d
  | S n, None => mk (dir_items d) (file_items d) (Some n)
  end.

Definition action_go_top (d : t) : t :=
  match all_items_length d with
  | O => d
  | S _ => mk (dir_items d) (file_items d) (Some 0%nat)
  end.

Definition action_go_bottom (d : t) : t :=
  match all_items_length d with
  | O => d
  | S n => mk (dir_items d) (file_items d) (Some n)
  end.

(** What [action_import_selected] passes to [dismiss]. *)
Definition action_import_selected (d : t) : option (list NoteStore.DirEntry) :=
  let selected_files :=
    map file_path (List.filter is_selected (file_items d)) in
  match selected_files with
  | [] => None
  | _ :: _ => Some selected_files
  end.

Definition action_cancel (d : t) : option (list NoteStore.DirEntry) := None.

(** The keys that stay within one listing. *)
Inductive Key : Type :=
| toggle_selection_key | select_all | select_none
| cursor_down | cursor_up | go_top | go_bottom.

Definition press (d : t) (k : Key) : t :=
  match k with
  | toggle_selection_key => action_toggle_selection d
  | select_all => action_select_all d
  | select_none => action_select_none d
  | cursor_down => action_cursor_down d
  | cursor_up => action_cursor_up d
  | go_top => action_go_top d
  | go_bottom => action_go_bottom d
  end.

(** [_get_file_preview]: [content] is what [read_text] yields, [None] when
    it raises. *)
Fixpoint split_lines (l : list ascii) : list (list ascii) :=
  match l with
  | [] => [[]]
  | c :: l' =>
      if Ascii.eqb c "010" then [] :: split_lines l'
      else match split_lines l' with
           | line :: lines => (c :: line) :: lines
           | [] => [[c]]
           end
  end.

(** [line[:max_chars]]: a negative bound counts from the end. *)
Definition slice_to (max_chars : Z) (line : list ascii) : list ascii :=
  if max_chars <? 0
  then firstn (Z.to_nat (Z.of_nat (length line) + max_chars)) line
  else firstn (Z.to_nat max_chars) line.

Fixpoint first_preview (max_chars : Z) (lines : list (list ascii)) : string :=
  match lines with
  | [] => "(empty file)"
  | line :: lines' =>
      match Text.strip_chars line with
      | [] => first_preview max_chars lines'
      | stripped =>
          Text.text (slice_to max_chars stripped)
          ++ (if max_chars <? Z.of_nat (length stripped) then "..." else "")
      end
  end.

Definition _get_file_preview (content : option string) (max_chars : Z) : string :=
  match content with
  | None => "(unable to read)"
  | Some content => first_preview max_chars (split_lines (Text.chars content))
  end.

End ImportDialog.

(** ** Start-up: [main] *)

Module Main.

(** The store [main] hands to the application.  [db_file] is the database
    found at [--db] ([None]: no such file), [unlink_ok] whether deleting it
    succeeds.  [None]: [main] returns 2. *)
Definition starting_store (clock : nat -> string) (reset : bool) (seed : Z)
    (db_file : option NoteStore.t) (unlink_ok : bool) : option NoteStore.t :=
  let after_reset :=
    match reset, db_file with
    | true, Some _ => if unlink_ok then Some None else None
    | _, _ => Some db_file
    end in
  match after_reset with
  | None => None
  | Some file =>
      let store := match file with Some s => s | None => NoteStore.empty end in
      if (0 <? seed) && (NoteStore.count store =? 0)
      then Some (NoteStore.seed clock store (Z.to_nat seed))
      else Some store
  end.

End Main.

(** * Vocabulary of the properties *)

(** The words of the specification: [q] occurs in [x] as a literal substring,
    letter case ignored. *)
Module Spec.




End Spec.


Definition demo_file : NoteStore.Path :=
  NoteStore.mkPath "groceries" (Some "milk, eggs").

Definition demo_store : NoteStore.t :=
  (NoteStore.upsert "2025-03-01T09:00:00+00:00" NoteStore.empty "abc" "Alpha" None None).1.

(** No [|] occurs in the string. *)
Fixpoint bar_free (s : string) : bool :=
  match s with
  | EmptyString => true
  | String c s' => negb (Ascii.eqb c "|") && bar_free s'
  end.














(** The characters an export file name is made of, besides the fixed parts. *)
Definition safe_char (c : ascii) : bool :=
  Text.isalnum c || Ascii.eqb c "-" || Ascii.eqb c "_".

Definition is_digit (c : ascii) : bool := Text.in_range 48 57 c.

(** The ids that name a note. *)
Definition existing_ids (s : NoteStore.t) : gset Z :=
  list_to_set (map NoteStore.id (NoteStore.rows s)).

(** The file written for a row. *)
Definition file_of (r : NoteStore.Row) : string * string :=
  let '(nid, title, body, created, updated) := r in
  (NoteStore.file_name nid title, NoteStore.file_text title body created updated).

(** The session of the scenario "create X, type without saving". *)
Definition demo_app : NotryApp.t :=
  NotryApp.on_mount (NotryApp.init demo_store true).

Definition demo_editing : NotryApp.t :=
  let a := NotryApp.step "2025-03-03T08:00:00+00:00" demo_app (NotryApp.InputChanged "X") in
  let a := NotryApp.step "2025-03-03T08:00:01+00:00" a NotryApp.InputSubmitted in
  NotryApp.step "2025-03-03T08:00:02+00:00" a (NotryApp.EditorChanged "draft").

(** The intents that may change the marked set, and those among them that
    are pure marking operations. *)
Definition changes_marks (i : NotryApp.Intent) : bool :=
  match i with
  | NotryApp.ToggleMark | NotryApp.ClearAllMarks | NotryApp.MarkAll
  | NotryApp.ToggleBrowseMode _ _ | NotryApp.ImportNotes _ => true
  | _ => false
  end.

Definition marking_only (i : NotryApp.Intent) : bool :=
  match i with
  | NotryApp.ToggleMark | NotryApp.ClearAllMarks | NotryApp.MarkAll
  | NotryApp.ToggleBrowseMode _ _ => true
  | _ => false
  end.

(** The session of the scenario "import a file, open the note, save". *)
Definition demo_imported : NotryApp.t :=
  let a := NotryApp.step "2025-03-04T08:00:00+00:00" demo_app
             (NotryApp.ImportNotes (Some [demo_file])) in
  let a := NotryApp.step "2025-03-04T08:00:01+00:00" a NotryApp.OpenOrEdit in
  NotryApp.step "2025-03-04T08:00:02+00:00" a (NotryApp.EditorChanged "milk, eggs, bread").

Definition demo_digest : string :=
  Eval vm_compute in NoteStore._compute_hash "groceries" "milk, eggs".

(** The sessions a run can be in: mounted over some store, then any number of
    intents. *)
Inductive reachable : NotryApp.t -> Prop :=
| reach_mount (store : NoteStore.t) (has_textarea : bool) :
    reachable (NotryApp.on_mount (NotryApp.init store has_textarea))
| reach_step (now : string) (a : NotryApp.t) (i : NotryApp.Intent) :
    reachable a -> reachable (NotryApp.step now a i).

(** In EDIT mode there is an editor and a note being edited. *)
Definition edit_ok (a : NotryApp.t) : Prop :=
  NotryApp.mode a = NotryApp.EDIT ->
  NotryApp._HAS_TEXTAREA a = true
  /\ is_Some (NotryApp.editor a) /\ is_Some (NotryApp.editing_note_id a).

(** [b] has the mode, the editing target and (if any) an editor like [a]. *)
Definition same_edit (a b : NotryApp.t) : Prop :=
  NotryApp.mode b = NotryApp.mode a
  /\ NotryApp._HAS_TEXTAREA b = NotryApp._HAS_TEXTAREA a
  /\ (is_Some (NotryApp.editor a) -> is_Some (NotryApp.editor b))
  /\ NotryApp.editing_note_id b = NotryApp.editing_note_id a.

(** No two notes hold the same import digest. *)
Definition digest_unique (s : NoteStore.t) : Prop :=
  forall r r' h, In r (NoteStore.rows s) -> In r' (NoteStore.rows s) ->
    NoteStore.import_hash r = Some h -> NoteStore.import_hash r' = Some h ->
    NoteStore.id r = NoteStore.id r'.

(** Five demo notes written within one second, and a session over them. *)
Definition seeded_store : NoteStore.t :=
  NoteStore.seed (fun _ => "2025-03-01T09:00:00+00:00") NoteStore.empty 5.

Definition seeded_app : NotryApp.t :=
  NotryApp.on_mount (NotryApp.init seeded_store true).

(** Mark notes 1 and 3 in the results list. *)
Definition seeded_marked : NotryApp.t :=
  let now := "2025-03-01T09:01:00+00:00" in
  let a := NotryApp.step now seeded_app (NotryApp.InputChanged "beta") in
  let a := NotryApp.step now a NotryApp.ToggleMark in
  let a := NotryApp.step now a NotryApp.CursorDown in
  NotryApp.step now a NotryApp.ToggleMark.

(** No two rows of the table share an id ([PRIMARY KEY]). *)
Definition unique_ids (s : NoteStore.t) : Prop :=
  NoDup (map NoteStore.id (NoteStore.rows s)).

(** The rows a search selects, before they are turned into pairs. *)
Definition selected_rows (s : NoteStore.t) (text : string) (limit : Z)
    : list NoteStore.Note :=
  if Text.is_empty (Text.strip text) then
    Sql.limit_rows limit (NoteStore.order_by_updated_desc (NoteStore.rows s))
  else
    Sql.limit_rows limit
      (NoteStore.order_by_updated_desc
         (List.filter (NoteStore.matches_query ("%" ++ Text.lower text ++ "%"))
            (NoteStore.rows s))).

(** The characters of an export file name. *)
Definition name_char (c : ascii) : bool := safe_char c || Ascii.eqb c ".".

(** The digest [import_text_file] looks up for a path that reads as
    [content]. *)
Definition path_digest (p : NoteStore.Path) (content : string) : string :=
  NoteStore._compute_hash (NoteStore.import_title p) content.

(** How many of the entries [import_directory] would pass to
    [import_text_file]. *)
Definition importable_count (extensions : list string) (l : list NoteStore.DirEntry) : Z :=
  Z.of_nat (length (List.filter (NoteStore.is_importable extensions) l)).

(** A directory with two copies of one draft, a sub-directory, an image and
    a file with an upper-case suffix; and a clock that stands still. *)
Definition demo_directory : list NoteStore.DirEntry :=
  [ NoteStore.mkDirEntry (NoteStore.mkPath "todo" (Some "buy milk")) "todo.TXT" ".TXT"
      true false;
    NoteStore.mkDirEntry (NoteStore.mkPath "notes" None) "notes" "" false true;
    NoteStore.mkDirEntry (NoteStore.mkPath "draft" (Some "hello")) "draft.md" ".md"
      true false;
    NoteStore.mkDirEntry (NoteStore.mkPath "draft" (Some "hello")) "draft.markdown"
      ".markdown" true false;
    NoteStore.mkDirEntry (NoteStore.mkPath "image" None) "image.png" ".png" true false ].

Definition demo_clock (i : nat) : string := "2025-03-06T12:00:00+00:00".

(** The intents that act on the results list. *)
Definition list_intent (i : NotryApp.Intent) : bool :=
  match i with
  | NotryApp.OpenOrEdit | NotryApp.ToggleMark | NotryApp.ClearAllMarks
  | NotryApp.MarkAll | NotryApp.CursorDown | NotryApp.CursorUp
  | NotryApp.ToggleBrowseMode _ _ | NotryApp.ListViewSelected => true
  | _ => false
  end.

(** The matches always come with one snippet each, are at most [max_rows],
    and name notes of the store. *)
Definition matches_ok (a : NotryApp.t) : Prop :=
  length (NotryApp.snips a) = length (NotryApp.matches a)
  /\ (length (NotryApp.matches a) <= NotryApp.max_rows)%nat
  /\ forall nid, In nid (NotryApp.matches a) ->
       is_Some (NoteStore.get (NotryApp.store a) nid).

(** A text without a line break. *)
Definition one_line (s : string) : bool :=
  forallb (fun c => negb (Ascii.eqb c "010")) (Text.chars s).

(** The paths listed by an import dialog, top to bottom. *)
Definition listed_files (d : ImportDialog.t) : list NoteStore.DirEntry :=
  map ImportDialog.file_path (ImportDialog.file_items d).

(** * Properties *)

(** ** SHA-256 test vectors *)

Example sha256_abc :
  Sha256.hexdigest (Text.utf8_encode "abc")
  = "ba7816bf8f01cfea414140de5dae2223b00361a396177a9cb410ff61f20015ad".
Proof. vm_compute. reflexivity. Qed.

Example sha256_two_blocks :
  Sha256.hexdigest (Text.utf8_encode
    "abcdbcdecdefdefgefghfghighijhijkijkljklmklmnlmnomnopnopq")
  = "248d6a61d20638b8e5c026930c3e6039a33ce45964ff2167f6ecedd419db06c1".
Proof. vm_compute. reflexivity. Qed.

(** ** Scenarios of the specification *)

Example scenario_seed_and_search :
  NoteStore.count seeded_store = 5
  /\ map fst (NoteStore.search seeded_store "beta" 500) = [1; 2; 3; 4; 5]
  /\ map fst (NoteStore.search seeded_store "BETA" 2) = [1; 2].
Proof. repeat split. Qed.

Example scenario_browse_unmark :
  merge_sort Z.le (elements (NotryApp.marked seeded_marked)) = [1; 3]
  /\ elements
       (NotryApp.marked
          (NotryApp.step "2025-03-01T09:02:00+00:00" seeded_marked
             (NotryApp.ToggleBrowseMode
                [NotryApp.BrowseScreen.cursor_down; NotryApp.BrowseScreen.toggle_mark]
                NotryApp.BrowseScreen.cancel))) = [1].
Proof. split; vm_compute; reflexivity. Qed.

Example scenario_escape_with_unsaved_text :
  NotryApp.mode demo_editing = NotryApp.EDIT
  /\ NotryApp.mode (NotryApp.action_mode_back demo_editing) = NotryApp.EDIT
  /\ NoteStore.get (NotryApp.store (NotryApp.action_mode_back demo_editing)) 2
     = Some (2, "X", "", "2025-03-03T08:00:01+00:00", "2025-03-03T08:00:01+00:00")
  /\ NotryApp.mode
       (NotryApp._run_command "q" (NotryApp.action_mode_back demo_editing))
     = NotryApp.SEARCH.
Proof. repeat split. Qed.

(** ** Rows and ids *)

Section StoreFacts.
Import NoteStore.

Lemma find_none_no_row (s : t) (note_id : Z) :
  get s note_id = None -> forall r, In r (rows s) -> id r <> note_id.
Proof.
  unfold get. destruct (List.find _ _) eqn:E; [discriminate|].
  intros _ r Hr Heq.
  pose proof (find_none _ _ E r Hr) as H. simpl in H. lia.
Qed.

Lemma update_no_match (note_id : Z) (f : Note -> Note) (l : list Note) :
  (forall r, In r l -> id r <> note_id) ->
  map (fun r => if id r =? note_id then f r else r) l = l.
Proof.
  induction l as [|r l IH]; intros H; simpl; [reflexivity|].
  rewrite IH by (intros; apply H; now right).
  destruct (Z.eqb_spec (id r) note_id) as [E|_]; [|reflexivity].
  exfalso. apply (H r); [now left|exact E].
Qed.

Lemma max_rowid_bound (l : list Note) (r : Note) :
  In r l -> id r <= max_rowid l.
Proof.
  induction l as [|x l IH]; simpl; [tauto|].
  intros [->|H]; [lia|]. specialize (IH H). lia.
Qed.

Lemma next_rowid_fresh (s : t) (r : Note) :
  In r (rows s) -> id r <> next_rowid s.
Proof.
  intros H. apply max_rowid_bound in H. unfold next_rowid. lia.
Qed.

Lemma get_fresh_none (s : t) (note_id : Z) :
  (forall r, In r (rows s) -> id r <> note_id) -> get s note_id = None.
Proof.
  intros H. unfold get.
  destruct (List.find _ _) eqn:E; [|reflexivity].
  apply find_some in E as [Hin Heq]. exfalso. apply (H _ Hin). lia.
Qed.

Lemma find_app_fresh (note_id : Z) (l : list Note) (r : Note) :
  (forall x, In x l -> id x <> note_id) -> id r = note_id ->
  List.find (fun x => id x =? note_id) (l ++ [r]) = Some r.
Proof.
  induction l as [|x l IH]; intros H Hr; simpl.
  - now rewrite (proj2 (Z.eqb_eq _ _) Hr).
  - destruct (Z.eqb_spec (id x) note_id) as [E|_].
    + exfalso. apply (H x); [now left|exact E].
    + apply IH; [|exact Hr]. intros; apply H; now right.
Qed.

Lemma find_app_old (note_id : Z) (l : list Note) (r : Note) :
  id r <> note_id ->
  List.find (fun x => id x =? note_id) (l ++ [r])
  = List.find (fun x => id x =? note_id) l.
Proof.
  intros Hr. induction l as [|x l IH]; simpl.
  - destruct (Z.eqb_spec (id r) note_id); [contradiction|reflexivity].
  - now rewrite IH.
Qed.

End StoreFacts.

(** C6. An update with an id that names no note leaves the store as it is and
    hands the id back: no row appears, the count and every note stay the
    same. *)
Theorem upsert_unknown_id_noop (now : string) (s : NoteStore.t)
    (title body : string) (note_id : Z) (import_hash : option string) :
  NoteStore.get s note_id = None ->
  NoteStore.upsert now s title body (Some note_id) import_hash = (s, note_id)
  /\ NoteStore.count (NoteStore.upsert now s title body (Some note_id) import_hash).1
     = NoteStore.count s
  /\ forall i, NoteStore.get (NoteStore.upsert now s title body (Some note_id) import_hash).1 i
               = NoteStore.get s i.
Proof.
  intros Hget.
  assert (E : NoteStore.upsert now s title body (Some note_id) import_hash = (s, note_id)).
  { unfold NoteStore.upsert.
    rewrite update_no_match by (apply find_none_no_row; exact Hget).
    now destruct s. }
  rewrite E. auto.
Qed.

Lemma upsert_unknown_id_noop_witness :
  NoteStore.get demo_store 7 = None
  /\ NoteStore.upsert "2025-03-05T10:00:00+00:00" demo_store "t" "b" (Some 7) None
     = (demo_store, 7)
  /\ NoteStore.count
       (NoteStore.upsert "2025-03-05T10:00:00+00:00" demo_store "t" "b" (Some 7) None).1
     = NoteStore.count demo_store
  /\ forall i,
       NoteStore.get
         (NoteStore.upsert "2025-03-05T10:00:00+00:00" demo_store "t" "b" (Some 7) None).1 i
       = NoteStore.get demo_store i.
Proof.
  split; [reflexivity|].
  apply (upsert_unknown_id_noop "2025-03-05T10:00:00+00:00" demo_store "t" "b" 7 None).
  reflexivity.
Defined.

(** What an insert does to the table. *)
Lemma upsert_insert_facts (now : string) (s : NoteStore.t)
    (title body : string) (import_hash : option string) :
  let s' := (NoteStore.upsert now s title body None import_hash).1 in
  let new_id := (NoteStore.upsert now s title body None import_hash).2 in
  NoteStore.count s' = NoteStore.count s + 1
  /\ (forall r, In r (NoteStore.rows s) -> NoteStore.id r <> new_id)
  /\ NoteStore.get s new_id = None
  /\ NoteStore.get s' new_id = Some (new_id, title, body, now, now)
  /\ (exists r, NoteStore.rows s' = (NoteStore.rows s ++ [r])%list
        /\ NoteStore.id r = new_id
        /\ NoteStore.created_at r = NoteStore.updated_at r)
  /\ (forall i, i <> new_id -> NoteStore.get s' i = NoteStore.get s i).
Proof.
  simpl.
  assert (F : forall r, In r (NoteStore.rows s) -> NoteStore.id r <> NoteStore.next_rowid s)
    by (intros r; apply next_rowid_fresh).
  repeat split.
  - unfold NoteStore.count. simpl. rewrite length_app. simpl. lia.
  - exact F.
  - apply get_fresh_none, F.
  - unfold NoteStore.get. simpl. now rewrite find_app_fresh.
  - eexists. repeat split.
  - intros i Hi. unfold NoteStore.get. simpl.
    rewrite find_app_old; [reflexivity|]. simpl. congruence.
Qed.

(** C8. An insert (no id given) adds exactly one note, returns an id that no
    earlier note holds, and stamps the new note with [created_at] equal to
    [updated_at]; the notes already present are kept. *)
Theorem upsert_insert_new_note (now : string) (s : NoteStore.t)
    (title body : string) (import_hash : option string) :
  let s' := (NoteStore.upsert now s title body None import_hash).1 in
  let new_id := (NoteStore.upsert now s title body None import_hash).2 in
  NoteStore.count s' = NoteStore.count s + 1
  /\ (forall r, In r (NoteStore.rows s) -> NoteStore.id r <> new_id)
  /\ NoteStore.get s new_id = None
  /\ NoteStore.get s' new_id = Some (new_id, title, body, now, now)
  /\ (exists r, NoteStore.rows s' = (NoteStore.rows s ++ [r])%list
        /\ NoteStore.id r = new_id
        /\ NoteStore.created_at r = NoteStore.updated_at r)
  /\ (forall i, i <> new_id -> NoteStore.get s' i = NoteStore.get s i).
Proof. apply upsert_insert_facts. Qed.

(** ** Import *)

Section ImportFacts.
Import NoteStore.

Lemma filter_app_one {A : Type} (f : A -> bool) (l : list A) (x : A) :
  List.filter f (l ++ [x]) = (List.filter f l ++ if f x then [x] else [])%list.
Proof. rewrite List.filter_app. simpl. now destruct (f x). Qed.

Lemma note_exists_by_hash_true (s : t) (h : string) :
  note_exists_by_hash s h = true <-> exists r, In r (rows s) /\ import_hash r = Some h.
Proof.
  unfold note_exists_by_hash. split.
  - intros H. destruct (List.filter (has_hash h) (rows s)) as [|r l] eqn:E.
    + simpl in H. discriminate.
    + assert (Hin : In r (List.filter (has_hash h) (rows s))) by (rewrite E; now left).
      apply filter_In in Hin as [Hin Hh]. exists r. split; [exact Hin|].
      unfold has_hash in Hh. destruct (import_hash r) as [h'|]; [|discriminate].
      apply String.eqb_eq in Hh. now subst.
  - intros (r & Hin & Hh).
    assert (Hf : In r (List.filter (has_hash h) (rows s))).
    { apply filter_In. split; [exact Hin|]. unfold has_hash. rewrite Hh.
      apply String.eqb_refl. }
    destruct (List.filter (has_hash h) (rows s)); [destruct Hf|].
    simpl. apply Z.ltb_lt. lia.
Qed.

Lemma note_exists_by_hash_false (s : t) (h : string) :
  note_exists_by_hash s h = false <-> forall r, In r (rows s) -> import_hash r <> Some h.
Proof.
  split.
  - intros H r Hin Hh.
    assert (T : note_exists_by_hash s h = true)
      by (apply note_exists_by_hash_true; eauto).
    congruence.
  - intros H. destruct (note_exists_by_hash s h) eqn:E; [|reflexivity].
    apply note_exists_by_hash_true in E as (r & Hin & Hh). now destruct (H r Hin).
Qed.

Lemma import_new (now : string) (s : t) (path : Path) (content : string) :
  read_text path = Some content ->
  note_exists_by_hash s (_compute_hash (import_title path) content) = false ->
  import_text_file now s path
  = Some ((upsert now s (import_title path) content None
             (Some (_compute_hash (import_title path) content))).1,
          (1, 0, Some (next_rowid s))).
Proof.
  intros Hr Hn. unfold import_text_file. rewrite Hr. cbv zeta. rewrite Hn.
  reflexivity.
Qed.

Lemma import_duplicate (now : string) (s : t) (path : Path) (content : string) :
  read_text path = Some content ->
  note_exists_by_hash s (_compute_hash (import_title path) content) = true ->
  import_text_file now s path = Some (s, (0, 1, None)).
Proof.
  intros Hr Hn. unfold import_text_file. rewrite Hr. cbv zeta. now rewrite Hn.
Qed.

Lemma upsert_insert_has_hash (now : string) (s : t) (title body h : string) :
  note_exists_by_hash (upsert now s title body None (Some h)).1 h = true.
Proof.
  apply note_exists_by_hash_true. simpl. eexists. split.
  - apply in_or_app. right. now left.
  - reflexivity.
Qed.

End ImportFacts.

(** A first import of a file followed by a second one. *)
Lemma import_twice_facts (now1 now2 : string) (s : NoteStore.t)
    (path : NoteStore.Path) (content : string) :
  NoteStore.read_text path = Some content ->
  NoteStore.note_exists_by_hash s
    (NoteStore._compute_hash (NoteStore.import_title path) content) = false ->
  exists (s1 : NoteStore.t) (new_id : Z),
    NoteStore.import_text_file now1 s path = Some (s1, (1, 0, Some new_id))
    /\ NoteStore.get s new_id = None
    /\ NoteStore.get s1 new_id
       = Some (new_id, NoteStore.import_title path, content, now1, now1)
    /\ NoteStore.import_text_file now2 s1 path = Some (s1, (0, 1, None))
    /\ NoteStore.count s1 = NoteStore.count s + 1.
Proof.
  intros Hr Hn.
  set (title := NoteStore.import_title path) in *.
  set (h := NoteStore._compute_hash title content) in *.
  pose proof (upsert_insert_facts now1 s title content (Some h)) as U.
  cbv zeta in U. destruct U as (Hc & _ & Hg & Hg' & _).
  eexists _, _. split; [apply (import_new now1 s path content Hr Hn)|].
  repeat split.
  - exact Hg.
  - exact Hg'.
  - apply (import_duplicate now2 _ path content Hr). apply upsert_insert_has_hash.
  - exact Hc.
Qed.

(** C5. A readable file whose digest the store does not hold yet: the first
    import inserts it and answers (1, 0, new id), the second finds the digest
    and answers (0, 1, null) leaving the store as it is, so the count grows
    by exactly one over the two calls. *)
Theorem import_same_file_twice (now1 now2 : string) (s : NoteStore.t)
    (path : NoteStore.Path) (content : string) :
  NoteStore.read_text path = Some content ->
  NoteStore.note_exists_by_hash s
    (NoteStore._compute_hash (NoteStore.import_title path) content) = false ->
  exists (s1 : NoteStore.t) (new_id : Z),
    NoteStore.import_text_file now1 s path = Some (s1, (1, 0, Some new_id))
    /\ NoteStore.get s new_id = None
    /\ NoteStore.get s1 new_id
       = Some (new_id, NoteStore.import_title path, content, now1, now1)
    /\ NoteStore.import_text_file now2 s1 path = Some (s1, (0, 1, None))
    /\ NoteStore.count s1 = NoteStore.count s + 1.
Proof. apply import_twice_facts. Qed.

Lemma import_same_file_twice_witness :
  NoteStore.read_text demo_file = Some "milk, eggs"
  /\ NoteStore.note_exists_by_hash demo_store
       (NoteStore._compute_hash (NoteStore.import_title demo_file) "milk, eggs") = false
  /\ exists (s1 : NoteStore.t) (new_id : Z),
       NoteStore.import_text_file "2025-03-02T10:00:00+00:00" demo_store demo_file
       = Some (s1, (1, 0, Some new_id))
       /\ NoteStore.get demo_store new_id = None
       /\ NoteStore.get s1 new_id
          = Some (new_id, NoteStore.import_title demo_file, "milk, eggs",
                  "2025-03-02T10:00:00+00:00", "2025-03-02T10:00:00+00:00")
       /\ NoteStore.import_text_file "2025-03-02T10:00:05+00:00" s1 demo_file
          = Some (s1, (0, 1, None))
       /\ NoteStore.count s1 = NoteStore.count demo_store + 1.
Proof.
  split; [reflexivity|]. split; [vm_compute; reflexivity|].
  apply (import_same_file_twice "2025-03-02T10:00:00+00:00" "2025-03-02T10:00:05+00:00"
           demo_store demo_file "milk, eggs"); [reflexivity | vm_compute; reflexivity].
Defined.

(** ** The dedup digest *)

Section HashFacts.
Import NoteStore.

Lemma ord_bounded (c : ascii) : 0 <= Z.of_N (Text.ord c) < 256.
Proof. unfold Text.ord. pose proof (N_ascii_bounded c). lia. Qed.

Lemma ord_inj (c d : ascii) : Z.of_N (Text.ord c) = Z.of_N (Text.ord d) -> c = d.
Proof.
  unfold Text.ord. intros H. apply N2Z.inj in H.
  rewrite <- (ascii_N_embedding c), <- (ascii_N_embedding d). now rewrite H.
Qed.

Lemma utf8_chars_inj (l1 l2 : list ascii) :
  flat_map Text.utf8_char l1 = flat_map Text.utf8_char l2 -> l1 = l2.
Proof.
  revert l2. induction l1 as [|c l1 IH]; intros [|d l2]; simpl; try reflexivity.
  - unfold Text.utf8_char. destruct (_ <? 128); discriminate.
  - unfold Text.utf8_char. destruct (_ <? 128); discriminate.
  - pose proof (ord_bounded c) as Bc. pose proof (ord_bounded d) as Bd.
    unfold Text.utf8_char.
    destruct (Z.ltb_spec (Z.of_N (Text.ord c)) 128) as [Hc|Hc];
      destruct (Z.ltb_spec (Z.of_N (Text.ord d)) 128) as [Hd|Hd];
      simpl; intros E.
    + injection E as E1 E2. f_equal; [now apply ord_inj | now apply IH].
    + exfalso. injection E as E1 _. Z.div_mod_to_equations. lia.
    + exfalso. injection E as E1 _. Z.div_mod_to_equations. lia.
    + injection E as E1 E2 E3. f_equal; [|now apply IH].
      apply ord_inj. Z.div_mod_to_equations. lia.
Qed.

Lemma chars_inj (s1 s2 : string) : Text.chars s1 = Text.chars s2 -> s1 = s2.
Proof.
  unfold Text.chars. intros H.
  rewrite <- (string_of_list_ascii_of_string s1), <- (string_of_list_ascii_of_string s2).
  now rewrite H.
Qed.

Lemma utf8_encode_inj (s1 s2 : string) :
  Text.utf8_encode s1 = Text.utf8_encode s2 -> s1 = s2.
Proof. intros H. now apply chars_inj, utf8_chars_inj. Qed.

Lemma hash_content_inj (t1 b1 t2 b2 : string) :
  bar_free t1 = true -> bar_free t2 = true ->
  hash_content t1 b1 = hash_content t2 b2 -> t1 = t2 /\ b1 = b2.
Proof.
  unfold hash_content. revert t2.
  induction t1 as [|c t1 IH]; intros [|d t2]; simpl; intros F1 F2 E.
  - now injection E.
  - injection E as E _. subst d. discriminate.
  - injection E as E _. subst c. discriminate.
  - injection E as Ec E. subst d.
    apply andb_prop in F1 as [_ F1]. apply andb_prop in F2 as [_ F2].
    destruct (IH t2 F1 F2 E) as [-> ->]. auto.
Qed.

End HashFacts.

(** C2, as the code has it. The digest is SHA-256 of the UTF-8 bytes of
    [title ++ "||" ++ body]. Two pairs whose titles hold no [|] and that differ
    are hashed from different byte strings, so their digests differ unless
    SHA-256 itself collides; nothing of the kind holds once a title may hold
    [|] (see the collision below). *)
Theorem compute_hash_distinct_messages (t1 b1 t2 b2 : string) :
  bar_free t1 = true -> bar_free t2 = true -> (t1, b1) <> (t2, b2) ->
  NoteStore._compute_hash t1 b1
  = Sha256.hexdigest (Text.utf8_encode (NoteStore.hash_content t1 b1))
  /\ NoteStore._compute_hash t2 b2
     = Sha256.hexdigest (Text.utf8_encode (NoteStore.hash_content t2 b2))
  /\ Text.utf8_encode (NoteStore.hash_content t1 b1)
     <> Text.utf8_encode (NoteStore.hash_content t2 b2).
Proof.
  intros F1 F2 Hne. repeat split.
  intros E. apply utf8_encode_inj in E.
  destruct (hash_content_inj _ _ _ _ F1 F2 E) as [-> ->]. now apply Hne.
Qed.

Lemma compute_hash_distinct_messages_witness :
  bar_free "todo" = true /\ bar_free "todo" = true
  /\ ("todo", "buy milk") <> ("todo", "buy eggs")
  /\ Text.utf8_encode (NoteStore.hash_content "todo" "buy milk")
     <> Text.utf8_encode (NoteStore.hash_content "todo" "buy eggs").
Proof.
  assert (Hne : ("todo", "buy milk") <> ("todo", "buy eggs")) by (intros E; discriminate E).
  repeat split; [exact Hne|].
  apply (compute_hash_distinct_messages "todo" "buy milk" "todo" "buy eggs");
    [reflexivity | reflexivity | exact Hne].
Defined.

(** C2 as stated fails: two different (title, body) pairs with the same
    digest, whatever the hash function, because both concatenate to
    [a||b||c]. *)
Lemma compute_hash_collision :
  ("a||b", "c") <> ("a", "b||c")
  /\ NoteStore._compute_hash "a||b" "c" = NoteStore._compute_hash "a" "b||c".
Proof.
  split; [intros E; discriminate E|].
  unfold NoteStore._compute_hash.
  replace (NoteStore.hash_content "a||b" "c") with (NoteStore.hash_content "a" "b||c")
    by reflexivity.
  reflexivity.
Qed.

(** ** Ordering and limits *)

Section OrderByFacts.
Context {A : Type} (R : relation A) `{!RelDecision R}.

Lemma insert_row_Permutation (x : A) (l : list A) :
  Permutation (Sql.insert_row R x l) (x :: l).
Proof.
  induction l as [|y l IH]; simpl; [reflexivity|].
  destruct (decide (R x y)); [reflexivity|].
  rewrite IH. apply perm_swap.
Qed.

Lemma order_by_Permutation (l : list A) : Permutation (Sql.order_by R l) l.
Proof.
  induction l as [|x l IH]; simpl; [reflexivity|].
  rewrite insert_row_Permutation. now constructor.
Qed.

Lemma order_by_length (l : list A) : length (Sql.order_by R l) = length l.
Proof. apply Permutation_length, order_by_Permutation. Qed.

Context `{!Transitive R, !Total R}.

Lemma insert_row_sorted (x : A) (l : list A) :
  StronglySorted R l -> StronglySorted R (Sql.insert_row R x l).
Proof.
  induction 1 as [|y l Hs IH Hy]; simpl.
  - repeat constructor.
  - destruct (decide (R x y)) as [Hxy|Hxy].
    + constructor; [now constructor|].
      constructor; [exact Hxy|].
      eapply Forall_impl; [exact Hy|]. intros z Hz. now transitivity y.
    + constructor; [exact IH|].
      assert (Hyx : R y x) by (destruct (total R x y); tauto).
      rewrite List.Forall_forall in *. intros z Hz.
      apply (Permutation_in _ (insert_row_Permutation x l)) in Hz.
      destruct Hz as [<-|Hz]; auto.
Qed.

Lemma order_by_sorted (l : list A) : StronglySorted R (Sql.order_by R l).
Proof.
  induction l as [|x l IH]; simpl; [constructor|]. now apply insert_row_sorted.
Qed.

(** A sorted list cut in two: the front is sorted and dominates the back. *)
Lemma sorted_cut (k : nat) (l : list A) :
  StronglySorted R l ->
  StronglySorted R (firstn k l)
  /\ forall x y, In x (firstn k l) -> In y (skipn k l) -> R x y.
Proof.
  intros H. rewrite <- (firstn_skipn k l) in H.
  apply StronglySorted_app in H as (Hd & Hf & _).
  split; [exact Hf|]. intros x y Hx Hy.
  apply Hd; now apply list_elem_of_In.
Qed.

End OrderByFacts.

#[global] Instance newer_first_trans : Transitive NoteStore.newer_first.
Proof.
  intros x y z Hxy Hyz. unfold NoteStore.newer_first in *.
  now transitivity (NoteStore.updated_at y).
Qed.

#[global] Instance newer_first_total : Total NoteStore.newer_first.
Proof. intros x y. unfold NoteStore.newer_first. apply (total String.le). Qed.

Lemma limit_rows_nonneg {A : Type} (limit : Z) (l : list A) :
  0 <= limit -> Sql.limit_rows limit l = firstn (Z.to_nat limit) l.
Proof. intros H. unfold Sql.limit_rows. destruct (Z.ltb_spec limit 0); [lia|reflexivity]. Qed.

(** What a recency-ordered, limited selection from [l] looks like. *)
Lemma newest_rows_shape (limit : Z) (l : list NoteStore.Note) :
  0 <= limit ->
  let sel := Sql.limit_rows limit (NoteStore.order_by_updated_desc l) in
  let rest := skipn (Z.to_nat limit) (NoteStore.order_by_updated_desc l) in
  Permutation (sel ++ rest) l
  /\ StronglySorted NoteStore.newer_first sel
  /\ (forall r r', In r sel -> In r' rest -> NoteStore.newer_first r r')
  /\ length sel = Nat.min (Z.to_nat limit) (length l)
  /\ Z.of_nat (length sel) <= limit.
Proof.
  intros Hl. cbv zeta. rewrite limit_rows_nonneg by exact Hl.
  unfold NoteStore.order_by_updated_desc.
  pose proof (order_by_sorted NoteStore.newer_first l) as Hs.
  destruct (sorted_cut NoteStore.newer_first (Z.to_nat limit) _ Hs) as [Hf Hd].
  assert (Hlen : length (firstn (Z.to_nat limit) (Sql.order_by NoteStore.newer_first l))
                 = Nat.min (Z.to_nat limit) (length l)).
  { rewrite length_firstn, order_by_length. reflexivity. }
  repeat split.
  - rewrite firstn_skipn. apply order_by_Permutation.
  - exact Hf.
  - exact Hd.
  - exact Hlen.
  - rewrite Hlen. lia.
Qed.

(** C3, as the code has it. For a blank query and a limit that is not
    negative, [search] returns the first [min limit count] rows of the table
    in [updated_at] order, newest first (rows with equal stamps are not
    separated): the selected rows are sorted, every row left out is no newer
    than any selected one, and at most [limit] rows come back. *)
Theorem search_blank_newest_first (s : NoteStore.t) (text : string) (limit : Z) :
  Text.is_empty (Text.strip text) = true ->
  0 <= limit ->
  exists sel rest : list NoteStore.Note,
    NoteStore.search s text limit = map (fun r => (NoteStore.id r, NoteStore.snip r)) sel
    /\ Permutation (sel ++ rest) (NoteStore.rows s)
    /\ StronglySorted NoteStore.newer_first sel
    /\ (forall r r', In r sel -> In r' rest -> NoteStore.newer_first r r')
    /\ length sel = Nat.min (Z.to_nat limit) (length (NoteStore.rows s))
    /\ Z.of_nat (length (NoteStore.search s text limit)) <= limit.
Proof.
  intros Hb Hl.
  pose proof (newest_rows_shape limit (NoteStore.rows s) Hl) as H. cbv zeta in H.
  destruct H as (Hp & Hs & Hd & Hn & Hle).
  exists (Sql.limit_rows limit (NoteStore.order_by_updated_desc (NoteStore.rows s))),
         (skipn (Z.to_nat limit) (NoteStore.order_by_updated_desc (NoteStore.rows s))).
  unfold NoteStore.search. rewrite Hb. rewrite length_map.
  repeat split; assumption.
Qed.

Lemma search_blank_newest_first_witness :
  Text.is_empty (Text.strip "  ") = true
  /\ 0 <= 1
  /\ Z.of_nat (length (NoteStore.search demo_store "  " 1)) <= 1.
Proof.
  split; [reflexivity|]. split; [lia|].
  destruct (search_blank_newest_first demo_store "  " 1) as (sel & rest & _ & _ & _ & _ & _ & H);
    [reflexivity | lia | exact H].
Defined.

(** C3 as stated fails for a negative limit: SQLite reads it as "no bound",
    so the one note of the store comes back although the limit is -1. *)
Lemma search_blank_negative_limit :
  NoteStore.search demo_store "" (-1) = [(1, "abc" ++ Sql.char10 ++ "Alpha")]
  /\ ~ (Z.of_nat (length (NoteStore.search demo_store "" (-1))) <= -1).
Proof. split; [reflexivity|]. vm_compute. intros H. apply H. reflexivity. Qed.

(** ** Search by text *)

Section LikeFacts.














Lemma chars_append (s1 s2 : string) :
  Text.chars (s1 ++ s2) = (Text.chars s1 ++ Text.chars s2)%list.
Proof. induction s1 as [|c s1 IH]; simpl; [reflexivity|]. now rewrite <- IH. Qed.

Lemma chars_text (l : list ascii) : Text.chars (Text.text l) = l.
Proof. apply list_ascii_of_string_of_list_ascii. Qed.












End LikeFacts.




(** ** Export *)

Section DecimalFacts.

Lemma pretty_N_char_digit (d : N) : (d < 10)%N -> is_digit (pretty_N_char d) = true.
Proof.
  intros H. unfold pretty_N_char.
  destruct d as [|p]; [reflexivity|].
  do 4 (destruct p as [p|p|]; try reflexivity; try lia).
Qed.

Lemma text_app (l1 l2 : list ascii) :
  Text.text (l1 ++ l2) = Text.text l1 ++ Text.text l2.
Proof.
  induction l1 as [|c l1 IH]; [reflexivity|].
  change (String c (Text.text (l1 ++ l2)) = String c (Text.text l1 ++ Text.text l2)).
  now rewrite IH.
Qed.

Lemma append_assoc (s1 s2 s3 : string) : (s1 ++ s2) ++ s3 = s1 ++ (s2 ++ s3).
Proof.
  induction s1 as [|c s1 IH]; [reflexivity|].
  change (String c ((s1 ++ s2) ++ s3) = String c (s1 ++ (s2 ++ s3))).
  now rewrite IH.
Qed.

Lemma pretty_N_go_digits (x : N) (s : string) :
  exists ds : list ascii,
    pretty_N_go x s = Text.text ds ++ s
    /\ forallb is_digit ds = true
    /\ ((0 < x)%N -> ds <> []).
Proof.
  revert s. induction (N.lt_wf_0 x) as [x _ IH]. intros s.
  destruct (decide (x = 0%N)) as [->|Hx].
  - exists []. rewrite pretty_N_go_0. repeat split. lia.
  - rewrite pretty_N_go_step by lia.
    assert (Hlt : (x `div` 10 < x)%N) by (apply N.div_lt; lia).
    destruct (IH _ Hlt (String (pretty_N_char (x `mod` 10)) s)) as (ds & E & Hd & _).
    exists (ds ++ [pretty_N_char (x `mod` 10)])%list. rewrite E. repeat split.
    + rewrite text_app. now rewrite append_assoc.
    + rewrite forallb_app, Hd. simpl.
      rewrite pretty_N_char_digit; [reflexivity|]. apply N.mod_lt. lia.
    + intros _ Hnil. now destruct ds.
Qed.

End DecimalFacts.

Section FileNameFacts.

Lemma pretty_Z_shape (z : Z) :
  exists ds : list ascii,
    ds <> [] /\ forallb is_digit ds = true
    /\ pretty z = (if z <? 0 then "-" else "") ++ Text.text ds.
Proof.
  destruct z as [|p|p].
  - exists ["0"%char]. repeat split. discriminate.
  - destruct (pretty_N_go_digits (N.pos p) "") as (ds & E & Hd & Hn).
    exists ds. repeat split; [apply Hn; lia | exact Hd |].
    change (pretty (Z.pos p)) with (pretty_N_go (N.pos p) "").
    rewrite E. clear. induction (Text.text ds) as [|c s IH]; [reflexivity|].
    change (String c (s ++ "") = String c s). now rewrite IH.
  - destruct (pretty_N_go_digits (N.pos p) "") as (ds & E & Hd & Hn).
    exists ds. repeat split; [apply Hn; lia | exact Hd |].
    change (pretty (Z.neg p)) with ("-" ++ pretty_N_go (N.pos p) "").
    rewrite E. f_equal. clear. induction (Text.text ds) as [|c s IH]; [reflexivity|].
    change (String c (s ++ "") = String c s). now rewrite IH.
Qed.

Lemma digits_then_dash (ds1 ds2 r1 r2 : list ascii) :
  forallb is_digit ds1 = true -> forallb is_digit ds2 = true ->
  (ds1 ++ "-"%char :: r1 = ds2 ++ "-"%char :: r2)%list -> ds1 = ds2.
Proof.
  revert ds2. induction ds1 as [|c ds1 IH]; intros [|d ds2]; simpl; intros H1 H2 E.
  - reflexivity.
  - injection E as E _. subst d. discriminate.
  - injection E as E _. subst c. discriminate.
  - injection E as Ec E. subst d. f_equal.
    apply andb_prop in H1 as [_ H1]. apply andb_prop in H2 as [_ H2].
    now apply IH.
Qed.

Lemma chars_file_name (nid : Z) (title : string) :
  Text.chars (NoteStore.file_name nid title)
  = (Text.chars "note-" ++ Text.chars (pretty nid)
     ++ "-"%char :: Text.chars (NoteStore.safe_name nid title ++ ".md"))%list.
Proof.
  unfold NoteStore.file_name. rewrite !chars_append. reflexivity.
Qed.

(** Two notes never share an export file name. *)
Lemma file_name_inj (i j : Z) (t1 t2 : string) :
  NoteStore.file_name i t1 = NoteStore.file_name j t2 -> i = j.
Proof.
  intros E. apply (f_equal Text.chars) in E. rewrite !chars_file_name in E.
  apply app_inv_head in E.
  destruct (pretty_Z_shape i) as (d1 & N1 & D1 & P1).
  destruct (pretty_Z_shape j) as (d2 & N2 & D2 & P2).
  apply (inj pretty). rewrite P1, P2.
  rewrite P1, P2, !chars_append, !chars_text in E.
  destruct (i <? 0), (j <? 0); simpl in E.
  - injection E as E. now rewrite (digits_then_dash _ _ _ _ D1 D2 E).
  - destruct d2 as [|c d2]; [contradiction|]. simpl in *.
    injection E as E _. subst c. discriminate.
  - destruct d1 as [|c d1]; [contradiction|]. simpl in *.
    injection E as E _. subst c. discriminate.
  - now rewrite (digits_then_dash _ _ _ _ D1 D2 E).
Qed.

Lemma lstrip_keeps (P : ascii -> bool) (l : list ascii) :
  forallb P l = true -> forallb P (Text.lstrip_chars l) = true.
Proof.
  induction l as [|c l IH]; simpl; [reflexivity|].
  intros H. destruct (Text.isspace c); [|exact H].
  apply andb_prop in H as [_ H]. now apply IH.
Qed.

Lemma forallb_rev (P : ascii -> bool) (l : list ascii) :
  forallb P (rev l) = forallb P l.
Proof.
  induction l as [|c l IH]; simpl; [reflexivity|].
  rewrite forallb_app, IH. simpl. rewrite andb_true_r. apply andb_comm.
Qed.

Lemma strip_keeps (P : ascii -> bool) (l : list ascii) :
  forallb P l = true -> forallb P (Text.strip_chars l) = true.
Proof.
  intros H. unfold Text.strip_chars. rewrite forallb_rev.
  apply lstrip_keeps. rewrite forallb_rev. now apply lstrip_keeps.
Qed.

Lemma firstn_keeps (P : ascii -> bool) (n : nat) (l : list ascii) :
  forallb P l = true -> forallb P (firstn n l) = true.
Proof.
  revert l. induction n as [|n IH]; intros [|c l]; simpl; try reflexivity.
  intros H. apply andb_prop in H as [Hc H]. now rewrite Hc, IH.
Qed.

Lemma filter_keeps (P : ascii -> bool) (l : list ascii) :
  forallb P (List.filter P l) = true.
Proof.
  induction l as [|c l IH]; simpl; [reflexivity|].
  destruct (P c) eqn:E; [|exact IH]. simpl. now rewrite E.
Qed.

Lemma replace_spaces_safe (l : list ascii) :
  forallb NoteStore.slug_char l = true ->
  forallb safe_char (Text.replace_spaces l) = true.
Proof.
  induction l as [|c l IH]; simpl; [reflexivity|].
  intros H. apply andb_prop in H as [Hc H]. rewrite (IH H), andb_true_r.
  destruct (Ascii.eqb c " ") eqn:E; [reflexivity|].
  unfold NoteStore.slug_char in Hc. unfold safe_char. rewrite E in Hc.
  now rewrite orb_false_r in Hc.
Qed.

Lemma digit_slug_char (c : ascii) : is_digit c = true -> NoteStore.slug_char c = true.
Proof. destruct c as [[] [] [] [] [] [] [] []]; intros H; try reflexivity; discriminate H. Qed.

Lemma digits_slug (l : list ascii) :
  forallb is_digit l = true -> forallb NoteStore.slug_char l = true.
Proof.
  induction l as [|c l IH]; simpl; [reflexivity|].
  intros H. apply andb_prop in H as [Hc H]. now rewrite (digit_slug_char c Hc), IH.
Qed.

Lemma fallback_slug (nid : Z) :
  forallb NoteStore.slug_char (Text.chars ("note-" ++ pretty nid)) = true.
Proof.
  destruct (pretty_Z_shape nid) as (ds & _ & D & P).
  rewrite P, !chars_append, chars_text, !forallb_app, (digits_slug _ D).
  now destruct (nid <? 0).
Qed.

(** The slug is made of letters, digits, [-] and [_] only. *)
Lemma safe_name_safe (nid : Z) (title : string) :
  forallb safe_char (Text.chars (NoteStore.safe_name nid title)) = true.
Proof.
  unfold NoteStore.safe_name. rewrite chars_text. apply replace_spaces_safe.
  assert (H : forallb NoteStore.slug_char
                (firstn 50 (Text.strip_chars
                   (List.filter NoteStore.slug_char (Text.chars title)))) = true)
    by (apply firstn_keeps, strip_keeps, filter_keeps).
  destruct (firstn 50 _); [apply fallback_slug | exact H].
Qed.

End FileNameFacts.

Lemma inter_size (s : NoteStore.t) (ids : list Z) :
  NoDup ids ->
  length (List.filter (fun i => bool_decide (i ∈ existing_ids s)) ids)
  = size (list_to_set ids ∩ existing_ids s : gset Z).
Proof.
  induction 1 as [|i ids Hi Hnd IH].
  - rewrite list_to_set_nil, intersection_empty_l_L, size_empty. reflexivity.
  - rewrite list_to_set_cons. cbn [List.filter].
    destruct (decide (i ∈ existing_ids s)) as [Hin|Hin].
    + rewrite bool_decide_eq_true_2 by exact Hin. cbn [length]. rewrite IH.
      assert (E : ({[i]} ∪ list_to_set ids) ∩ existing_ids s
                  = ({[i]} ∪ (list_to_set ids ∩ existing_ids s) : gset Z)) by set_solver.
      rewrite E.
      rewrite (size_union (C:=gset Z) {[i]} (list_to_set ids ∩ existing_ids s))
        by set_solver.
      now rewrite size_singleton.
    + rewrite bool_decide_eq_false_2 by exact Hin. rewrite IH. f_equal. set_solver.
Qed.

Section ExportFacts.
Import NoteStore.

Lemma export_loop (rs : list Row) (acc : list (string * string) * Z) :
  fold_left export_row rs acc
  = ((acc.1 ++ map file_of rs)%list, acc.2 + Z.of_nat (length rs)).
Proof.
  revert acc. induction rs as [|r rs IH]; intros [files n]; simpl.
  - now rewrite app_nil_r, Z.add_0_r.
  - rewrite IH. destruct r as [[[[nid title] body] created] updated]. simpl.
    rewrite <- app_assoc. simpl. f_equal. lia.
Qed.

Lemma export_ids (s : t) (ids : list Z) :
  ids <> [] ->
  export_separate_files s (Some ids)
  = (map file_of (found_rows (map (get s) ids)), Z.of_nat (length (found_rows (map (get s) ids)))).
Proof.
  intros Hne. unfold export_separate_files.
  destruct ids as [|i ids]; [contradiction|].
  rewrite export_loop. simpl fst. simpl snd. now rewrite Z.add_0_l.
Qed.

Lemma get_some_id (s : t) (i : Z) (r : Row) :
  get s i = Some r ->
  exists title body created updated, r = (i, title, body, created, updated).
Proof.
  unfold get. destruct (List.find _ _) as [n|] eqn:E; [|discriminate].
  intros [= <-]. apply find_some in E as [_ E]. apply Z.eqb_eq in E.
  unfold row_of. rewrite E. eauto.
Qed.

Lemma get_existing (s : t) (i : Z) : is_Some (get s i) <-> i ∈ existing_ids s.
Proof.
  unfold existing_ids. rewrite elem_of_list_to_set, list_elem_of_In, in_map_iff. split.
  - intros [r Hr]. unfold get in Hr.
    destruct (List.find _ _) as [n|] eqn:E; [|discriminate].
    apply find_some in E as [Hin E]. apply Z.eqb_eq in E. eauto.
  - intros (n & Hn & Hin). destruct (get s i) eqn:E; [eauto|].
    exfalso. now apply (find_none_no_row s i E n Hin).
Qed.

Lemma resolved_length (s : t) (ids : list Z) :
  length (found_rows (map (get s) ids))
  = length (List.filter (fun i => bool_decide (i ∈ existing_ids s)) ids).
Proof.
  induction ids as [|i ids IH]; simpl; [reflexivity|].
  destruct (get s i) eqn:E.
  - rewrite bool_decide_eq_true_2 by (apply get_existing; eauto). simpl. now rewrite IH.
  - rewrite bool_decide_eq_false_2; [exact IH|].
    rewrite <- get_existing, E. now intros [? ?].
Qed.

Lemma resolved_in (s : t) (ids : list Z) (r : Row) :
  In r (found_rows (map (get s) ids)) -> exists i, In i ids /\ get s i = Some r.
Proof.
  induction ids as [|i ids IH]; simpl; [tauto|].
  destruct (get s i) eqn:E.
  - intros [<-|H]; [eauto|]. destruct (IH H) as (j & ? & ?). eauto.
  - intros H. destruct (IH H) as (j & ? & ?). eauto.
Qed.

Lemma resolved_names_NoDup (s : t) (ids : list Z) :
  NoDup ids -> NoDup (map fst (map file_of (found_rows (map (get s) ids)))).
Proof.
  induction 1 as [|i ids Hi Hnd IH]; simpl; [constructor|].
  destruct (get s i) as [r|] eqn:E; [|exact IH].
  simpl. constructor; [|exact IH].
  rewrite list_elem_of_In, map_map, in_map_iff. intros (r' & En & Hin).
  apply resolved_in in Hin as (j & Hj & Gj).
  apply get_some_id in E as (t1 & b1 & c1 & u1 & ->).
  apply get_some_id in Gj as (t2 & b2 & c2 & u2 & ->).
  simpl in En. apply file_name_inj in En. subst j.
  apply Hi. now apply list_elem_of_In.
Qed.

End ExportFacts.

(** C1, as the code has it. For a list of ids that is not empty, export
    writes one file per entry of the list that names a note, in list order,
    and returns their number; the file of note [nid] is named
    [note-<nid>-<slug>.md], the slug being made of letters, digits, [-] and
    [_] drawn from the title (or [note-<nid>]).  Entries that name no note
    are skipped.  When no id is listed twice the count is the size of
    [ids ∩ existing ids] and the names are pairwise different. *)
Theorem export_listed_ids (s : NoteStore.t) (ids : list Z) :
  ids <> [] ->
  exists (files : list (string * string)) (n : Z),
    NoteStore.export_separate_files s (Some ids) = (files, n)
    /\ files = map file_of (NoteStore.found_rows (map (NoteStore.get s) ids))
    /\ n = Z.of_nat (length files)
    /\ n = Z.of_nat (length (List.filter (fun i => bool_decide (i ∈ existing_ids s)) ids))
    /\ (forall f, In f files ->
          exists nid title body created updated,
            In nid ids
            /\ NoteStore.get s nid = Some (nid, title, body, created, updated)
            /\ f.1 = "note-" ++ pretty nid ++ "-" ++ NoteStore.safe_name nid title ++ ".md"
            /\ f.2 = NoteStore.file_text title body created updated
            /\ forallb safe_char (Text.chars (NoteStore.safe_name nid title)) = true)
    /\ (NoDup ids ->
          n = Z.of_nat (size (list_to_set ids ∩ existing_ids s : gset Z))
          /\ NoDup (map fst files)).
Proof.
  intros Hne. eexists _, _. split; [apply export_ids, Hne|].
  split; [reflexivity|]. split; [now rewrite length_map|].
  split; [now rewrite resolved_length|]. split.
  - intros f Hf. apply in_map_iff in Hf as (r & <- & Hr).
    apply resolved_in in Hr as (i & Hi & Gi).
    destruct (get_some_id _ _ _ Gi) as (title & body & created & updated & ->).
    exists i, title, body, created, updated.
    repeat split; [exact Hi | exact Gi | apply safe_name_safe].
  - intros Hnd. split.
    + now rewrite resolved_length, inter_size.
    + now apply resolved_names_NoDup.
Qed.

Lemma export_listed_ids_witness :
  [1; 5] <> []
  /\ exists (files : list (string * string)) (n : Z),
       NoteStore.export_separate_files demo_store (Some [1; 5]) = (files, n)
       /\ map fst files = ["note-1-abc.md"] /\ n = 1.
Proof.
  split; [discriminate|].
  destruct (export_listed_ids demo_store [1; 5]) as (files & n & E & Hf & Hn & _);
    [discriminate|].
  exists files, n. split; [exact E|]. subst files n. split; reflexivity.
Defined.

(** C1 as stated fails. An empty list is taken for "no list": every note is
    exported and counted, although [ids ∩ existing ids] is empty.  And an id
    listed twice is written and counted twice. *)
Lemma export_empty_list_exports_all :
  ((NoteStore.export_separate_files demo_store (Some [])).2 = 1
   /\ size (list_to_set [] ∩ existing_ids demo_store : gset Z) = 0%nat)
  /\ ((NoteStore.export_separate_files demo_store (Some [1; 1])).2 = 2
      /\ size (list_to_set [1; 1] ∩ existing_ids demo_store : gset Z) = 1%nat).
Proof. repeat split; vm_compute; reflexivity. Qed.

(** ** The session *)

Section SessionFacts.
Import NotryApp.

(** The guard of [action_mode_back] in terms of the editor text. *)
Lemma unsaved_changes_spec (a : t) (ed : TextArea) :
  _HAS_TEXTAREA a = true -> editor a = Some ed ->
  unsaved_changes a = negb (String.eqb (text ed) (original_body a)).
Proof. intros H E. unfold unsaved_changes, _editor. now rewrite H, E. Qed.

Lemma refresh_search_frame (q : string) (a : t) :
  marked (refresh_search q a) = marked a
  /\ store (refresh_search q a) = store a
  /\ mode (refresh_search q a) = mode a
  /\ editor (refresh_search q a) = editor a
  /\ _HAS_TEXTAREA (refresh_search q a) = _HAS_TEXTAREA a
  /\ original_body (refresh_search q a) = original_body a
  /\ editing_note_id (refresh_search q a) = editing_note_id a.
Proof. repeat split. Qed.

Lemma hide_editor_store (a : t) : store (hide_editor a) = store a.
Proof.
  unfold hide_editor. destruct (_HAS_TEXTAREA a); [|reflexivity].
  now destruct (_editor a).
Qed.

Lemma hide_editor_mode (a : t) : mode (hide_editor a) = mode a.
Proof.
  unfold hide_editor. destruct (_HAS_TEXTAREA a); [|reflexivity].
  now destruct (_editor a).
Qed.

End SessionFacts.

(** *** In EDIT mode there is always an editor *)

Section EditInvariant.
Import NotryApp.

Lemma same_edit_refl (a : t) : same_edit a a.
Proof. repeat split. auto. Qed.

Lemma same_edit_trans (a b c : t) : same_edit a b -> same_edit b c -> same_edit a c.
Proof.
  intros (M1 & H1 & E1 & N1) (M2 & H2 & E2 & N2).
  repeat split; try congruence. auto.
Qed.

Lemma same_edit_ok (a b : t) : same_edit a b -> edit_ok a -> edit_ok b.
Proof.
  intros (M & H & E & N) Ha Hb. rewrite M in Hb. destruct (Ha Hb) as (? & ? & ?).
  rewrite H, N. auto.
Qed.

Lemma search_mode_ok (a : t) : mode a = SEARCH -> edit_ok a.
Proof. intros H E. congruence. Qed.

Lemma hide_editor_same (a : t) : same_edit a (hide_editor a).
Proof.
  unfold hide_editor. destruct (_HAS_TEXTAREA a); [|apply same_edit_refl].
  destruct (_editor a); [|apply same_edit_refl].
  repeat split. intros _. simpl. eauto.
Qed.

Lemma refresh_search_same (q : string) (a : t) : same_edit a (refresh_search q a).
Proof. repeat split. auto. Qed.

Lemma enter_edit_ok (nid : Z) (a : t) : edit_ok a -> edit_ok (_enter_edit nid a).
Proof.
  intros Ha. unfold _enter_edit.
  destruct (NoteStore.get (store a) nid) as [[[[[? ?] ?] ?] ?]|]; [|exact Ha].
  destruct (_HAS_TEXTAREA a) eqn:H; simpl; [|exact Ha].
  unfold _editor. rewrite H. destruct (editor a); [|exact Ha].
  intros _. simpl. rewrite H. eauto.
Qed.

Lemma mode_back_ok (a : t) : edit_ok a -> edit_ok (action_mode_back a).
Proof.
  intros Ha. unfold action_mode_back. destruct (mode a) eqn:M.
  - apply search_mode_ok. reflexivity.
  - destruct (unsaved_changes a).
    + intros _. simpl. apply Ha, M.
    + apply search_mode_ok.
      cbn [mode set_focus refresh_search _refresh_results set_results set_matches
             set_preview_display].
      now rewrite hide_editor_mode.
Qed.

Lemma open_or_edit_ok (now : string) (a : t) : edit_ok a -> edit_ok (action_open_or_edit now a).
Proof.
  intros Ha. unfold action_open_or_edit. destruct (mode a) eqn:M; [|exact Ha].
  assert (H : edit_ok
                (if negb (Text.is_empty (Text.strip (search_value a)))
                 then match NoteStore.search (store a) (Text.strip (search_value a)) 1 with
                      | [] =>
                          let '(s, nid) :=
                            NoteStore.upsert now (store a) (Text.strip (search_value a))
                              "" None None in
                          _enter_edit nid
                            (refresh_search (Text.strip (search_value a)) (set_store s a))
                      | (nid, _) :: _ => _enter_edit nid a
                      end
                 else match ResultsList.current_note_id (results a) with
                      | Some nid => _enter_edit nid a
                      | None => a
                      end)).
  { destruct (negb _).
    - destruct (NoteStore.search _ _ _) as [|[? ?] ?]; cbn [NoteStore.upsert];
        apply enter_edit_ok; [|exact Ha].
      apply search_mode_ok. exact M.
    - destruct (ResultsList.current_note_id _); [apply enter_edit_ok|]; exact Ha. }
  destruct (focused a); try exact H.
  destruct (ResultsList.current_note_id (results a)) eqn:E; [now apply enter_edit_ok|].
  exact H.
Qed.

Lemma run_command_ok (c : string) (a : t) : edit_ok a -> edit_ok (_run_command c a).
Proof.
  intros Ha. unfold _run_command. destruct (Text.first_token c); [|exact Ha].
  destruct (_ || _).
  - destruct (mode a) eqn:M; [exact Ha|]. apply search_mode_ok.
    cbn [mode notify set_focus set_preview_display]. now rewrite hide_editor_mode.
  - destruct (String.eqb _ _); intros E; apply Ha, E.
Qed.

Lemma browse_press_same (ab : t * BrowseScreen.screen) (k : BrowseScreen.Key) :
  same_edit ab.1 (BrowseScreen.press ab k).1.
Proof.
  destruct ab as [a b], k; simpl.
  - destruct (BrowseScreen.focused_card b); [|apply same_edit_refl].
    destruct (_ <? _)%nat; repeat split; auto.
  - repeat split; auto.
  - repeat split; auto.
  - destruct (_ <? _)%nat; apply same_edit_refl.
  - destruct (_ <? _)%nat; apply same_edit_refl.
Qed.

Lemma browse_keys_same (keys : list BrowseScreen.Key) (ab : t * BrowseScreen.screen) :
  same_edit ab.1 (fold_left BrowseScreen.press keys ab).1.
Proof.
  revert ab. induction keys as [|k keys IH]; intros ab; simpl; [apply same_edit_refl|].
  eapply same_edit_trans; [apply browse_press_same|apply IH].
Qed.

Lemma step_edit_ok (now : string) (a : t) (i : Intent) : edit_ok a -> edit_ok (step now a i).
Proof.
  intros Ha. destruct i; simpl.
  - now apply mode_back_ok.
  - now apply open_or_edit_ok.
  - unfold action_toggle_mark. destruct (mode a) eqn:M; [|exact Ha].
    apply search_mode_ok.
    destruct (ResultsList.current_note_id _); [|exact M].
    destruct (ResultsList.index _); [|exact M]. simpl.
    now destruct (map fst _).
  - unfold action_clear_all_marks. destruct (mode a) eqn:M; [|exact Ha].
    apply search_mode_ok. now destruct (decide _).
  - unfold action_mark_all. destruct (mode a) eqn:M; [|exact Ha].
    apply search_mode_ok. now destruct (matches a).
  - unfold action_cursor_down. destruct (mode a) eqn:M; [|exact Ha].
    now apply search_mode_ok.
  - unfold action_cursor_up. destruct (mode a) eqn:M; [|exact Ha].
    now apply search_mode_ok.
  - unfold action_toggle_browse_mode. destruct (mode a) eqn:M; [|exact Ha].
    destruct (decide _); [now apply search_mode_ok|]. unfold _launch_browse_mode.
    pose proof (browse_keys_same keys (a, BrowseScreen.on_mount (store a) (marked a))) as H.
    destruct (fold_left _ _ _) as [a' b]. simpl in H.
    destruct (BrowseScreen.result b d).
    + apply enter_edit_ok, search_mode_ok. reflexivity.
    + apply (same_edit_ok a); [|exact Ha].
      eapply same_edit_trans; [exact H|]. repeat split. auto.
  - unfold action_import_notes, _do_import.
    destruct result as [[|f fs]|]; try (intros E; apply Ha, E).
    destruct (import_selected _ _ _ _ _ _) as [s [[[imp skip] ids]|]];
      [|intros E; apply Ha, E].
    destruct (0 <? skip); intros E; apply Ha, E.
  - unfold action_export_notes. destruct (decide _); [intros E; apply Ha, E|].
    destruct downloads_exists; [|intros E; apply Ha, E]. simpl.
    destruct (NoteStore.export_separate_files _ _). intros E; apply Ha, E.
  - unfold action_save_edit. destruct (mode a); [exact Ha|].
    destruct (_HAS_TEXTAREA a); [|exact Ha]. simpl.
    destruct (editing_note_id a); [|exact Ha].
    destruct (_editor a); [|exact Ha].
    destruct (NoteStore.get _ _) as [[[[[? ?] ?] ?] ?]|]; [|exact Ha].
    intros E; apply Ha, E.
  - unfold on_input_changed. destruct (Text.starts_with_colon text0).
    + intros E; apply Ha, E.
    + simpl. destruct (mode a) eqn:M; intros E; apply Ha; simpl in E; congruence.
  - unfold on_input_submitted.
    destruct (Text.strip (search_value a)) as [|c s]; [now apply open_or_edit_ok|].
    destruct c as [[] [] [] [] [] [] [] []];
      first [now apply open_or_edit_ok | now apply run_command_ok].
  - unfold on_list_view_selected. destruct (mode a); [|exact Ha].
    destruct (ResultsList.current_note_id _); [now apply enter_edit_ok|exact Ha].
  - unfold editor_changed. destruct (editor a) eqn:Ed; [|exact Ha].
    intros E. destruct (Ha E) as (? & _ & ?). simpl. eauto.
  - intros E; apply Ha, E.
Qed.

(** Whenever a session is in EDIT mode, there is an editor to compare with
    the baseline and a note under edit. *)
Lemma reachable_edit_ok (a : t) : reachable a -> edit_ok a.
Proof.
  induction 1 as [s h|now a i _ IH].
  - apply search_mode_ok. unfold on_mount.
    cbn [mode notify refresh_search _refresh_results set_results set_matches].
    rewrite hide_editor_mode. reflexivity.
  - now apply step_edit_ok.
Qed.

End EditInvariant.

(** C7. In EDIT mode with an editor whose text differs from the baseline,
    escape only adds a warning, as the last entry of the notices: the mode,
    the editor text, the baseline and the store stay as they are.  Escape reaches SEARCH exactly when the text
    equals the baseline, and the store is untouched in both cases. *)
Theorem mode_back_keeps_unsaved_text (a : NotryApp.t) (ed : NotryApp.TextArea) :
  NotryApp.mode a = NotryApp.EDIT ->
  NotryApp._HAS_TEXTAREA a = true ->
  NotryApp.editor a = Some ed ->
  (NotryApp.text ed <> NotryApp.original_body a ->
     NotryApp.action_mode_back a
     = NotryApp.notify NotryApp.UnsavedChanges NotryApp.warning a
     /\ NotryApp.notices (NotryApp.action_mode_back a)
        = (NotryApp.notices a ++ [(NotryApp.UnsavedChanges, NotryApp.warning)])%list
     /\ NotryApp.mode (NotryApp.action_mode_back a) = NotryApp.EDIT
     /\ NotryApp.editor (NotryApp.action_mode_back a) = Some ed
     /\ NotryApp.original_body (NotryApp.action_mode_back a) = NotryApp.original_body a
     /\ NotryApp.editing_note_id (NotryApp.action_mode_back a) = NotryApp.editing_note_id a)
  /\ (NotryApp.mode (NotryApp.action_mode_back a) = NotryApp.SEARCH
      <-> NotryApp.text ed = NotryApp.original_body a)
  /\ NotryApp.store (NotryApp.action_mode_back a) = NotryApp.store a.
Proof.
  intros Hm Ht He.
  unfold NotryApp.action_mode_back. rewrite Hm.
  rewrite (unsaved_changes_spec a ed Ht He).
  destruct (String.eqb_spec (NotryApp.text ed) (NotryApp.original_body a)) as [E|E];
    cbn [negb].
  - split; [intros H; now destruct H|]. split.
    + split; [intros _; exact E | intros _].
      cbn [NotryApp.mode NotryApp.set_focus NotryApp.refresh_search
             NotryApp._refresh_results NotryApp.set_results NotryApp.set_matches
             NotryApp.set_preview_display].
      now rewrite hide_editor_mode.
    + cbn [NotryApp.store NotryApp.set_focus NotryApp.refresh_search
             NotryApp._refresh_results NotryApp.set_results NotryApp.set_matches
             NotryApp.set_preview_display].
      now rewrite hide_editor_store.
  - split; [intros _; repeat split; assumption|].
    split; [|reflexivity]. cbn [NotryApp.mode NotryApp.notify]. rewrite Hm.
    split; [discriminate|intros H; now destruct E].
Qed.

Lemma mode_back_keeps_unsaved_text_witness :
  NotryApp.mode demo_editing = NotryApp.EDIT
  /\ NotryApp._HAS_TEXTAREA demo_editing = true
  /\ NotryApp.editor demo_editing = Some (NotryApp.mkTextArea "draft" true)
  /\ "draft" <> NotryApp.original_body demo_editing
  /\ NotryApp.notices (NotryApp.action_mode_back demo_editing)
     = (NotryApp.notices demo_editing
        ++ [(NotryApp.UnsavedChanges, NotryApp.warning)])%list
  /\ NotryApp.mode (NotryApp.action_mode_back demo_editing) = NotryApp.EDIT
  /\ NotryApp.store (NotryApp.action_mode_back demo_editing) = NotryApp.store demo_editing.
Proof.
  assert (Hne : "draft" <> NotryApp.original_body demo_editing)
    by (vm_compute; discriminate).
  split; [reflexivity|]. split; [reflexivity|]. split; [reflexivity|]. split; [exact Hne|].
  destruct (mode_back_keeps_unsaved_text demo_editing (NotryApp.mkTextArea "draft" true))
    as (H1 & _ & H3); [reflexivity..|].
  destruct (H1 Hne) as (_ & Hn & Hm & _).
  split; [exact Hn|]. split; [exact Hm | exact H3].
Defined.

Section MarkedFacts.
Import NotryApp.

Lemma enter_edit_marked (nid : Z) (a : t) : marked (_enter_edit nid a) = marked a.
Proof.
  unfold _enter_edit.
  destruct (NoteStore.get (store a) nid) as [[[[[? ?] ?] ?] ?]|]; [|reflexivity].
  destruct (_HAS_TEXTAREA a); simpl; [|reflexivity].
  now destruct (_editor a).
Qed.

Lemma enter_edit_store (nid : Z) (a : t) : store (_enter_edit nid a) = store a.
Proof.
  unfold _enter_edit.
  destruct (NoteStore.get (store a) nid) as [[[[[? ?] ?] ?] ?]|]; [|reflexivity].
  destruct (_HAS_TEXTAREA a); simpl; [|reflexivity].
  now destruct (_editor a).
Qed.

Lemma hide_editor_marked (a : t) : marked (hide_editor a) = marked a.
Proof.
  unfold hide_editor. destruct (_HAS_TEXTAREA a); [|reflexivity].
  now destruct (_editor a).
Qed.

Lemma mode_back_marked (a : t) : marked (action_mode_back a) = marked a.
Proof.
  unfold action_mode_back. destruct (mode a); [reflexivity|].
  destruct (unsaved_changes a); [reflexivity|].
  cbn [marked set_focus refresh_search _refresh_results set_results set_matches
         set_preview_display].
  now rewrite hide_editor_marked.
Qed.

Lemma open_or_edit_marked (now : string) (a : t) :
  marked (action_open_or_edit now a) = marked a.
Proof.
  unfold action_open_or_edit. destruct (mode a); [|reflexivity].
  assert (H : marked
                (if negb (Text.is_empty (Text.strip (search_value a)))
                 then match NoteStore.search (store a) (Text.strip (search_value a)) 1 with
                      | [] =>
                          let '(s, nid) :=
                            NoteStore.upsert now (store a) (Text.strip (search_value a))
                              "" None None in
                          _enter_edit nid
                            (refresh_search (Text.strip (search_value a)) (set_store s a))
                      | (nid, _) :: _ => _enter_edit nid a
                      end
                 else match ResultsList.current_note_id (results a) with
                      | Some nid => _enter_edit nid a
                      | None => a
                      end) = marked a).
  { destruct (negb _).
    - destruct (NoteStore.search _ _ _) as [|[? ?] ?];
        cbn [NoteStore.upsert]; now rewrite enter_edit_marked.
    - destruct (ResultsList.current_note_id _); [apply enter_edit_marked|reflexivity]. }
  destruct (focused a); try exact H.
  destruct (ResultsList.current_note_id (results a)) eqn:E;
    [apply enter_edit_marked|].
  exact H.
Qed.

Lemma run_command_marked (c : string) (a : t) : marked (_run_command c a) = marked a.
Proof.
  unfold _run_command. destruct (Text.first_token c); [|reflexivity].
  destruct (_ || _).
  - destruct (mode a); [reflexivity|].
    cbn [marked notify set_focus set_preview_display].
    now rewrite hide_editor_marked.
  - now destruct (String.eqb _ _).
Qed.

Lemma browse_press_store (ab : t * BrowseScreen.screen) (k : BrowseScreen.Key) :
  store (BrowseScreen.press ab k).1 = store ab.1.
Proof.
  destruct ab as [a b], k; simpl.
  - destruct (BrowseScreen.focused_card b); [|reflexivity].
    now destruct (_ <? _)%nat.
  - reflexivity.
  - reflexivity.
  - now destruct (_ <? _)%nat.
  - now destruct (_ <? _)%nat.
Qed.

Lemma browse_keys_store (keys : list BrowseScreen.Key) (ab : t * BrowseScreen.screen) :
  store (fold_left BrowseScreen.press keys ab).1 = store ab.1.
Proof.
  revert ab. induction keys as [|k keys IH]; intros ab; simpl; [reflexivity|].
  now rewrite IH, browse_press_store.
Qed.

Lemma step_keeps_marked (now : string) (a : t) (i : Intent) :
  changes_marks i = false -> marked (step now a i) = marked a.
Proof.
  destruct i; simpl; try discriminate; intros _.
  - apply mode_back_marked.
  - apply open_or_edit_marked.
  - unfold action_cursor_down. now destruct (mode a).
  - unfold action_cursor_up. now destruct (mode a).
  - unfold action_export_notes. destruct (decide _); [reflexivity|].
    destruct downloads_exists; [|reflexivity]. simpl.
    now destruct (NoteStore.export_separate_files _ _).
  - unfold action_save_edit. destruct (mode a); [reflexivity|].
    destruct (_HAS_TEXTAREA a); [|reflexivity]. simpl.
    destruct (editing_note_id a); [|reflexivity].
    destruct (_editor a); [|reflexivity].
    now destruct (NoteStore.get _ _) as [[[[[? ?] ?] ?] ?]|].
  - unfold on_input_changed. destruct (Text.starts_with_colon text0); [reflexivity|].
    simpl. now destruct (mode a).
  - unfold on_input_submitted.
    destruct (Text.strip (search_value a)) as [|c s]; [apply open_or_edit_marked|].
    destruct c as [[] [] [] [] [] [] [] []];
      first [apply open_or_edit_marked | apply run_command_marked].
  - unfold on_list_view_selected. destruct (mode a); [|reflexivity].
    destruct (ResultsList.current_note_id _); [apply enter_edit_marked|reflexivity].
  - unfold editor_changed. now destruct (editor a).
  - reflexivity.
Qed.

Lemma marking_keeps_store (now : string) (a : t) (i : Intent) :
  marking_only i = true -> store (step now a i) = store a.
Proof.
  destruct i; simpl; try discriminate; intros _.
  - unfold action_toggle_mark. destruct (mode a); [|reflexivity].
    destruct (ResultsList.current_note_id _); [|reflexivity].
    destruct (ResultsList.index _); [|reflexivity].
    simpl. now destruct (map fst _).
  - unfold action_clear_all_marks. destruct (mode a); [|reflexivity].
    now destruct (decide _).
  - unfold action_mark_all. destruct (mode a); [|reflexivity].
    now destruct (matches a).
  - unfold action_toggle_browse_mode. destruct (mode a); [|reflexivity].
    destruct (decide _); [reflexivity|]. unfold _launch_browse_mode.
    pose proof (browse_keys_store keys (a, BrowseScreen.on_mount (store a) (marked a))) as H.
    destruct (fold_left _ _ _) as [a' b]. simpl in H.
    destruct (BrowseScreen.result b d); [|exact H].
    now rewrite enter_edit_store.
Qed.

End MarkedFacts.

(** C9, as the code has it. A search or refresh never touches the marked
    set, so an id stays marked whatever the next query selects.  The marked
    set changes only through toggle-mark, mark-all and clear-marks (in the
    main view or in Browse) and through import, which marks the notes it
    creates.  The marking operations leave every persisted note alone. *)
Theorem marked_set_frame (now : string) (a : NotryApp.t) (i : NotryApp.Intent)
    (q : string) :
  (forall nid, nid ∈ NotryApp.marked a ->
     nid ∈ NotryApp.marked (NotryApp.refresh_search q a)
     /\ nid ∈ NotryApp.marked (NotryApp.on_input_changed q a))
  /\ NotryApp.marked (NotryApp.refresh_search q a) = NotryApp.marked a
  /\ (changes_marks i = false ->
        NotryApp.marked (NotryApp.step now a i) = NotryApp.marked a)
  /\ (marking_only i = true ->
        NotryApp.store (NotryApp.step now a i) = NotryApp.store a).
Proof.
  split; [|split; [reflexivity|split]].
  - intros nid H.
    rewrite (step_keeps_marked now a (NotryApp.InputChanged q) eq_refl : 
               NotryApp.marked (NotryApp.on_input_changed q a) = _).
    split; exact H.
  - apply step_keeps_marked.
  - apply marking_keeps_store.
Qed.

Lemma marked_set_frame_witness :
  changes_marks (NotryApp.InputChanged "zzz") = false
  /\ marking_only NotryApp.ToggleMark = true
  /\ elements (NotryApp.marked (NotryApp.action_toggle_mark demo_app)) = [1]
  /\ NotryApp.marked
       (NotryApp.step "2025-03-03T08:00:00+00:00"
          (NotryApp.action_toggle_mark demo_app) (NotryApp.InputChanged "zzz"))
     = NotryApp.marked (NotryApp.action_toggle_mark demo_app)
  /\ NotryApp.matches
       (NotryApp.step "2025-03-03T08:00:00+00:00"
          (NotryApp.action_toggle_mark demo_app) (NotryApp.InputChanged "zzz")) = []
  /\ NotryApp.store
       (NotryApp.step "2025-03-03T08:00:00+00:00" demo_app NotryApp.ToggleMark)
     = NotryApp.store demo_app.
Proof.
  split; [reflexivity|]. split; [reflexivity|]. split; [vm_compute; reflexivity|].
  split; [|split; [vm_compute; reflexivity|]].
  - apply (marked_set_frame "2025-03-03T08:00:00+00:00"
             (NotryApp.action_toggle_mark demo_app) (NotryApp.InputChanged "zzz") "zzz").
    reflexivity.
  - apply (marked_set_frame "2025-03-03T08:00:00+00:00" demo_app NotryApp.ToggleMark "").
    reflexivity.
Defined.

(** C9 as stated fails: an import is none of toggle-mark, mark-all and
    clear-marks, and it marks the note it creates. *)
Lemma import_changes_marked_set :
  elements (NotryApp.marked demo_app) = []
  /\ elements
       (NotryApp.marked
          (NotryApp.step "2025-03-03T08:00:00+00:00" demo_app
             (NotryApp.ImportNotes (Some [demo_file])))) = [2].
Proof. split; vm_compute; reflexivity. Qed.

(** ** Saving an imported note *)

Section SaveFacts.
Import NoteStore.

Lemma find_some_id (l : list Note) (nid : Z) (r : Note) :
  In r l -> id r = nid -> exists r', List.find (fun x => id x =? nid) l = Some r'.
Proof.
  intros Hin Hid. destruct (List.find _ l) eqn:E; [eauto|].
  pose proof (find_none _ _ E r Hin) as H. simpl in H. lia.
Qed.

Lemma update_rows_in (nid : Z) (f : Note -> Note) (l : list Note) (r : Note) :
  In r (map (fun x => if id x =? nid then f x else x) l) ->
  (exists x, In x l /\ id x = nid /\ r = f x) \/ (In r l /\ id r <> nid).
Proof.
  intros H. apply in_map_iff in H as (x & E & Hx).
  destruct (Z.eqb_spec (id x) nid) as [Hid|Hid]; subst r; [left; eauto|right; auto].
Qed.

End SaveFacts.

(** *** Import digests stay unique *)

Section DigestInvariant.
Import NotryApp.

Lemma digest_unique_empty : digest_unique NoteStore.empty.
Proof. intros r r' h []. Qed.

Lemma insert_digest_unique (now : string) (s : NoteStore.t) (title body : string)
    (hash : option string) :
  digest_unique s ->
  (forall h, hash = Some h -> NoteStore.note_exists_by_hash s h = false) ->
  digest_unique (NoteStore.upsert now s title body None hash).1.
Proof.
  intros Hs Hnew r r' h Hr Hr' E E'. simpl in Hr, Hr'.
  apply in_app_or in Hr as [Hr|[<-|[]]]; apply in_app_or in Hr' as [Hr'|[<-|[]]].
  - now apply (Hs r r' h).
  - simpl in E'. exfalso.
    apply (proj1 (note_exists_by_hash_false s h) (Hnew h E') r Hr E).
  - simpl in E. exfalso.
    apply (proj1 (note_exists_by_hash_false s h) (Hnew h E) r' Hr' E').
  - reflexivity.
Qed.

Lemma update_digest_unique (now : string) (s : NoteStore.t) (title body : string)
    (nid : Z) :
  digest_unique s ->
  digest_unique (NoteStore.upsert now s title body (Some nid) None).1.
Proof.
  intros Hs r r' h Hr Hr' E E'. simpl in Hr, Hr'.
  apply update_rows_in in Hr as [(x & _ & _ & ->)|[Hr _]]; [discriminate E|].
  apply update_rows_in in Hr' as [(x & _ & _ & ->)|[Hr' _]]; [discriminate E'|].
  now apply (Hs r r' h).
Qed.

Lemma import_digest_unique (now : string) (s s' : NoteStore.t) (path : NoteStore.Path)
    (res : Z * Z * option Z) :
  digest_unique s ->
  NoteStore.import_text_file now s path = Some (s', res) -> digest_unique s'.
Proof.
  intros Hs. unfold NoteStore.import_text_file.
  destruct (NoteStore.read_text path) as [content|]; [|discriminate].
  cbv zeta. destruct (NoteStore.note_exists_by_hash s _) eqn:E.
  - intros [= <- _]. exact Hs.
  - intros [= <- _]. apply insert_digest_unique; [exact Hs|].
    intros h [= <-]. exact E.
Qed.

Lemma import_selected_digest_unique (now : string) (files : list NoteStore.Path)
    (s : NoteStore.t) (imported skipped : Z) (ids : list Z) :
  digest_unique s ->
  digest_unique (import_selected now s files imported skipped ids).1.
Proof.
  revert s imported skipped ids.
  induction files as [|f files IH]; intros s imported skipped ids Hs; simpl; [exact Hs|].
  destruct (NoteStore.import_text_file now s f) as [[s' [[imp skip] nid]]|] eqn:E;
    [|exact Hs].
  apply IH. eapply import_digest_unique; eauto.
Qed.

Lemma open_or_edit_digest_unique (now : string) (a : t) :
  digest_unique (store a) -> digest_unique (store (action_open_or_edit now a)).
Proof.
  intros Ha. unfold action_open_or_edit. destruct (mode a); [|exact Ha].
  assert (H : digest_unique
                (store
                   (if negb (Text.is_empty (Text.strip (search_value a)))
                    then match NoteStore.search (store a) (Text.strip (search_value a)) 1 with
                         | [] =>
                             let '(s, nid) :=
                               NoteStore.upsert now (store a) (Text.strip (search_value a))
                                 "" None None in
                             _enter_edit nid
                               (refresh_search (Text.strip (search_value a)) (set_store s a))
                         | (nid, _) :: _ => _enter_edit nid a
                         end
                    else match ResultsList.current_note_id (results a) with
                         | Some nid => _enter_edit nid a
                         | None => a
                         end))).
  { destruct (negb _).
    - destruct (NoteStore.search _ _ _) as [|[? ?] ?]; cbn [NoteStore.upsert];
        rewrite enter_edit_store; [|exact Ha].
      apply (insert_digest_unique now (store a) _ "" None Ha). discriminate.
    - destruct (ResultsList.current_note_id _); [rewrite enter_edit_store|]; exact Ha. }
  destruct (focused a); try exact H.
  destruct (ResultsList.current_note_id (results a)) eqn:E;
    [now rewrite enter_edit_store|].
  exact H.
Qed.

Lemma run_command_store (c : string) (a : t) : store (_run_command c a) = store a.
Proof.
  unfold _run_command. destruct (Text.first_token c); [|reflexivity].
  destruct (_ || _).
  - destruct (mode a); [reflexivity|].
    cbn [store notify set_focus set_preview_display]. now rewrite hide_editor_store.
  - now destruct (String.eqb _ _).
Qed.

(** Every intent keeps import digests unique: an insert by hand and a save
    carry no digest, and an import looks the digest up before it inserts. *)
Lemma step_digest_unique (now : string) (a : t) (i : Intent) :
  digest_unique (store a) -> digest_unique (store (step now a i)).
Proof.
  intros Ha.
  destruct (marking_only i) eqn:M; [now rewrite marking_keeps_store|].
  destruct i; try discriminate M; simpl.
  - unfold action_mode_back. destruct (mode a); [exact Ha|].
    destruct (unsaved_changes a); [exact Ha|].
    cbn [store set_focus refresh_search _refresh_results set_results set_matches
           set_preview_display].
    now rewrite hide_editor_store.
  - now apply open_or_edit_digest_unique.
  - unfold action_cursor_down. now destruct (mode a).
  - unfold action_cursor_up. now destruct (mode a).
  - unfold action_import_notes, _do_import.
    destruct result as [[|f fs]|]; try exact Ha.
    pose proof (import_selected_digest_unique now (f :: fs) (store a) 0 0 [] Ha) as H.
    destruct (import_selected _ _ _ _ _ _) as [s [[[imp skip] ids]|]]; simpl in H;
      [|exact H].
    now destruct (0 <? skip).
  - unfold action_export_notes. destruct (decide _); [exact Ha|].
    destruct downloads_exists; [|exact Ha]. simpl.
    now destruct (NoteStore.export_separate_files _ _).
  - unfold action_save_edit. destruct (mode a); [exact Ha|].
    destruct (_HAS_TEXTAREA a); [|exact Ha]. simpl.
    destruct (editing_note_id a) as [nid|]; [|exact Ha].
    destruct (_editor a) as [ed|]; [|exact Ha].
    destruct (NoteStore.get _ _) as [[[[[? title] ?] ?] ?]|]; [|exact Ha].
    apply (update_digest_unique now (store a) title (text ed) nid Ha).
  - unfold on_input_changed. destruct (Text.starts_with_colon text0); [exact Ha|].
    simpl. now destruct (mode a).
  - unfold on_input_submitted.
    destruct (Text.strip (search_value a)) as [|c s];
      [now apply open_or_edit_digest_unique|].
    destruct c as [[] [] [] [] [] [] [] []];
      first [now apply open_or_edit_digest_unique | now rewrite run_command_store].
  - unfold on_list_view_selected. destruct (mode a); [|exact Ha].
    destruct (ResultsList.current_note_id _); [now rewrite enter_edit_store|exact Ha].
  - unfold editor_changed. now destruct (editor a).
  - exact Ha.
Qed.

(** With unique digests, the note that holds a digest is its only holder. *)
Lemma digest_unique_holder (s : NoteStore.t) (r : NoteStore.Note) (h : string) :
  digest_unique s -> In r (NoteStore.rows s) -> NoteStore.import_hash r = Some h ->
  forall r', In r' (NoteStore.rows s) -> NoteStore.import_hash r' = Some h ->
             NoteStore.id r' = NoteStore.id r.
Proof. intros Hs Hr E r' Hr' E'. now apply (Hs r' r h). Qed.

End DigestInvariant.

(** C10. A note that holds the digest [h] of an imported file, alone in the
    store, is being edited.  One save writes the note back with no digest:
    its [import_hash] is null afterwards, [note_exists_by_hash h] answers
    false, and importing the same file again inserts a second note instead
    of skipping it. *)
Theorem save_forgets_import_hash (now now' : string) (a : NotryApp.t)
    (ed : NotryApp.TextArea) (nid : Z) (h : string)
    (path : NoteStore.Path) (content : string) :
  NotryApp.mode a = NotryApp.EDIT ->
  NotryApp._HAS_TEXTAREA a = true ->
  NotryApp.editor a = Some ed ->
  NotryApp.editing_note_id a = Some nid ->
  (exists r, In r (NoteStore.rows (NotryApp.store a))
             /\ NoteStore.id r = nid /\ NoteStore.import_hash r = Some h) ->
  (forall r, In r (NoteStore.rows (NotryApp.store a)) ->
             NoteStore.import_hash r = Some h -> NoteStore.id r = nid) ->
  NoteStore.read_text path = Some content ->
  NoteStore._compute_hash (NoteStore.import_title path) content = h ->
  let a' := NotryApp.action_save_edit now a in
  (forall r, In r (NoteStore.rows (NotryApp.store a')) ->
             NoteStore.id r = nid -> NoteStore.import_hash r = None)
  /\ NoteStore.count (NotryApp.store a') = NoteStore.count (NotryApp.store a)
  /\ NoteStore.note_exists_by_hash (NotryApp.store a') h = false
  /\ exists (s2 : NoteStore.t) (second_id : Z),
       NoteStore.import_text_file now' (NotryApp.store a') path
       = Some (s2, (1, 0, Some second_id))
       /\ second_id <> nid
       /\ NoteStore.count s2 = NoteStore.count (NotryApp.store a) + 1.
Proof.
  intros Hm Ht He Hn (r0 & Hin0 & Hid0 & Hh0) Huniq Hr Hh. cbv zeta.
  destruct (find_some_id _ nid r0 Hin0 Hid0) as (r1 & Hfind).
  assert (Hs : NotryApp.store (NotryApp.action_save_edit now a)
               = (NoteStore.upsert now (NotryApp.store a) (NoteStore.title r1)
                    (NotryApp.text ed) (Some nid) None).1).
  { unfold NotryApp.action_save_edit, NotryApp._editor, NoteStore.get.
    rewrite Hm, Ht, He, Hn, Hfind. reflexivity. }
  rewrite Hs. simpl.
  assert (Hnone : forall r,
            In r (map (fun x => if NoteStore.id x =? nid
                                then NoteStore.mkNote (NoteStore.id x) (NoteStore.title r1)
                                       (NotryApp.text ed) (NoteStore.created_at x) now None
                                else x) (NoteStore.rows (NotryApp.store a))) ->
            NoteStore.import_hash r <> Some h).
  { intros r Hr' Hrh. apply update_rows_in in Hr' as [(x & _ & _ & ->)|[Hin Hid]].
    - discriminate Hrh.
    - apply Hid. now apply Huniq. }
  assert (Hcount : NoteStore.count
                     (NoteStore.upsert now (NotryApp.store a) (NoteStore.title r1)
                        (NotryApp.text ed) (Some nid) None).1
                   = NoteStore.count (NotryApp.store a)).
  { unfold NoteStore.count. simpl. now rewrite length_map. }
  assert (Hex : NoteStore.note_exists_by_hash
                  (NoteStore.upsert now (NotryApp.store a) (NoteStore.title r1)
                     (NotryApp.text ed) (Some nid) None).1 h = false)
    by (apply note_exists_by_hash_false; exact Hnone).
  split; [|split; [exact Hcount|split; [exact Hex|]]].
  - intros r Hr' Hid. apply update_rows_in in Hr' as [(x & _ & _ & ->)|[_ Hne]];
      [reflexivity|contradiction].
  - subst h.
    destruct (import_twice_facts now' now' _ path content Hr Hex)
      as (s2 & id2 & Himp & Hfresh & _ & _ & Hc2).
    exists s2, id2. split; [exact Himp|]. split; [|lia].
    intros Heq. subst id2.
    apply (find_none_no_row _ _ Hfresh
             (NoteStore.mkNote nid (NoteStore.title r1) (NotryApp.text ed)
                (NoteStore.created_at r0) now None)); [|reflexivity].
    simpl. apply in_map_iff. exists r0. split; [|exact Hin0].
    now rewrite Hid0, Z.eqb_refl.
Qed.

Lemma save_forgets_import_hash_witness :
  NotryApp.mode demo_imported = NotryApp.EDIT
  /\ NotryApp.editing_note_id demo_imported = Some 2
  /\ NoteStore.note_exists_by_hash (NotryApp.store demo_imported) demo_digest = true
  /\ NoteStore.note_exists_by_hash
       (NotryApp.store (NotryApp.action_save_edit "2025-03-04T08:00:03+00:00" demo_imported))
       demo_digest = false
  /\ exists (s2 : NoteStore.t) (second_id : Z),
       NoteStore.import_text_file "2025-03-04T08:00:04+00:00"
         (NotryApp.store (NotryApp.action_save_edit "2025-03-04T08:00:03+00:00" demo_imported))
         demo_file
       = Some (s2, (1, 0, Some second_id))
       /\ second_id <> 2
       /\ NoteStore.count s2 = NoteStore.count (NotryApp.store demo_imported) + 1.
Proof.
  split; [reflexivity|]. split; [reflexivity|]. split; [vm_compute; reflexivity|].
  assert (Hrows : NoteStore.rows (NotryApp.store demo_imported)
                  = [NoteStore.mkNote 1 "abc" "Alpha" "2025-03-01T09:00:00+00:00"
                       "2025-03-01T09:00:00+00:00" None;
                     NoteStore.mkNote 2 "groceries" "milk, eggs" "2025-03-04T08:00:00+00:00"
                       "2025-03-04T08:00:00+00:00" (Some demo_digest)])
    by (vm_compute; reflexivity).
  destruct (save_forgets_import_hash "2025-03-04T08:00:03+00:00" "2025-03-04T08:00:04+00:00"
              demo_imported (NotryApp.mkTextArea "milk, eggs, bread" true) 2 demo_digest
              demo_file "milk, eggs") as (_ & _ & Hex & Himp).
  - reflexivity.
  - reflexivity.
  - reflexivity.
  - reflexivity.
  - rewrite Hrows. eexists. split; [right; left; reflexivity|]. split; reflexivity.
  - rewrite Hrows. intros r [<-|[<-|[]]] H; [discriminate H|reflexivity].
  - reflexivity.
  - vm_compute. reflexivity.
  - split; [exact Hex | exact Himp].
Defined.

(** * Further properties of the repository code *)

(** ** Updates, ids and lookups *)

Section UpdateFacts.
Import NoteStore.

Lemma find_map_same_id (f : Note -> Note) (i : Z) (l : list Note) :
  (forall r, id (f r) = id r) ->
  List.find (fun r => id r =? i) (map f l)
  = option_map f (List.find (fun r => id r =? i) l).
Proof.
  intros Hf. induction l as [|r l IH]; simpl; [reflexivity|].
  rewrite Hf. destruct (id r =? i); [reflexivity|exact IH].
Qed.

Lemma update_keeps_id (nid : Z) (g : Note -> Note) (r : Note) :
  (forall x, id (g x) = id x) ->
  id (if id r =? nid then g r else r) = id r.
Proof. intros Hg. destruct (id r =? nid); [apply Hg|reflexivity]. Qed.

Lemma get_after_update (now : string) (s : t) (title body : string) (nid i : Z)
    (hash : option string) :
  get (upsert now s title body (Some nid) hash).1 i
  = match get s i with
    | Some (j, t0, b0, c0, u0) =>
        if i =? nid then Some (j, title, body, c0, now) else Some (j, t0, b0, c0, u0)
    | None => None
    end.
Proof.
  unfold get. simpl.
  rewrite (find_map_same_id
             (fun r => if id r =? nid
                       then mkNote (id r) title body (created_at r) now hash else r)).
  2:{ intros r. now destruct (id r =? nid). }
  destruct (List.find _ (rows s)) as [r|] eqn:E; simpl; [|reflexivity].
  apply find_some in E as [_ E]. apply Z.eqb_eq in E. subst i.
  unfold row_of. now destruct (id r =? nid).
Qed.

Lemma map_id_update (now : string) (s : t) (title body : string) (nid : Z)
    (hash : option string) :
  map id (rows (upsert now s title body (Some nid) hash).1) = map id (rows s).
Proof.
  simpl. rewrite map_map. apply map_ext. intros r. now destruct (id r =? nid).
Qed.

Lemma map_id_insert (now : string) (s : t) (title body : string) (hash : option string) :
  map id (rows (upsert now s title body None hash).1)
  = (map id (rows s) ++ [next_rowid s])%list.
Proof. simpl. now rewrite map_app. Qed.

Lemma upsert_unique_ids (now : string) (s : t) (title body : string)
    (note_id : option Z) (hash : option string) :
  unique_ids s -> unique_ids (upsert now s title body note_id hash).1.
Proof.
  unfold unique_ids. intros H. destruct note_id as [nid|].
  - now rewrite map_id_update.
  - rewrite map_id_insert. apply NoDup_app. split; [exact H|]. split.
    + intros x Hx Hx'. apply list_elem_of_In in Hx' as [E|[]]. subst x.
      apply list_elem_of_In, in_map_iff in Hx as (r & E & Hr).
      now apply (next_rowid_fresh s r Hr).
    + apply NoDup_singleton.
Qed.

Lemma import_unique_ids (now : string) (s s' : t) (path : Path) (res : Z * Z * option Z) :
  unique_ids s -> import_text_file now s path = Some (s', res) -> unique_ids s'.
Proof.
  intros Hs. unfold import_text_file.
  destruct (read_text path) as [content|]; [|discriminate].
  cbv zeta. destruct (note_exists_by_hash s _).
  - intros [= <- _]. exact Hs.
  - intros [= <- _].
    apply (upsert_unique_ids now s (import_title path) content None
             (Some (_compute_hash (import_title path) content)) Hs).
Qed.

Lemma get_unique (s : t) (r : Note) :
  unique_ids s -> In r (rows s) -> get s (id r) = Some (row_of r).
Proof.
  unfold unique_ids, get. destruct s as [l q]. simpl. intros Hnd Hin.
  induction l as [|x l IH]; [destruct Hin|]. simpl in *.
  apply NoDup_cons in Hnd as [Hx Hnd].
  destruct Hin as [->|Hin]; [now rewrite Z.eqb_refl|].
  destruct (Z.eqb_spec (id x) (id r)) as [E|_]; [|now apply IH].
  exfalso. apply Hx. rewrite E. apply list_elem_of_In, in_map. exact Hin.
Qed.

End UpdateFacts.

(** X1. An update of a note that exists overwrites its title and body,
    stamps [updated_at] with the clock and leaves [created_at] and the id as
    they were; the id is handed back, no row is added, and every other note
    reads as before. *)
Theorem upsert_update_existing (now : string) (s : NoteStore.t) (title body : string)
    (nid : Z) (hash : option string) (t0 b0 c0 u0 : string) :
  NoteStore.get s nid = Some (nid, t0, b0, c0, u0) ->
  (NoteStore.upsert now s title body (Some nid) hash).2 = nid
  /\ NoteStore.get (NoteStore.upsert now s title body (Some nid) hash).1 nid
     = Some (nid, title, body, c0, now)
  /\ NoteStore.count (NoteStore.upsert now s title body (Some nid) hash).1
     = NoteStore.count s
  /\ (forall i, i <> nid ->
        NoteStore.get (NoteStore.upsert now s title body (Some nid) hash).1 i
        = NoteStore.get s i)
  /\ (forall r, In r (NoteStore.rows (NoteStore.upsert now s title body (Some nid) hash).1) ->
        NoteStore.id r = nid -> NoteStore.import_hash r = hash).
Proof.
  intros Hg. split; [reflexivity|]. split; [|split; [|split]].
  - rewrite get_after_update, Hg. now rewrite Z.eqb_refl.
  - unfold NoteStore.count. simpl. now rewrite length_map.
  - intros i Hi. rewrite get_after_update.
    destruct (NoteStore.get s i) as [[[[[j t1] b1] c1] u1]|]; [|reflexivity].
    destruct (Z.eqb_spec i nid); [contradiction|reflexivity].
  - intros r Hr Hid. simpl in Hr.
    apply update_rows_in in Hr as [(x & _ & _ & ->)|[_ Hne]]; [reflexivity|contradiction].
Qed.

Lemma upsert_update_existing_witness :
  NoteStore.get demo_store 1
  = Some (1, "abc", "Alpha", "2025-03-01T09:00:00+00:00", "2025-03-01T09:00:00+00:00")
  /\ NoteStore.get
       (NoteStore.upsert "2025-03-02T09:00:00+00:00" demo_store "abc" "Beta" (Some 1) None).1 1
     = Some (1, "abc", "Beta", "2025-03-01T09:00:00+00:00", "2025-03-02T09:00:00+00:00").
Proof.
  split; [reflexivity|].
  apply (upsert_update_existing "2025-03-02T09:00:00+00:00" demo_store "abc" "Beta" 1 None
           "abc" "Alpha" "2025-03-01T09:00:00+00:00" "2025-03-01T09:00:00+00:00").
  reflexivity.
Defined.

(** X2. Ids stay unique: neither an insert, nor an update, nor an import
    ever gives two notes the same id. *)
Theorem store_operations_keep_ids_unique (now : string) (s : NoteStore.t)
    (title body : string) (note_id : option Z) (hash : option string)
    (path : NoteStore.Path) :
  unique_ids s ->
  unique_ids (NoteStore.upsert now s title body note_id hash).1
  /\ (forall s' res, NoteStore.import_text_file now s path = Some (s', res) ->
        unique_ids s').
Proof.
  intros Hs. split; [now apply upsert_unique_ids|].
  intros s' res. now apply import_unique_ids.
Qed.

Lemma store_operations_keep_ids_unique_witness :
  unique_ids demo_store
  /\ unique_ids
       (NoteStore.upsert "2025-03-02T09:00:00+00:00" demo_store "t" "b" None None).1.
Proof.
  assert (H : unique_ids demo_store).
  { unfold unique_ids. simpl. apply NoDup_singleton. }
  split; [exact H|].
  apply (store_operations_keep_ids_unique "2025-03-02T09:00:00+00:00" demo_store "t" "b"
           None None demo_file H).
Defined.

(** ** What a search returns *)

Section SearchFacts.
Import NoteStore.

Lemma limit_rows_in {A : Type} (k : Z) (l : list A) (x : A) :
  In x (Sql.limit_rows k l) -> In x l.
Proof.
  unfold Sql.limit_rows. destruct (k <? 0); [auto|].
  intros H. rewrite <- (firstn_skipn (Z.to_nat k) l). apply in_or_app. now left.
Qed.

Lemma search_selected (s : t) (text : string) (limit : Z) :
  search s text limit = map (fun r => (id r, snip r)) (selected_rows s text limit).
Proof. unfold search, selected_rows. now destruct (Text.is_empty _). Qed.

Lemma selected_in_rows (s : t) (text : string) (limit : Z) (r : Note) :
  In r (selected_rows s text limit) -> In r (rows s).
Proof.
  unfold selected_rows, order_by_updated_desc.
  destruct (Text.is_empty _); intros H; apply limit_rows_in in H;
    apply (Permutation_in _ (order_by_Permutation newer_first _)) in H.
  - exact H.
  - now apply filter_In in H.
Qed.

Lemma NoDup_map_filter {A B : Type} (f : A -> B) (p : A -> bool) (l : list A) :
  NoDup (map f l) -> NoDup (map f (List.filter p l)).
Proof.
  induction l as [|x l IH]; simpl; [auto|].
  intros H. apply NoDup_cons in H as [Hx H].
  destruct (p x); [|now apply IH]. simpl. apply NoDup_cons. split; [|now apply IH].
  intros Hin. apply Hx. apply list_elem_of_In, in_map_iff in Hin as (y & E & Hy).
  apply filter_In in Hy as [Hy _]. rewrite <- E. now apply list_elem_of_In, in_map.
Qed.

Lemma NoDup_firstn {A : Type} (k : nat) (l : list A) : NoDup l -> NoDup (firstn k l).
Proof.
  intros H. rewrite <- (firstn_skipn k l) in H. now apply NoDup_app in H as [H _].
Qed.

Lemma NoDup_limit_rows {A : Type} (k : Z) (l : list A) :
  NoDup l -> NoDup (Sql.limit_rows k l).
Proof. unfold Sql.limit_rows. destruct (k <? 0); [auto|apply NoDup_firstn]. Qed.

Lemma limit_rows_map {A B : Type} (f : A -> B) (k : Z) (l : list A) :
  map f (Sql.limit_rows k l) = Sql.limit_rows k (map f l).
Proof. unfold Sql.limit_rows. destruct (k <? 0); [reflexivity|symmetry; apply firstn_map]. Qed.

Lemma selected_ids_NoDup (s : t) (text : string) (limit : Z) :
  unique_ids s -> NoDup (map id (selected_rows s text limit)).
Proof.
  unfold unique_ids, selected_rows, order_by_updated_desc. intros H.
  destruct (Text.is_empty _); rewrite limit_rows_map; apply NoDup_limit_rows.
  - rewrite (Permutation_map id (order_by_Permutation newer_first (rows s))). exact H.
  - rewrite (Permutation_map id (order_by_Permutation newer_first _)).
    now apply NoDup_map_filter.
Qed.

Lemma limit_rows_prefix {A : Type} (k k' : Z) (l : list A) :
  0 <= k -> k <= k' \/ k' < 0 ->
  Sql.limit_rows k l = firstn (Z.to_nat k) (Sql.limit_rows k' l).
Proof.
  intros Hk Hk'. unfold Sql.limit_rows.
  destruct (Z.ltb_spec k 0); [lia|]. destruct (Z.ltb_spec k' 0); [reflexivity|].
  rewrite firstn_firstn. f_equal. lia.
Qed.

End SearchFacts.

(** X3. Every pair a search returns, whatever the query and the limit, names
    a note of the store: [get] of the id finds it, the snippet is its title,
    a line break and its body, and no id comes back twice. *)
Theorem search_hits_resolve (s : NoteStore.t) (text : string) (limit : Z) :
  unique_ids s ->
  (forall i snippet, In (i, snippet) (NoteStore.search s text limit) ->
     exists title body created updated,
       NoteStore.get s i = Some (i, title, body, created, updated)
       /\ snippet = title ++ Sql.char10 ++ body)
  /\ NoDup (map fst (NoteStore.search s text limit)).
Proof.
  intros Hs. rewrite search_selected. split.
  - intros i sn Hin. apply in_map_iff in Hin as (r & [= <- <-] & Hr).
    apply selected_in_rows in Hr.
    exists (NoteStore.title r), (NoteStore.body r),
           (NoteStore.created_at r), (NoteStore.updated_at r).
    split; [now apply get_unique|reflexivity].
  - rewrite map_map. simpl. now apply selected_ids_NoDup.
Qed.

Lemma search_hits_resolve_witness :
  unique_ids seeded_store
  /\ NoDup (map fst (NoteStore.search seeded_store "beta" 3)).
Proof.
  assert (H : unique_ids seeded_store).
  { unfold unique_ids. vm_compute. repeat (apply NoDup_cons; split; [set_solver|]).
    apply NoDup_nil_2. }
  split; [exact H|]. apply (search_hits_resolve seeded_store "beta" 3 H).
Defined.

(** X4. A limit only cuts the result short: the search with limit [k >= 0]
    is the first [k] entries of the same search with any larger limit, or
    with a negative one (which returns every match). *)
Theorem search_limit_is_prefix (s : NoteStore.t) (text : string) (k k' : Z) :
  0 <= k -> k <= k' \/ k' < 0 ->
  NoteStore.search s text k = firstn (Z.to_nat k) (NoteStore.search s text k').
Proof.
  intros Hk Hk'. rewrite !search_selected, firstn_map. f_equal.
  unfold selected_rows. destruct (Text.is_empty _); now apply limit_rows_prefix.
Qed.

Lemma search_limit_is_prefix_witness :
  0 <= 2 /\ (2 <= 500 \/ 500 < 0)
  /\ NoteStore.search seeded_store "beta" 2
     = firstn (Z.to_nat 2) (NoteStore.search seeded_store "beta" 500).
Proof.
  split; [lia|]. split; [left; lia|].
  apply (search_limit_is_prefix seeded_store "beta" 2 500); [lia|left; lia].
Defined.

(** ** Exporting everything, and the names written *)

Section ExportAllFacts.
Import NoteStore.

Lemma found_rows_some (l : list Row) : found_rows (map Some l) = l.
Proof. induction l as [|r l IH]; simpl; [reflexivity|]. now rewrite IH. Qed.

Lemma export_all (s : t) :
  export_separate_files s None = (map file_of (all s), count s).
Proof.
  unfold export_separate_files. rewrite found_rows_some, export_loop.
  simpl. unfold all, count, order_by_updated_desc.
  now rewrite length_map, order_by_length.
Qed.

Lemma file_names_NoDup (l : list Note) :
  NoDup (map id l) -> NoDup (map fst (map file_of (map row_of l))).
Proof.
  induction l as [|r l IH]; simpl; [constructor|].
  intros H. apply NoDup_cons in H as [Hr H]. apply NoDup_cons. split; [|now apply IH].
  intros Hin. apply Hr.
  apply list_elem_of_In in Hin. rewrite !map_map in Hin.
  apply in_map_iff in Hin as (x & E & Hx). simpl in E.
  apply file_name_inj in E. rewrite <- E. now apply list_elem_of_In, in_map.
Qed.

Lemma replace_no_space (l : list ascii) :
  forallb (fun c => negb (Ascii.eqb c " ")) l = true -> Text.replace_spaces l = l.
Proof.
  induction l as [|c l IH]; simpl; [reflexivity|].
  intros H. apply andb_prop in H as [Hc H]. apply negb_true_iff in Hc.
  now rewrite Hc, IH.
Qed.

Lemma digit_no_space (l : list ascii) :
  forallb is_digit l = true -> forallb (fun c => negb (Ascii.eqb c " ")) l = true.
Proof.
  induction l as [|c l IH]; simpl; [reflexivity|].
  intros H. apply andb_prop in H as [Hc H]. rewrite (IH H), andb_true_r.
  destruct c as [[] [] [] [] [] [] [] []]; try reflexivity; discriminate Hc.
Qed.

Lemma fallback_unchanged (nid : Z) :
  Text.text (Text.replace_spaces (Text.chars ("note-" ++ pretty nid)))
  = "note-" ++ pretty nid.
Proof.
  rewrite replace_no_space; [apply string_of_list_ascii_of_string|].
  destruct (pretty_Z_shape nid) as (ds & _ & D & P).
  rewrite P, !chars_append, chars_text, !forallb_app, (digit_no_space _ D).
  now destruct (nid <? 0).
Qed.

Lemma replace_spaces_length (l : list ascii) :
  length (Text.replace_spaces l) = length l.
Proof. apply length_map. Qed.

Lemma text_length (l : list ascii) : String.length (Text.text l) = length l.
Proof. induction l as [|c l IH]; simpl; [reflexivity|]. now rewrite IH. Qed.

Lemma safe_name_cases (nid : Z) (title : string) :
  (safe_name nid title = "note-" ++ pretty nid)
  \/ (0 < String.length (safe_name nid title) <= 50)%nat.
Proof.
  unfold safe_name.
  destruct (firstn 50 _) as [|c cut] eqn:E; [left; apply fallback_unchanged|].
  right. rewrite text_length, replace_spaces_length.
  assert (H : (length (c :: cut) <= 50)%nat) by (rewrite <- E; apply firstn_le_length).
  simpl in *. lia.
Qed.

Lemma forallb_weaken (P Q : ascii -> bool) (l : list ascii) :
  (forall c, P c = true -> Q c = true) -> forallb P l = true -> forallb Q l = true.
Proof.
  intros HPQ. induction l as [|c l IH]; simpl; [reflexivity|].
  intros H. apply andb_prop in H as [Hc H]. now rewrite (HPQ c Hc), IH.
Qed.

Lemma file_name_chars (nid : Z) (title : string) :
  forallb name_char (Text.chars (file_name nid title)) = true.
Proof.
  unfold file_name. rewrite !chars_append, !forallb_app.
  assert (S1 : forall c, safe_char c = true -> name_char c = true)
    by (intros c H; unfold name_char; now rewrite H).
  assert (S2 : forall c, slug_char c = true -> Ascii.eqb c " " = false -> safe_char c = true).
  { intros c H E. unfold slug_char in H. unfold safe_char. rewrite E in H.
    now rewrite orb_false_r in H. }
  rewrite (forallb_weaken _ _ _ S1 (safe_name_safe nid title)).
  destruct (pretty_Z_shape nid) as (ds & _ & D & P).
  assert (Hp : forallb name_char (Text.chars (pretty nid)) = true).
  { rewrite P, chars_append, chars_text, forallb_app.
    rewrite (forallb_weaken is_digit name_char ds); [now destruct (nid <? 0)| |exact D].
    intros c Hc. destruct c as [[] [] [] [] [] [] [] []]; try reflexivity; discriminate Hc. }
  rewrite Hp. reflexivity.
Qed.

End ExportAllFacts.

(** X5. Export without a list of ids writes every note once, newest first,
    and returns [count()]; on a table with unique ids no two files share a
    name, so nothing is overwritten. *)
Theorem export_all_notes (s : NoteStore.t) :
  unique_ids s ->
  (NoteStore.export_separate_files s None).2 = NoteStore.count s
  /\ (NoteStore.export_separate_files s None).1 = map file_of (NoteStore.all s)
  /\ (forall r, In r (NoteStore.rows s) ->
        In (file_of (NoteStore.row_of r)) (NoteStore.export_separate_files s None).1)
  /\ NoDup (map fst (NoteStore.export_separate_files s None).1).
Proof.
  intros Hs. rewrite export_all. cbn [fst snd]. split; [reflexivity|]. split; [reflexivity|].
  unfold NoteStore.all, NoteStore.order_by_updated_desc. split.
  - intros r Hr. apply in_map, in_map.
    apply (Permutation_in _ (Permutation_sym (order_by_Permutation NoteStore.newer_first _))).
    exact Hr.
  - apply file_names_NoDup.
    rewrite (Permutation_map NoteStore.id (order_by_Permutation NoteStore.newer_first _)).
    exact Hs.
Qed.

Lemma export_all_notes_witness :
  unique_ids seeded_store
  /\ (NoteStore.export_separate_files seeded_store None).2 = 5
  /\ NoDup (map fst (NoteStore.export_separate_files seeded_store None).1).
Proof.
  assert (H : unique_ids seeded_store).
  { unfold unique_ids. vm_compute. repeat (apply NoDup_cons; split; [set_solver|]).
    apply NoDup_nil_2. }
  destruct (export_all_notes seeded_store H) as (Hn & _ & _ & Hd).
  split; [exact H|]. split; [rewrite Hn; reflexivity | exact Hd].
Defined.

(** X6. An export file name is made of letters, digits, [-], [_] and [.]
    only, so it holds no path separator and the file lands directly in the
    target directory; its slug is never empty and, unless it is the [note-<id>]
    fallback, has at most 50 characters. *)
Theorem export_file_name_is_plain (nid : Z) (title : string) :
  forallb name_char (Text.chars (NoteStore.file_name nid title)) = true
  /\ ~ In "/"%char (Text.chars (NoteStore.file_name nid title))
  /\ NoteStore.safe_name nid title <> ""
  /\ (NoteStore.safe_name nid title = "note-" ++ pretty nid
      \/ (String.length (NoteStore.safe_name nid title) <= 50)%nat).
Proof.
  pose proof (file_name_chars nid title) as H. split; [exact H|]. split; [|split].
  - intros Hin. rewrite forallb_forall in H. specialize (H _ Hin). discriminate H.
  - destruct (safe_name_cases nid title) as [E|E].
    + rewrite E. discriminate.
    + intros E'. rewrite E' in E. simpl in E. lia.
  - destruct (safe_name_cases nid title) as [E|E]; [now left|right; lia].
Qed.

(** ** Importing files and directories *)

Section ImportMoreFacts.
Import NoteStore.

(** What a call of [import_text_file] that returns has done. *)
Lemma import_facts (now : string) (s s1 : t) (p : Path) (a b : Z) (n : option Z) :
  import_text_file now s p = Some (s1, (a, b, n)) ->
  exists content,
    read_text p = Some content
    /\ note_exists_by_hash s1 (path_digest p content) = true
    /\ ((a = 1 /\ b = 0 /\ n = Some (next_rowid s) /\ count s1 = count s + 1)
        \/ (a = 0 /\ b = 1 /\ n = None /\ s1 = s))
    /\ (forall h, note_exists_by_hash s h = true -> note_exists_by_hash s1 h = true).
Proof.
  unfold import_text_file, path_digest.
  destruct (read_text p) as [content|]; [|discriminate]. cbv zeta.
  destruct (note_exists_by_hash s _) eqn:E.
  - intros [= <- <- <- <-]. exists content. repeat split; auto.
  - intros [= <- <- <- <-]. exists content. split; [reflexivity|].
    split; [apply upsert_insert_has_hash|]. split.
    + left. repeat split. unfold count. simpl. rewrite length_app. simpl. lia.
    + intros h Hh. apply note_exists_by_hash_true in Hh as (r & Hr & Hh).
      apply note_exists_by_hash_true. exists r. split; [|exact Hh].
      simpl. apply in_or_app. now left.
Qed.

(** The notes of [s] read the same in [s']. *)
Lemma import_extends (now : string) (s s1 : t) (p : Path) (a b : Z) (n : option Z) :
  import_text_file now s p = Some (s1, (a, b, n)) ->
  (forall i, is_Some (get s i) -> get s1 i = get s i)
  /\ (forall m, n = Some m -> get s m = None /\ is_Some (get s1 m))
  /\ ((a = 1 /\ b = 0 /\ count s1 = count s + 1 /\ is_Some n)
      \/ (a = 0 /\ b = 1 /\ s1 = s /\ n = None)).
Proof.
  unfold import_text_file.
  destruct (read_text p) as [content|]; [|discriminate]. cbv zeta.
  destruct (note_exists_by_hash s _).
  - intros [= <- <- <- <-]. split; [auto|]. split; [discriminate|]. right. auto.
  - destruct (upsert_insert_facts now s (import_title p) content
                (Some (_compute_hash (import_title p) content)))
      as (Hc & _ & Hnone & Hget & _ & Hold).
    cbv zeta in Hc, Hnone, Hget, Hold.
    destruct (upsert now s (import_title p) content None _) as [s2 nid].
    cbn [fst snd] in Hc, Hnone, Hget, Hold.
    intros [= <- <- <- <-]. split; [|split].
    + intros i Hi. apply Hold. intros ->. rewrite Hnone in Hi. now destruct Hi.
    + intros m [= <-]. split; [exact Hnone|]. rewrite Hget. eauto.
    + left. repeat split; eauto.
Qed.


Lemma filter_length_Permutation {A : Type} (f : A -> bool) (l l' : list A) :
  Permutation l l' -> length (List.filter f l) = length (List.filter f l').
Proof.
  induction 1 as [|x l l' _ IH|x y l|l l' l'' _ IH1 _ IH2]; simpl.
  - reflexivity.
  - destruct (f x); simpl; now rewrite IH.
  - destruct (f x), (f y); reflexivity.
  - now rewrite IH1.
Qed.

Lemma import_paths_totals (clock : nat -> string) (ext : list string) (ps : list DirEntry) :
  forall (s : t) (i : nat) (imp skip : Z) (ids : list Z)
         (s' : t) (imp' skip' : Z) (ids' : list Z),
    import_paths clock ext ps s i imp skip ids = (s', Some (imp', skip', ids')) ->
    imp' + skip' = imp + skip + importable_count ext ps
    /\ count s' = count s + (imp' - imp)
    /\ Z.of_nat (length ids') = Z.of_nat (length ids) + (imp' - imp)
    /\ imp <= imp' /\ skip <= skip'
    /\ (forall h, note_exists_by_hash s h = true -> note_exists_by_hash s' h = true)
    /\ (forall p, In p ps -> is_importable ext p = true ->
          exists content,
            read_text (entry_path p) = Some content
            /\ note_exists_by_hash s' (path_digest (entry_path p) content) = true).
Proof.
  unfold importable_count.
  induction ps as [|p ps IH]; intros s i imp skip ids s' imp' skip' ids' H; simpl in H.
  - injection H as <- <- <- <-. simpl. repeat split; try lia; auto; intros p [].
  - simpl. destruct (is_importable ext p) eqn:Ep.
    + destruct (import_text_file (clock i) s (entry_path p))
        as [[s1 [[a b] n]]|] eqn:E; [|discriminate H].
      apply import_facts in E as (content & Hr & Hd & Hcase & Hkeep).
      apply IH in H as (H1 & H2 & H3 & H4 & H5 & H6 & H7).
      assert (Hlen : Z.of_nat (length (match n with
                                       | Some nid => ids ++ [nid]
                                       | None => ids
                                       end)%list) = Z.of_nat (length ids) + a).
      { destruct Hcase as [(-> & _ & -> & _)|(-> & _ & -> & _)].
        - rewrite length_app. simpl. lia.
        - lia. }
      assert (Hcount : count s1 = count s + a /\ a + b = 1 /\ 0 <= a /\ 0 <= b).
      { destruct Hcase as [(-> & -> & _ & Hc)|(-> & -> & _ & ->)]; lia. }
      simpl length. repeat split; try lia.
      * intros h Hh. auto.
      * intros q [<-|Hq] Hi; [|now apply H7].
        exists content. split; [exact Hr|]. now apply H6.
    + apply IH in H as (H1 & H2 & H3 & H4 & H5 & H6 & H7).
      repeat split; try lia; auto.
      intros q [<-|Hq] Hi; [congruence|now apply H7].
Qed.

Lemma import_paths_all_present (clock : nat -> string) (ext : list string)
    (ps : list DirEntry) (s : t) :
  (forall p, In p ps -> is_importable ext p = true ->
     exists content,
       read_text (entry_path p) = Some content
       /\ note_exists_by_hash s (path_digest (entry_path p) content) = true) ->
  forall (i : nat) (imp skip : Z) (ids : list Z),
    import_paths clock ext ps s i imp skip ids
    = (s, Some (imp, skip + importable_count ext ps, ids)).
Proof.
  unfold importable_count.
  induction ps as [|p ps IH]; intros H i imp skip ids; simpl.
  - now rewrite Z.add_0_r.
  - destruct (is_importable ext p) eqn:Ep.
    + destruct (H p (or_introl eq_refl) Ep) as (content & Hr & Hd).
      rewrite (import_duplicate (clock i) s (entry_path p) content Hr Hd).
      rewrite IH by (intros q Hq; apply H; now right).
      rewrite Z.add_0_r. cbn [length].
      now rewrite Nat2Z.inj_succ, <- Z.add_1_l, Z.add_assoc.
    + apply IH. intros q Hq. apply H. now right.
Qed.



Lemma importable_count_sorted (ext : list string) (entries : list DirEntry) :
  importable_count ext (Sql.order_by name_le entries) = importable_count ext entries.
Proof.
  unfold importable_count. f_equal.
  apply filter_length_Permutation, order_by_Permutation.
Qed.

End ImportMoreFacts.

(** X7. Once an import of a file has returned, whatever it answered, the
    digest of the file is in the store and importing the file again is
    skipped with the store left as it is. *)
Theorem import_again_is_skipped (now now' : string) (s s1 : NoteStore.t)
    (path : NoteStore.Path) (res : Z * Z * option Z) :
  NoteStore.import_text_file now s path = Some (s1, res) ->
  NoteStore.import_text_file now' s1 path = Some (s1, (0, 1, None))
  /\ (res = (0, 1, None) /\ s1 = s
      \/ res = (1, 0, Some (NoteStore.next_rowid s))
         /\ NoteStore.count s1 = NoteStore.count s + 1).
Proof.
  destruct res as [[a b] n]. intros H.
  apply import_facts in H as (content & Hr & Hd & Hcase & _). split.
  - now apply (import_duplicate now' s1 path content).
  - destruct Hcase as [(-> & -> & -> & Hc)|(-> & -> & -> & ->)]; auto.
Qed.

Lemma import_again_is_skipped_witness :
  NoteStore.import_text_file "2025-03-02T10:00:00+00:00" demo_store demo_file
  = Some ((NoteStore.upsert "2025-03-02T10:00:00+00:00" demo_store "groceries" "milk, eggs"
             None (Some demo_digest)).1, (1, 0, Some 2))
  /\ NoteStore.import_text_file "2025-03-02T10:00:09+00:00"
       (NoteStore.upsert "2025-03-02T10:00:00+00:00" demo_store "groceries" "milk, eggs"
          None (Some demo_digest)).1 demo_file
     = Some ((NoteStore.upsert "2025-03-02T10:00:00+00:00" demo_store "groceries"
                "milk, eggs" None (Some demo_digest)).1, (0, 1, None)).
Proof.
  assert (H : NoteStore.import_text_file "2025-03-02T10:00:00+00:00" demo_store demo_file
              = Some ((NoteStore.upsert "2025-03-02T10:00:00+00:00" demo_store "groceries"
                         "milk, eggs" None (Some demo_digest)).1, (1, 0, Some 2)))
    by (vm_compute; reflexivity).
  split; [exact H|].
  apply (import_again_is_skipped "2025-03-02T10:00:00+00:00" "2025-03-02T10:00:09+00:00"
           demo_store _ demo_file (1, 0, Some 2) H).
Defined.

(** X8. When [import_directory] returns, its two counters add up to
    [count_importable_files] of the directory, the store has grown by the
    number imported, and one id is reported per imported file. *)
Theorem import_directory_totals (clock : nat -> string) (s s' : NoteStore.t)
    (entries : list NoteStore.DirEntry) (extensions : list string)
    (imported skipped : Z) (note_ids : list Z) :
  NoteStore.import_directory clock s (Some entries) extensions
  = (s', Some (imported, skipped, note_ids)) ->
  imported + skipped = NoteStore.count_importable_files (Some entries) extensions
  /\ 0 <= imported /\ 0 <= skipped
  /\ NoteStore.count s' = NoteStore.count s + imported
  /\ Z.of_nat (length note_ids) = imported.
Proof.
  unfold NoteStore.import_directory. intros H.
  apply import_paths_totals in H as (H1 & H2 & H3 & H4 & H5 & _).
  rewrite importable_count_sorted in H1. unfold importable_count in H1.
  simpl in *. repeat split; lia.
Qed.

(** X9. Importing a directory a second time imports nothing: every
    importable file is skipped as a duplicate and the store is left as the
    first pass made it. *)
Theorem import_directory_twice (clock clock' : nat -> string) (s s' : NoteStore.t)
    (entries : list NoteStore.DirEntry) (extensions : list string)
    (res : Z * Z * list Z) :
  NoteStore.import_directory clock s (Some entries) extensions = (s', Some res) ->
  NoteStore.import_directory clock' s' (Some entries) extensions
  = (s', Some (0, NoteStore.count_importable_files (Some entries) extensions, [])).
Proof.
  destruct res as [[imp skip] ids]. unfold NoteStore.import_directory. intros H.
  apply import_paths_totals in H as (_ & _ & _ & _ & _ & _ & H7).
  rewrite (import_paths_all_present clock' extensions _ s' H7).
  rewrite importable_count_sorted. reflexivity.
Qed.


Lemma import_directory_totals_witness :
  NoteStore.import_directory demo_clock demo_store (Some demo_directory)
    NoteStore.default_extensions
  = ((NoteStore.import_directory demo_clock demo_store (Some demo_directory)
        NoteStore.default_extensions).1, Some (2, 1, [2; 3]))
  /\ 2 + 1 = NoteStore.count_importable_files (Some demo_directory)
               NoteStore.default_extensions
  /\ NoteStore.count
       (NoteStore.import_directory demo_clock demo_store (Some demo_directory)
          NoteStore.default_extensions).1 = NoteStore.count demo_store + 2.
Proof.
  assert (H : NoteStore.import_directory demo_clock demo_store (Some demo_directory)
                NoteStore.default_extensions
              = ((NoteStore.import_directory demo_clock demo_store (Some demo_directory)
                    NoteStore.default_extensions).1, Some (2, 1, [2; 3])))
    by (vm_compute; reflexivity).
  split; [exact H|].
  destruct (import_directory_totals demo_clock demo_store _ demo_directory
              NoteStore.default_extensions 2 1 [2; 3] H) as (H1 & _ & _ & H4 & _).
  split; [exact H1 | exact H4].
Defined.

Lemma import_directory_twice_witness :
  NoteStore.import_directory demo_clock demo_store (Some demo_directory)
    NoteStore.default_extensions
  = ((NoteStore.import_directory demo_clock demo_store (Some demo_directory)
        NoteStore.default_extensions).1, Some (2, 1, [2; 3]))
  /\ NoteStore.import_directory demo_clock
       (NoteStore.import_directory demo_clock demo_store (Some demo_directory)
          NoteStore.default_extensions).1
       (Some demo_directory) NoteStore.default_extensions
     = ((NoteStore.import_directory demo_clock demo_store (Some demo_directory)
           NoteStore.default_extensions).1,
        Some (0, NoteStore.count_importable_files (Some demo_directory)
                   NoteStore.default_extensions, [])).
Proof.
  assert (H : NoteStore.import_directory demo_clock demo_store (Some demo_directory)
                NoteStore.default_extensions
              = ((NoteStore.import_directory demo_clock demo_store (Some demo_directory)
                    NoteStore.default_extensions).1, Some (2, 1, [2; 3])))
    by (vm_compute; reflexivity).
  split; [exact H|].
  apply (import_directory_twice demo_clock demo_clock demo_store _ demo_directory
           NoteStore.default_extensions (2, 1, [2; 3]) H).
Defined.

(** ** Seeding and start-up *)

Section SeedFacts.
Import NoteStore.

Lemma seed_from_rows (clock : nat -> string) (n : nat) :
  forall (s : t) (i : nat),
    exists new : list Note,
      rows (seed_from clock s i n) = (rows s ++ new)%list
      /\ length new = n
      /\ (forall r, In r new ->
            body r = seed_body /\ import_hash r = None
            /\ created_at r = updated_at r)
      /\ (unique_ids s -> unique_ids (seed_from clock s i n)).
Proof.
  induction n as [|n IH]; intros s i; cbn [seed_from].
  - exists []. rewrite app_nil_r. split; [reflexivity|]. split; [reflexivity|].
    split; [intros x []|auto].
  - destruct (IH (upsert (clock i) s ("Dummy note " ++ pretty (i + 1)%nat) seed_body
                    None None).1 (S i)) as (new & E & L & B & U).
    eexists (_ :: new). rewrite E. cbn [upsert fst rows]. rewrite <- app_assoc.
    cbn [app length].
    split; [reflexivity|]. split; [now rewrite L|]. split.
    + intros x [Hx|Hx]; [subst x; repeat split|now apply B].
    + intros Hs. apply U.
      apply (upsert_unique_ids (clock i) s _ seed_body None None Hs).
Qed.

Lemma seed_count (clock : nat -> string) (s : t) (n : nat) :
  count (seed clock s n) = count s + Z.of_nat n.
Proof.
  unfold seed, count. destruct (seed_from_rows clock n s 0) as (new & E & L & _).
  rewrite E, length_app, L. lia.
Qed.

End SeedFacts.

(** X11. [seed(n)] appends exactly [n] notes after the ones already there,
    each with the demo body, no import digest and [created_at] equal to
    [updated_at]; ids stay unique. *)
Theorem seed_appends_notes (clock : nat -> string) (s : NoteStore.t) (n : nat) :
  (exists new : list NoteStore.Note,
     NoteStore.rows (NoteStore.seed clock s n) = (NoteStore.rows s ++ new)%list
     /\ length new = n
     /\ forall r, In r new ->
          NoteStore.body r = NoteStore.seed_body
          /\ NoteStore.import_hash r = None
          /\ NoteStore.created_at r = NoteStore.updated_at r)
  /\ NoteStore.count (NoteStore.seed clock s n) = NoteStore.count s + Z.of_nat n
  /\ (unique_ids s -> unique_ids (NoteStore.seed clock s n)).
Proof.
  destruct (seed_from_rows clock n s 0) as (new & E & L & B & U).
  split; [exists new; auto|]. split; [apply seed_count|exact U].
Qed.

(** X12. [main] returns 2 exactly when [--reset] finds a database it cannot
    delete.  Without [--reset] a database that holds notes is opened as it
    is, whatever [--seed] says; after a reset, or when there is no database
    yet, the application starts with exactly [--seed] demo notes (none for a
    seed that is not positive). *)
Theorem main_starting_store (clock : nat -> string) (reset : bool) (seed : Z)
    (db_file : option NoteStore.t) (unlink_ok : bool) :
  (Main.starting_store clock reset seed db_file unlink_ok = None
   <-> reset = true /\ is_Some db_file /\ unlink_ok = false)
  /\ (forall s, reset = false -> db_file = Some s -> NoteStore.count s <> 0 ->
        Main.starting_store clock reset seed db_file unlink_ok = Some s)
  /\ (forall s, Main.starting_store clock reset seed db_file unlink_ok = Some s ->
        reset = true \/ db_file = None ->
        NoteStore.count s = Z.max 0 seed).
Proof.
  unfold Main.starting_store. split; [|split].
  - destruct reset, db_file as [s|], unlink_ok; simpl;
      try (destruct (_ && _)); split; try discriminate; try tauto;
      try (intros (? & [? ?] & ?); discriminate);
      try (intros (? & ? & ?); discriminate).
    intros _. eauto.
  - intros s -> -> Hc. simpl.
    destruct (Z.eqb_spec (NoteStore.count s) 0); [contradiction|].
    now rewrite andb_false_r.
  - intros s H Hr.
    assert (E : (if (0 <? seed) && (NoteStore.count NoteStore.empty =? 0)
                 then Some (NoteStore.seed clock NoteStore.empty (Z.to_nat seed))
                 else Some NoteStore.empty) = Some s).
    { destruct reset, db_file as [s0|], unlink_ok; simpl in H; try discriminate H;
        try exact H; destruct Hr as [Hr|Hr]; discriminate Hr. }
    change (NoteStore.count NoteStore.empty =? 0) with true in E.
    rewrite andb_true_r in E. destruct (Z.ltb_spec 0 seed).
    + injection E as <-. rewrite seed_count. change (NoteStore.count NoteStore.empty) with 0.
      lia.
    + injection E as <-. change (NoteStore.count NoteStore.empty) with 0. lia.
Qed.

(** ** Marking *)

Section MarkingFacts.
Import NotryApp.

Lemma add_all_union (ids : list Z) (m : gset Z) : add_all ids m = m ∪ list_to_set ids.
Proof.
  unfold add_all. revert m. induction ids as [|i ids IH]; intros m; simpl.
  - set_solver.
  - rewrite IH. set_solver.
Qed.

Lemma toggle_spec (nid j : Z) (m : gset Z) :
  j ∈ toggle nid m <-> (j = nid /\ nid ∉ m) \/ (j <> nid /\ j ∈ m).
Proof.
  unfold toggle. destruct (decide (nid ∈ m)) as [H|H].
  - rewrite elem_of_difference, elem_of_singleton.
    split; [intros [? ?]; right; auto|intros [[-> ?]|[? ?]]; [contradiction|auto]].
  - rewrite elem_of_union, elem_of_singleton.
    destruct (decide (j = nid)) as [->|Hj]; [tauto|].
    split; [intros [?|?]; [right; auto|contradiction]|intros [[? _]|[_ ?]]; [contradiction|auto]].
Qed.

End MarkingFacts.

(** X13. In EDIT mode the marking, cursor, browse and open intents do
    nothing at all: the session comes back exactly as it was. *)
Theorem edit_mode_ignores_list_intents (now : string) (a : NotryApp.t)
    (i : NotryApp.Intent) :
  NotryApp.mode a = NotryApp.EDIT -> list_intent i = true ->
  NotryApp.step now a i = a.
Proof.
  intros Hm Hi. destruct i; try discriminate Hi; simpl.
  - unfold NotryApp.action_open_or_edit. now rewrite Hm.
  - unfold NotryApp.action_toggle_mark. now rewrite Hm.
  - unfold NotryApp.action_clear_all_marks. now rewrite Hm.
  - unfold NotryApp.action_mark_all. now rewrite Hm.
  - unfold NotryApp.action_cursor_down. now rewrite Hm.
  - unfold NotryApp.action_cursor_up. now rewrite Hm.
  - unfold NotryApp.action_toggle_browse_mode. now rewrite Hm.
  - unfold NotryApp.on_list_view_selected. now rewrite Hm.
Qed.

Lemma edit_mode_ignores_list_intents_witness :
  NotryApp.mode demo_editing = NotryApp.EDIT
  /\ list_intent NotryApp.MarkAll = true
  /\ NotryApp.step "2025-03-03T08:01:00+00:00" demo_editing NotryApp.MarkAll = demo_editing.
Proof.
  split; [reflexivity|]. split; [reflexivity|].
  apply (edit_mode_ignores_list_intents "2025-03-03T08:01:00+00:00" demo_editing
           NotryApp.MarkAll); reflexivity.
Defined.

(** X14. Toggle-mark in SEARCH mode flips the mark of the note under the
    cursor and of no other note, and leaves the store and the matches
    alone. *)
Theorem toggle_mark_flips_current (a : NotryApp.t) (nid : Z) :
  NotryApp.mode a = NotryApp.SEARCH ->
  ResultsList.current_note_id (NotryApp.results a) = Some nid ->
  (forall j, j ∈ NotryApp.marked (NotryApp.action_toggle_mark a)
             <-> (j = nid /\ nid ∉ NotryApp.marked a)
                 \/ (j <> nid /\ j ∈ NotryApp.marked a))
  /\ NotryApp.store (NotryApp.action_toggle_mark a) = NotryApp.store a
  /\ NotryApp.matches (NotryApp.action_toggle_mark a) = NotryApp.matches a
  /\ NotryApp.snips (NotryApp.action_toggle_mark a) = NotryApp.snips a.
Proof.
  intros Hm Hc. unfold NotryApp.action_toggle_mark. rewrite Hm, Hc.
  set (a1 := NotryApp._refresh_results
               (NotryApp.set_marked (NotryApp.toggle nid (NotryApp.marked a)) a)).
  assert (H1 : NotryApp.marked a1 = NotryApp.toggle nid (NotryApp.marked a)) by reflexivity.
  assert (H2 : NotryApp.store a1 = NotryApp.store a) by reflexivity.
  assert (H3 : NotryApp.matches a1 = NotryApp.matches a) by reflexivity.
  assert (H4 : NotryApp.snips a1 = NotryApp.snips a) by reflexivity.
  cbv zeta.
  destruct (ResultsList.index (NotryApp.results a)) as [i|];
    [destruct (ResultsList.children (NotryApp.results a1)) as [|c cs]|];
    cbn [NotryApp.marked NotryApp.store NotryApp.matches NotryApp.snips
           NotryApp.set_results];
    rewrite H1; repeat split; try apply toggle_spec; assumption.
Qed.

Lemma toggle_mark_flips_current_witness :
  NotryApp.mode demo_app = NotryApp.SEARCH
  /\ ResultsList.current_note_id (NotryApp.results demo_app) = Some 1
  /\ NotryApp.store (NotryApp.action_toggle_mark demo_app) = NotryApp.store demo_app.
Proof.
  split; [reflexivity|]. split; [reflexivity|].
  apply (toggle_mark_flips_current demo_app 1); reflexivity.
Defined.

(** X15. In SEARCH mode mark-all adds the ids of the current matches to
    the marked set and drops none, and clear-marks empties it; neither
    touches the store. *)
Theorem mark_all_and_clear (a : NotryApp.t) :
  NotryApp.mode a = NotryApp.SEARCH ->
  NotryApp.marked (NotryApp.action_mark_all a)
  = NotryApp.marked a ∪ list_to_set (NotryApp.matches a)
  /\ NotryApp.marked (NotryApp.action_clear_all_marks a) = ∅
  /\ NotryApp.store (NotryApp.action_mark_all a) = NotryApp.store a
  /\ NotryApp.store (NotryApp.action_clear_all_marks a) = NotryApp.store a.
Proof.
  intros Hm. unfold NotryApp.action_mark_all, NotryApp.action_clear_all_marks.
  rewrite Hm. repeat split.
  - destruct (NotryApp.matches a) as [|x l] eqn:E.
    + cbn. set_solver.
    + cbn [NotryApp.marked NotryApp.notify NotryApp._refresh_results
             NotryApp.set_results NotryApp.set_marked].
      apply add_all_union.
  - destruct (decide (NotryApp.marked a = ∅)) as [E|E]; [exact E|reflexivity].
  - now destruct (NotryApp.matches a).
  - now destruct (decide _).
Qed.

Lemma mark_all_and_clear_witness :
  NotryApp.mode seeded_marked = NotryApp.SEARCH
  /\ NotryApp.marked (NotryApp.action_clear_all_marks seeded_marked) = ∅.
Proof.
  split; [reflexivity|].
  apply (mark_all_and_clear seeded_marked). reflexivity.
Defined.

(** ** Editing *)

Section EditFacts.
Import NotryApp.

Lemma hide_editor_frame (a : t) :
  editing_note_id (hide_editor a) = editing_note_id a
  /\ original_body (hide_editor a) = original_body a
  /\ results (hide_editor a) = results a
  /\ matches (hide_editor a) = matches a.
Proof.
  unfold hide_editor. destruct (_HAS_TEXTAREA a); [|now repeat split].
  destruct (_editor a); now repeat split.
Qed.

Lemma mode_back_search (a : t) : mode a = SEARCH -> mode (action_mode_back a) = SEARCH.
Proof. intros H. unfold action_mode_back. now rewrite H. Qed.

Lemma mode_back_clean (a : t) :
  mode a = EDIT -> unsaved_changes a = false ->
  mode (action_mode_back a) = SEARCH /\ store (action_mode_back a) = store a.
Proof.
  intros Hm Hu. unfold action_mode_back. rewrite Hm, Hu.
  cbn [mode store set_focus refresh_search _refresh_results set_results set_matches
         set_preview_display].
  now rewrite hide_editor_mode, hide_editor_store.
Qed.

End EditFacts.

(** X16. The quit command ([q] or [quit], in any letter case) typed while
    a note is being edited leaves EDIT mode whatever the editor holds: the
    session is in SEARCH mode with no note under edit and an empty baseline,
    and neither the store nor the marked set has changed.  The editor is
    hidden with its text left in place. *)
Theorem quit_command_discards_edit (cmdline tok : string) (a : NotryApp.t) :
  NotryApp.mode a = NotryApp.EDIT ->
  Text.first_token cmdline = Some tok ->
  Text.lower tok = "q" \/ Text.lower tok = "quit" ->
  NotryApp.mode (NotryApp._run_command cmdline a) = NotryApp.SEARCH
  /\ NotryApp.editing_note_id (NotryApp._run_command cmdline a) = None
  /\ NotryApp.original_body (NotryApp._run_command cmdline a) = ""
  /\ NotryApp.store (NotryApp._run_command cmdline a) = NotryApp.store a
  /\ NotryApp.marked (NotryApp._run_command cmdline a) = NotryApp.marked a
  /\ (forall ed, NotryApp._HAS_TEXTAREA a = true -> NotryApp.editor a = Some ed ->
        NotryApp.editor (NotryApp._run_command cmdline a)
        = Some (NotryApp.mkTextArea (NotryApp.text ed) false)).
Proof.
  intros Hm Ht Hq. unfold NotryApp._run_command. rewrite Ht. cbv zeta.
  assert (E : String.eqb (Text.lower tok) "quit" || String.eqb (Text.lower tok) "q" = true)
    by (destruct Hq as [-> | ->]; reflexivity).
  rewrite E, Hm.
  cbn [NotryApp.mode NotryApp.editing_note_id NotryApp.original_body NotryApp.store
         NotryApp.marked NotryApp.notify NotryApp.set_focus NotryApp.set_preview_display].
  rewrite hide_editor_mode, hide_editor_store, hide_editor_marked.
  destruct (hide_editor_frame
              (NotryApp.set_original_body ""
                 (NotryApp.set_editing_note_id None (NotryApp.set_mode NotryApp.SEARCH a))))
    as (-> & -> & _).
  repeat split.
  intros ed Hh He. unfold NotryApp.hide_editor, NotryApp._editor.
  cbn. now rewrite Hh, He.
Qed.

Lemma quit_command_discards_edit_witness :
  NotryApp.mode demo_editing = NotryApp.EDIT
  /\ Text.first_token "Quit now" = Some "Quit"
  /\ NotryApp.mode (NotryApp._run_command "Quit now" demo_editing) = NotryApp.SEARCH.
Proof.
  split; [reflexivity|]. split; [reflexivity|].
  apply (quit_command_discards_edit "Quit now" "Quit" demo_editing);
    [reflexivity|reflexivity|right; reflexivity].
Defined.

(** X17. Saving in EDIT mode writes the editor text as the body of the
    note under edit, keeps its title and [created_at], stamps [updated_at],
    and touches no other note; the saved text becomes the baseline, so the
    session stays in EDIT mode with nothing unsaved and the next escape
    returns to SEARCH. *)
Theorem save_then_escape (now : string) (a : NotryApp.t) (ed : NotryApp.TextArea)
    (nid : Z) (t0 b0 c0 u0 : string) :
  NotryApp.mode a = NotryApp.EDIT ->
  NotryApp._HAS_TEXTAREA a = true ->
  NotryApp.editor a = Some ed ->
  NotryApp.editing_note_id a = Some nid ->
  NoteStore.get (NotryApp.store a) nid = Some (nid, t0, b0, c0, u0) ->
  NoteStore.get (NotryApp.store (NotryApp.action_save_edit now a)) nid
  = Some (nid, t0, NotryApp.text ed, c0, now)
  /\ (forall i, i <> nid ->
        NoteStore.get (NotryApp.store (NotryApp.action_save_edit now a)) i
        = NoteStore.get (NotryApp.store a) i)
  /\ NoteStore.count (NotryApp.store (NotryApp.action_save_edit now a))
     = NoteStore.count (NotryApp.store a)
  /\ NotryApp.mode (NotryApp.action_save_edit now a) = NotryApp.EDIT
  /\ NotryApp.editor (NotryApp.action_save_edit now a) = Some ed
  /\ NotryApp.original_body (NotryApp.action_save_edit now a) = NotryApp.text ed
  /\ NotryApp.mode (NotryApp.action_mode_back (NotryApp.action_save_edit now a))
     = NotryApp.SEARCH.
Proof.
  intros Hm Hh He Hn Hg.
  assert (E : NotryApp.action_save_edit now a
              = NotryApp.refresh_search (NotryApp.search_value a)
                  (NotryApp.notify (NotryApp.Saved nid) NotryApp.information
                     (NotryApp.set_original_body (NotryApp.text ed)
                        (NotryApp.set_store
                           (NoteStore.upsert now (NotryApp.store a) t0 (NotryApp.text ed)
                              (Some nid) None).1 a)))).
  { unfold NotryApp.action_save_edit, NotryApp._editor.
    now rewrite Hm, Hh, Hn, He, Hg. }
  rewrite E.
  cbn [NotryApp.store NotryApp.mode NotryApp.editor NotryApp.original_body
         NotryApp.refresh_search NotryApp._refresh_results NotryApp.set_results
         NotryApp.set_matches NotryApp.notify NotryApp.set_original_body
         NotryApp.set_store].
  split; [|split; [|split; [|split; [|split; [|split]]]]].
  - rewrite get_after_update, Hg. now rewrite Z.eqb_refl.
  - intros i Hi. rewrite get_after_update.
    destruct (NoteStore.get (NotryApp.store a) i) as [[[[[j t1] b1] c1] u1]|];
      [|reflexivity].
    destruct (Z.eqb_spec i nid); [contradiction|reflexivity].
  - unfold NoteStore.count. simpl. now rewrite length_map.
  - exact Hm.
  - exact He.
  - reflexivity.
  - rewrite <- E. apply mode_back_clean.
    + rewrite E. exact Hm.
    + rewrite E. unfold NotryApp.unsaved_changes, NotryApp._editor.
      cbn [NotryApp._HAS_TEXTAREA NotryApp.editor NotryApp.original_body
             NotryApp.refresh_search NotryApp._refresh_results NotryApp.set_results
             NotryApp.set_matches NotryApp.notify NotryApp.set_original_body
             NotryApp.set_store].
      rewrite Hh, He. now rewrite String.eqb_refl.
Qed.

Lemma save_then_escape_witness :
  NoteStore.get (NotryApp.store demo_editing) 2
  = Some (2, "X", "", "2025-03-03T08:00:01+00:00", "2025-03-03T08:00:01+00:00")
  /\ NoteStore.get
       (NotryApp.store (NotryApp.action_save_edit "2025-03-03T08:05:00+00:00" demo_editing)) 2
     = Some (2, "X", "draft", "2025-03-03T08:00:01+00:00", "2025-03-03T08:05:00+00:00").
Proof.
  split; [reflexivity|].
  apply (save_then_escape "2025-03-03T08:05:00+00:00" demo_editing
           (NotryApp.mkTextArea "draft" true) 2 "X" ""
           "2025-03-03T08:00:01+00:00" "2025-03-03T08:00:01+00:00"); reflexivity.
Defined.

(** X18. Opening a note from SEARCH mode and pressing escape writes
    nothing, whatever text the editor shows after the opening: the store and
    the marked set are as before.  When the note and the editor exist the
    session is in EDIT mode on that note with the stored body as baseline,
    and the escape returns to SEARCH exactly when the editor shows that body;
    when the note is missing the session never left SEARCH. *)
Theorem open_then_escape (nid : Z) (shown : string) (a : NotryApp.t) :
  NotryApp.mode a = NotryApp.SEARCH ->
  NotryApp.store
    (NotryApp.action_mode_back
       (NotryApp.editor_changed shown (NotryApp._enter_edit nid a)))
  = NotryApp.store a
  /\ NotryApp.marked
       (NotryApp.action_mode_back
          (NotryApp.editor_changed shown (NotryApp._enter_edit nid a)))
     = NotryApp.marked a
  /\ (forall title body created updated ed,
        NoteStore.get (NotryApp.store a) nid = Some (nid, title, body, created, updated) ->
        NotryApp._HAS_TEXTAREA a = true -> NotryApp.editor a = Some ed ->
        NotryApp.mode (NotryApp._enter_edit nid a) = NotryApp.EDIT
        /\ NotryApp.editing_note_id (NotryApp._enter_edit nid a) = Some nid
        /\ NotryApp.original_body (NotryApp._enter_edit nid a) = body
        /\ (NotryApp.mode
              (NotryApp.action_mode_back
                 (NotryApp.editor_changed shown (NotryApp._enter_edit nid a)))
            = NotryApp.SEARCH
            <-> shown = body))
  /\ (NoteStore.get (NotryApp.store a) nid = None ->
      NotryApp.mode
        (NotryApp.action_mode_back
           (NotryApp.editor_changed shown (NotryApp._enter_edit nid a)))
      = NotryApp.SEARCH).
Proof.
  intros Hm.
  set (a1 := NotryApp.editor_changed shown (NotryApp._enter_edit nid a)).
  assert (Hs1 : NotryApp.store a1 = NotryApp.store a).
  { unfold a1, NotryApp.editor_changed.
    destruct (NotryApp.editor (NotryApp._enter_edit nid a)); apply enter_edit_store. }
  assert (Hk1 : NotryApp.marked a1 = NotryApp.marked a).
  { unfold a1, NotryApp.editor_changed.
    destruct (NotryApp.editor (NotryApp._enter_edit nid a)); apply enter_edit_marked. }
  split; [|split; [|split]].
  - rewrite <- Hs1. unfold NotryApp.action_mode_back.
    destruct (NotryApp.mode a1); [reflexivity|].
    destruct (NotryApp.unsaved_changes a1); [reflexivity|].
    cbn [NotryApp.store NotryApp.set_focus NotryApp.refresh_search
           NotryApp._refresh_results NotryApp.set_results NotryApp.set_matches
           NotryApp.set_preview_display].
    now rewrite hide_editor_store.
  - now rewrite mode_back_marked.
  - intros title body created updated ed Hg Hh He.
    assert (E : NotryApp._enter_edit nid a
                = NotryApp.notify (NotryApp.EditModeEntered title) NotryApp.information
                    (NotryApp.set_focus NotryApp.OnEditor
                       (NotryApp.set_editor (Some (NotryApp.mkTextArea body true))
                          (NotryApp.set_preview_display false
                             (NotryApp.set_original_body body
                                (NotryApp.set_editing_note_id (Some nid)
                                   (NotryApp.set_mode NotryApp.EDIT a))))))).
    { unfold NotryApp._enter_edit, NotryApp._editor. now rewrite Hg, Hh, He. }
    split; [now rewrite E|]. split; [now rewrite E|]. split; [now rewrite E|].
    assert (Hm1 : NotryApp.mode a1 = NotryApp.EDIT)
      by (unfold a1; rewrite E; reflexivity).
    assert (Hu : NotryApp.unsaved_changes a1 = negb (String.eqb shown body)).
    { unfold a1. rewrite E. unfold NotryApp.unsaved_changes, NotryApp._editor.
      cbn. now rewrite Hh. }
    destruct (String.eqb_spec shown body) as [Eq|Ne]; cbn [negb] in Hu.
    + split; [intros _; exact Eq|intros _]. now apply mode_back_clean.
    + split; [|intros Eq; now destruct Ne].
      unfold NotryApp.action_mode_back. rewrite Hm1, Hu.
      cbn [NotryApp.mode NotryApp.notify]. rewrite Hm1. discriminate.
  - intros Hg. apply mode_back_search. unfold a1, NotryApp.editor_changed.
    assert (E : NotryApp._enter_edit nid a
                = NotryApp.notify (NotryApp.NoteNotFound nid) NotryApp.warning a)
      by (unfold NotryApp._enter_edit; now rewrite Hg).
    rewrite E. cbn [NotryApp.editor NotryApp.notify].
    now destruct (NotryApp.editor a).
Qed.

Lemma open_then_escape_witness :
  NotryApp.mode demo_app = NotryApp.SEARCH
  /\ NotryApp.store
       (NotryApp.action_mode_back
          (NotryApp.editor_changed "Alpha" (NotryApp._enter_edit 1 demo_app)))
     = NotryApp.store demo_app.
Proof.
  split; [reflexivity|].
  apply (open_then_escape 1 "Alpha" demo_app). reflexivity.
Defined.

(** X19. Enter on a non-blank query that no note matches, with the focus
    outside the results list, creates a note: its title is the stripped
    query, its body is empty, it takes the next free id, and every other
    note reads as before.  With an editor present the session then edits
    the new note, starting from an empty baseline. *)
Theorem open_or_edit_creates_note (now : string) (a : NotryApp.t) :
  NotryApp.mode a = NotryApp.SEARCH ->
  NotryApp.focused a <> NotryApp.OnResults ->
  Text.is_empty (Text.strip (NotryApp.search_value a)) = false ->
  NoteStore.search (NotryApp.store a) (Text.strip (NotryApp.search_value a)) 1 = [] ->
  NoteStore.get (NotryApp.store (NotryApp.action_open_or_edit now a))
    (NoteStore.next_rowid (NotryApp.store a))
  = Some (NoteStore.next_rowid (NotryApp.store a),
          Text.strip (NotryApp.search_value a), "", now, now)
  /\ NoteStore.get (NotryApp.store a) (NoteStore.next_rowid (NotryApp.store a)) = None
  /\ NoteStore.count (NotryApp.store (NotryApp.action_open_or_edit now a))
     = NoteStore.count (NotryApp.store a) + 1
  /\ (forall i, i <> NoteStore.next_rowid (NotryApp.store a) ->
        NoteStore.get (NotryApp.store (NotryApp.action_open_or_edit now a)) i
        = NoteStore.get (NotryApp.store a) i)
  /\ (NotryApp._HAS_TEXTAREA a = true -> is_Some (NotryApp.editor a) ->
      NotryApp.mode (NotryApp.action_open_or_edit now a) = NotryApp.EDIT
      /\ NotryApp.editing_note_id (NotryApp.action_open_or_edit now a)
         = Some (NoteStore.next_rowid (NotryApp.store a))
      /\ NotryApp.original_body (NotryApp.action_open_or_edit now a) = ""
      /\ NotryApp.unsaved_changes (NotryApp.action_open_or_edit now a) = false).
Proof.
  intros Hm Hf Hq Hs.
  set (q := Text.strip (NotryApp.search_value a)) in *.
  set (s' := (NoteStore.upsert now (NotryApp.store a) q "" None None).1).
  set (nid := NoteStore.next_rowid (NotryApp.store a)).
  assert (E : NotryApp.action_open_or_edit now a
              = NotryApp._enter_edit nid
                  (NotryApp.refresh_search q (NotryApp.set_store s' a))).
  { unfold NotryApp.action_open_or_edit. rewrite Hm. cbv zeta. fold q.
    rewrite Hq, Hs. cbn [negb].
    destruct (NotryApp.focused a); try contradiction;
      now destruct (ResultsList.current_note_id (NotryApp.results a)). }
  destruct (upsert_insert_facts now (NotryApp.store a) q "" None)
    as (Hc & _ & Hnone & Hget & _ & Hold).
  cbv zeta in Hc, Hnone, Hget, Hold. fold s' in Hc, Hget, Hold.
  change (NoteStore.upsert now (NotryApp.store a) q "" None None).2 with nid
    in Hnone, Hget, Hold.
  assert (Es : NotryApp.store (NotryApp.action_open_or_edit now a) = s')
    by (rewrite E, enter_edit_store; reflexivity).
  rewrite Es. split; [exact Hget|]. split; [exact Hnone|]. split; [exact Hc|].
  split; [exact Hold|].
  intros Hh [ed He]. rewrite E. unfold NotryApp._enter_edit at 1 2 3 4.
  change (NotryApp.store (NotryApp.refresh_search q (NotryApp.set_store s' a))) with s'.
  rewrite Hget.
  change (NotryApp._HAS_TEXTAREA (NotryApp.refresh_search q (NotryApp.set_store s' a)))
    with (NotryApp._HAS_TEXTAREA a).
  rewrite Hh. cbn [negb]. unfold NotryApp._editor.
  change (NotryApp._HAS_TEXTAREA (NotryApp.refresh_search q (NotryApp.set_store s' a)))
    with (NotryApp._HAS_TEXTAREA a).
  change (NotryApp.editor (NotryApp.refresh_search q (NotryApp.set_store s' a)))
    with (NotryApp.editor a).
  rewrite Hh, He. repeat split.
  unfold NotryApp.unsaved_changes, NotryApp._editor. cbn.
  now rewrite Hh.
Qed.

Lemma open_or_edit_creates_note_witness :
  NoteStore.get
    (NotryApp.store
       (NotryApp.action_open_or_edit "2025-03-03T08:00:01+00:00"
          (NotryApp.on_input_changed "X" demo_app))) 2
  = Some (2, "X", "", "2025-03-03T08:00:01+00:00", "2025-03-03T08:00:01+00:00").
Proof.
  apply (open_or_edit_creates_note "2025-03-03T08:00:01+00:00"
           (NotryApp.on_input_changed "X" demo_app));
    [reflexivity|discriminate|reflexivity|reflexivity].
Defined.

(** ** Browse, export and import from the session *)

Section BrowseFacts.
Import NotryApp.

Lemma browse_press_cards (ab : t * BrowseScreen.screen) (k : BrowseScreen.Key) :
  BrowseScreen.cards (BrowseScreen.press ab k).2 = BrowseScreen.cards ab.2.
Proof.
  destruct ab as [a b], k; simpl.
  - destruct (BrowseScreen.focused_card b); [|reflexivity].
    now destruct (_ <? _)%nat.
  - reflexivity.
  - reflexivity.
  - now destruct (_ <? _)%nat.
  - now destruct (_ <? _)%nat.
Qed.

Lemma browse_keys_cards (keys : list BrowseScreen.Key) (ab : t * BrowseScreen.screen) :
  BrowseScreen.cards (fold_left BrowseScreen.press keys ab).2 = BrowseScreen.cards ab.2.
Proof.
  revert ab. induction keys as [|k keys IH]; intros ab; simpl; [reflexivity|].
  now rewrite IH, browse_press_cards.
Qed.

Lemma sorted_filter (p : Z -> bool) (l : list Z) :
  StronglySorted Z.le l -> StronglySorted Z.le (List.filter p l).
Proof.
  induction 1 as [|x l Hs IH Hx]; simpl; [constructor|].
  destruct (p x); [|exact IH]. constructor; [exact IH|].
  apply List.Forall_forall. intros y Hy. apply filter_In in Hy as [Hy _].
  now apply (proj1 (List.Forall_forall _ _) Hx).
Qed.

Lemma mount_cards (s : NoteStore.t) (m : gset Z) (nid : Z) :
  In nid (BrowseScreen.cards (BrowseScreen.on_mount s m))
  <-> nid ∈ m /\ is_Some (NoteStore.get s nid).
Proof.
  unfold BrowseScreen.on_mount. cbn [BrowseScreen.cards].
  rewrite filter_In, bool_decide_eq_true, <- list_elem_of_In.
  rewrite merge_sort_Permutation, elem_of_elements. reflexivity.
Qed.

End BrowseFacts.

(** X20. While the Browse screen is up its cards stay the ones it was
    opened with: the marked ids that resolve to a note, in ascending order,
    whatever is marked or unmarked meanwhile.  So the note it hands back on
    select was marked when the screen opened and exists, and no key of the
    screen changes the store. *)
Theorem browse_cards_are_marked_at_open (keys : list NotryApp.BrowseScreen.Key)
    (a a' : NotryApp.t) (b : NotryApp.BrowseScreen.screen) :
  fold_left NotryApp.BrowseScreen.press keys
    (a, NotryApp.BrowseScreen.on_mount (NotryApp.store a) (NotryApp.marked a)) = (a', b) ->
  (forall nid, In nid (NotryApp.BrowseScreen.cards b)
               <-> nid ∈ NotryApp.marked a /\ is_Some (NoteStore.get (NotryApp.store a) nid))
  /\ StronglySorted Z.le (NotryApp.BrowseScreen.cards b)
  /\ (forall nid, NotryApp.BrowseScreen.result b NotryApp.BrowseScreen.select = Some nid ->
        nid ∈ NotryApp.marked a /\ is_Some (NoteStore.get (NotryApp.store a) nid))
  /\ NotryApp.BrowseScreen.result b NotryApp.BrowseScreen.cancel = None
  /\ NotryApp.store a' = NotryApp.store a.
Proof.
  intros H.
  assert (Hc : NotryApp.BrowseScreen.cards b
               = NotryApp.BrowseScreen.cards
                   (NotryApp.BrowseScreen.on_mount (NotryApp.store a) (NotryApp.marked a))).
  { change b with (a', b).2. rewrite <- H. apply browse_keys_cards. }
  assert (Hin : forall nid, In nid (NotryApp.BrowseScreen.cards b)
                  <-> nid ∈ NotryApp.marked a
                      /\ is_Some (NoteStore.get (NotryApp.store a) nid)).
  { intros nid. rewrite Hc. apply mount_cards. }
  split; [exact Hin|]. split; [|split; [|split]].
  - rewrite Hc. unfold NotryApp.BrowseScreen.on_mount. cbn [NotryApp.BrowseScreen.cards].
    apply sorted_filter, StronglySorted_merge_sort; apply _.
  - intros nid Hr. apply Hin. simpl in Hr. unfold NotryApp.BrowseScreen.focused_card in Hr.
    now apply nth_error_In in Hr.
  - reflexivity.
  - change a' with (a', b).1. rewrite <- H. apply browse_keys_store.
Qed.

Lemma browse_cards_are_marked_at_open_witness :
  NotryApp.BrowseScreen.result
    (fold_left NotryApp.BrowseScreen.press
       [NotryApp.BrowseScreen.toggle_mark; NotryApp.BrowseScreen.clear_marks]
       (seeded_marked,
        NotryApp.BrowseScreen.on_mount (NotryApp.store seeded_marked)
          (NotryApp.marked seeded_marked))).2
    NotryApp.BrowseScreen.select = Some 3
  /\ 3 ∈ NotryApp.marked seeded_marked.
Proof.
  split; [vm_compute; reflexivity|].
  destruct (browse_cards_are_marked_at_open
              [NotryApp.BrowseScreen.toggle_mark; NotryApp.BrowseScreen.clear_marks]
              seeded_marked _ _ (surjective_pairing _)) as (_ & _ & Hr & _).
  apply (Hr 3). vm_compute. reflexivity.
Defined.

(** X21. Export from the session never changes the store or the marked
    set and writes only files of marked notes: one file per marked id that
    resolves, no name twice, all below the export directory; nothing is
    written when no note is marked or the downloads directory is missing. *)
Theorem session_export_writes_marked_notes (downloads_exists : bool) (export_dir : string)
    (a : NotryApp.t) :
  NotryApp.store (NotryApp.action_export_notes downloads_exists export_dir a)
  = NotryApp.store a
  /\ NotryApp.marked (NotryApp.action_export_notes downloads_exists export_dir a)
     = NotryApp.marked a
  /\ exists files,
       NotryApp.disk (NotryApp.action_export_notes downloads_exists export_dir a)
       = (NotryApp.disk a ++ map (fun f => (export_dir, f.1, f.2)) files)%list
       /\ (forall f, In f files ->
             exists nid title body created updated,
               nid ∈ NotryApp.marked a
               /\ NoteStore.get (NotryApp.store a) nid
                  = Some (nid, title, body, created, updated)
               /\ f = (NoteStore.file_name nid title,
                       NoteStore.file_text title body created updated))
       /\ NoDup (map fst files)
       /\ length files
          = (if downloads_exists
             then size (NotryApp.marked a ∩ existing_ids (NotryApp.store a))
             else 0%nat).
Proof.
  unfold NotryApp.action_export_notes.
  destruct (decide (NotryApp.marked a = ∅)) as [E|E].
  { split; [reflexivity|]. split; [reflexivity|]. exists []. cbn.
    rewrite app_nil_r. split; [reflexivity|]. split; [intros f []|].
    split; [constructor|]. rewrite E.
    destruct downloads_exists; [|reflexivity].
    now rewrite intersection_empty_l_L, size_empty. }
  destruct downloads_exists; cbn [negb].
  2:{ split; [reflexivity|]. split; [reflexivity|]. exists []. cbn.
      rewrite app_nil_r. split; [reflexivity|]. split; [intros f []|].
      split; [constructor|reflexivity]. }
  assert (Hne : elements (NotryApp.marked a) <> []).
  { intros H. apply E. now apply elements_empty_inv, leibniz_equiv in H. }
  rewrite (export_ids _ _ Hne).
  split; [reflexivity|]. split; [reflexivity|].
  exists (map file_of
            (NoteStore.found_rows
               (map (NoteStore.get (NotryApp.store a)) (elements (NotryApp.marked a))))).
  split; [reflexivity|]. split; [|split].
  - intros f Hf. apply in_map_iff in Hf as (r & <- & Hr).
    apply resolved_in in Hr as (i & Hi & Hg).
    destruct (get_some_id _ _ _ Hg) as (t1 & b1 & c1 & u1 & ->).
    exists i, t1, b1, c1, u1. split; [|split; [exact Hg|reflexivity]].
    now apply list_elem_of_In, elem_of_elements in Hi.
  - apply resolved_names_NoDup, NoDup_elements.
  - rewrite length_map, resolved_length, inter_size by apply NoDup_elements.
    now rewrite list_to_set_elements_L.
Qed.

Section SessionImportFacts.
Import NoteStore.

Lemma import_selected_facts (now : string) (files : list Path) :
  forall (s : t) (imp skip : Z) (ids : list Z) (s' : t) (imp' skip' : Z) (ids' : list Z),
    NotryApp.import_selected now s files imp skip ids = (s', Some (imp', skip', ids')) ->
    imp' + skip' = imp + skip + Z.of_nat (length files)
    /\ count s' = count s + (imp' - imp)
    /\ imp <= imp' /\ skip <= skip'
    /\ (forall i, is_Some (get s i) -> get s' i = get s i)
    /\ exists new,
         ids' = (ids ++ new)%list
         /\ Z.of_nat (length new) = imp' - imp
         /\ forall m, In m new -> get s m = None /\ is_Some (get s' m).
Proof.
  induction files as [|p files IH]; intros s imp skip ids s' imp' skip' ids'; simpl.
  - intros [= <- <- <- <-]. repeat split; try lia; auto.
    exists []. rewrite app_nil_r. split; [reflexivity|]. split; [simpl; lia|]. intros x [].
  - destruct (import_text_file now s p) as [[s1 [[a b] n]]|] eqn:E; [|discriminate].
    intros H. apply IH in H as (Ht & Hc & Hi & Hs & Hold & new & Hids & Hlen & Hnew).
    apply import_extends in E as (Hold1 & Hn & Hcase).
    assert (Hold' : forall i, is_Some (get s i) -> get s' i = get s i).
    { intros i Hi'. rewrite <- (Hold1 i Hi'). apply Hold. now rewrite (Hold1 i Hi'). }
    assert (Hfresh : forall m, In m new -> get s m = None).
    { intros m Hm. destruct (Hnew m Hm) as [Hm1 _].
      destruct (get s m) eqn:G; [|reflexivity].
      rewrite Hold1 in Hm1 by eauto. congruence. }
    destruct Hcase as [(-> & -> & Hc1 & [m ->])|(-> & -> & -> & ->)].
    + split; [rewrite Ht, Nat2Z.inj_succ; lia|]. split; [lia|].
      split; [lia|]. split; [lia|]. split; [exact Hold'|].
      exists (m :: new). split; [now rewrite Hids, <- app_assoc|].
      split; [simpl length; rewrite Nat2Z.inj_succ; lia|].
      intros x [<-|Hx].
      * destruct (Hn m eq_refl) as [Hm1 Hm2]. split; [exact Hm1|].
        now rewrite (Hold m Hm2).
      * split; [now apply Hfresh|now apply Hnew].
    + split; [rewrite Ht, Nat2Z.inj_succ; lia|]. split; [lia|].
      split; [lia|]. split; [lia|]. split; [exact Hold'|].
      exists new. split; [exact Hids|]. split; [lia|]. exact Hnew.
Qed.


Lemma import_selected_keeps (now : string) (files : list Path) :
  forall (s : t) (imp skip : Z) (ids : list Z),
    count s <= count (NotryApp.import_selected now s files imp skip ids).1
    /\ forall i, is_Some (get s i) ->
         get (NotryApp.import_selected now s files imp skip ids).1 i = get s i.
Proof.
  induction files as [|p files IH]; intros s imp skip ids; simpl; [split; [lia|auto]|].
  destruct (import_text_file now s p) as [[s1 [[a b] n]]|] eqn:E; [|split; [simpl; lia|auto]].
  apply import_extends in E as (Hold1 & _ & Hcase).
  destruct (IH s1 (imp + a) (skip + b)
              (match n with Some nid => ids ++ [nid] | None => ids end)%list) as [Hc Hold].
  split.
  - destruct Hcase as [(_ & _ & Hc1 & _)|(_ & _ & -> & _)]; lia.
  - intros i Hi. rewrite <- (Hold1 i Hi). apply Hold. now rewrite (Hold1 i Hi).
Qed.

End SessionImportFacts.

(** X22. When the import loop of the session runs through, with no file
    raising, each file was taken as new or as a duplicate, one note was added
    per new file, and exactly those notes are marked on top of the marks
    there were; the new ids were free before, the earlier notes read as
    before, the search input is cleared and the list shows the newest
    notes. *)
Theorem session_import_marks_new_notes (now : string) (files : list NoteStore.Path)
    (a : NotryApp.t) (s' : NoteStore.t) (imported skipped : Z) (ids : list Z) :
  files <> [] ->
  NotryApp.import_selected now (NotryApp.store a) files 0 0 []
  = (s', Some (imported, skipped, ids)) ->
  NotryApp.store (NotryApp._do_import now (Some files) a) = s'
  /\ NotryApp.marked (NotryApp._do_import now (Some files) a)
     = NotryApp.marked a ∪ list_to_set ids
  /\ NotryApp.search_value (NotryApp._do_import now (Some files) a) = ""
  /\ NotryApp.matches (NotryApp._do_import now (Some files) a)
     = map fst (NoteStore.search s' "" (Z.of_nat NotryApp.max_rows))
  /\ imported + skipped = Z.of_nat (length files)
  /\ 0 <= imported /\ 0 <= skipped
  /\ NoteStore.count s' = NoteStore.count (NotryApp.store a) + imported
  /\ Z.of_nat (length ids) = imported
  /\ (forall m, In m ids ->
        NoteStore.get (NotryApp.store a) m = None /\ is_Some (NoteStore.get s' m))
  /\ (forall i, is_Some (NoteStore.get (NotryApp.store a) i) ->
        NoteStore.get s' i = NoteStore.get (NotryApp.store a) i).
Proof.
  intros Hne H.
  destruct (import_selected_facts now files _ _ _ _ _ _ _ _ H)
    as (Ht & Hc & Hi & Hs & Hold & new & Hids & Hlen & Hnew).
  simpl in Hids. subst new.
  assert (E : NotryApp._do_import now (Some files) a
              = let a1 := NotryApp.refresh_search ""
                            (NotryApp.set_search_value ""
                               (NotryApp.set_marked
                                  (NotryApp.add_all ids (NotryApp.marked a))
                                  (NotryApp.set_store s' a))) in
                if 0 <? skipped
                then NotryApp.notify (NotryApp.ImportedAndSkipped imported skipped)
                       NotryApp.information a1
                else NotryApp.notify (NotryApp.Imported imported) NotryApp.information a1).
  { unfold NotryApp._do_import. destruct files as [|p files]; [contradiction|].
    now rewrite H. }
  rewrite E. cbv zeta.
  split; [now destruct (0 <? skipped)|].
  split; [destruct (0 <? skipped); apply add_all_union|].
  split; [now destruct (0 <? skipped)|].
  split; [now destruct (0 <? skipped)|].
  repeat split; try lia; try apply Hnew; auto.
Qed.

Lemma session_import_marks_new_notes_witness :
  NotryApp.marked
    (NotryApp._do_import "2025-03-04T08:00:00+00:00" (Some [demo_file; demo_file]) demo_app)
  = NotryApp.marked demo_app ∪ list_to_set [2].
Proof.
  apply (session_import_marks_new_notes "2025-03-04T08:00:00+00:00" [demo_file; demo_file]
           demo_app
           (NotryApp.import_selected "2025-03-04T08:00:00+00:00" (NotryApp.store demo_app)
              [demo_file; demo_file] 0 0 []).1 1 1 [2]);
    [discriminate|vm_compute; reflexivity].
Defined.



(** ** The matches name notes of the store *)

Section MatchesInvariant.
Import NotryApp.

Lemma matches_ok_frame (a b : t) :
  store b = store a -> matches b = matches a -> snips b = snips a ->
  matches_ok a -> matches_ok b.
Proof. unfold matches_ok. now intros -> -> ->. Qed.

Lemma search_length (s : NoteStore.t) (q : string) (limit : Z) :
  0 <= limit -> (length (NoteStore.search s q limit) <= Z.to_nat limit)%nat.
Proof.
  intros H. rewrite search_selected, length_map. unfold selected_rows.
  destruct (Text.is_empty _); rewrite limit_rows_nonneg by exact H;
    apply firstn_le_length.
Qed.

Lemma get_of_row (s : NoteStore.t) (r : NoteStore.Note) :
  In r (NoteStore.rows s) -> is_Some (NoteStore.get s (NoteStore.id r)).
Proof.
  intros Hr. destruct (NoteStore.get s (NoteStore.id r)) eqn:E; [eauto|].
  exfalso. now apply (find_none_no_row s (NoteStore.id r) E r Hr).
Qed.

Lemma search_ids_resolve (s : NoteStore.t) (q : string) (limit nid : Z) :
  In nid (map fst (NoteStore.search s q limit)) -> is_Some (NoteStore.get s nid).
Proof.
  rewrite search_selected, map_map. cbn [fst]. intros H.
  apply in_map_iff in H as (r & <- & Hr).
  apply get_of_row. now apply selected_in_rows in Hr.
Qed.

Lemma refresh_search_matches_ok (q : string) (a : t) : matches_ok (refresh_search q a).
Proof.
  unfold matches_ok, refresh_search.
  cbn [matches snips store set_matches _refresh_results set_results].
  split; [now rewrite !length_map|]. split.
  - rewrite length_map.
    etransitivity; [apply search_length; lia|]. now rewrite Nat2Z.id.
  - intros nid. apply search_ids_resolve.
Qed.

Lemma matches_ok_store (a b : t) :
  matches b = matches a -> snips b = snips a ->
  (forall i, is_Some (NoteStore.get (store a) i) ->
     NoteStore.get (store b) i = NoteStore.get (store a) i) ->
  matches_ok a -> matches_ok b.
Proof.
  unfold matches_ok. intros -> -> Hold (Hs & Hm & Hr).
  split; [exact Hs|]. split; [exact Hm|].
  intros nid Hn. rewrite (Hold nid (Hr nid Hn)). now apply Hr.
Qed.

Lemma enter_edit_matches_ok (nid : Z) (a : t) : matches_ok a -> matches_ok (_enter_edit nid a).
Proof.
  apply matches_ok_frame; unfold _enter_edit;
    destruct (NoteStore.get (store a) nid) as [[[[[j t1] b1] c1] u1]|]; try reflexivity;
    destruct (negb (_HAS_TEXTAREA a)); try reflexivity;
    destruct (_editor a); reflexivity.
Qed.

Lemma hide_editor_matches_ok (a : t) : matches_ok a -> matches_ok (hide_editor a).
Proof.
  apply matches_ok_frame; unfold hide_editor;
    destruct (_HAS_TEXTAREA a); try reflexivity; destruct (_editor a); reflexivity.
Qed.

Lemma open_or_edit_matches_ok (now : string) (a : t) :
  matches_ok a -> matches_ok (action_open_or_edit now a).
Proof.
  intros Ha. unfold action_open_or_edit. destruct (mode a); [|exact Ha].
  cbv zeta.
  assert (H : matches_ok
                (if negb (Text.is_empty (Text.strip (search_value a)))
                 then match NoteStore.search (store a) (Text.strip (search_value a)) 1 with
                      | [] =>
                          let '(s, nid) :=
                            NoteStore.upsert now (store a) (Text.strip (search_value a))
                              "" None None in
                          _enter_edit nid
                            (refresh_search (Text.strip (search_value a)) (set_store s a))
                      | (nid, _) :: _ => _enter_edit nid a
                      end
                 else match ResultsList.current_note_id (results a) with
                      | Some nid => _enter_edit nid a
                      | None => a
                      end)).
  { destruct (negb _).
    - destruct (NoteStore.search _ _ _) as [|[nid sn] l].
      + cbn. apply enter_edit_matches_ok, refresh_search_matches_ok.
      + now apply enter_edit_matches_ok.
    - destruct (ResultsList.current_note_id _); [now apply enter_edit_matches_ok|exact Ha]. }
  destruct (focused a); try exact H.
  destruct (ResultsList.current_note_id (results a)) eqn:E; [|exact H].
  now apply enter_edit_matches_ok.
Qed.

Lemma toggle_mark_matches_ok (a : t) : matches_ok a -> matches_ok (action_toggle_mark a).
Proof.
  intros Ha. unfold action_toggle_mark. destruct (mode a); [|exact Ha].
  destruct (ResultsList.current_note_id (results a)) as [nid|]; [|exact Ha].
  cbv zeta.
  destruct (ResultsList.index (results a)) as [i|]; [|exact Ha].
  destruct (ResultsList.children _) as [|c cs]; exact Ha.
Qed.

Lemma browse_press_list (ab : t * BrowseScreen.screen) (k : BrowseScreen.Key) :
  matches (BrowseScreen.press ab k).1 = matches ab.1
  /\ snips (BrowseScreen.press ab k).1 = snips ab.1.
Proof.
  destruct ab as [a b], k; simpl.
  - destruct (BrowseScreen.focused_card b); [|now split].
    now destruct (_ <? _)%nat.
  - now split.
  - now split.
  - now destruct (_ <? _)%nat.
  - now destruct (_ <? _)%nat.
Qed.

Lemma browse_keys_list (keys : list BrowseScreen.Key) (ab : t * BrowseScreen.screen) :
  matches (fold_left BrowseScreen.press keys ab).1 = matches ab.1
  /\ snips (fold_left BrowseScreen.press keys ab).1 = snips ab.1.
Proof.
  revert ab. induction keys as [|k keys IH]; intros ab; simpl; [now split|].
  destruct (IH (BrowseScreen.press ab k)) as [-> ->]. apply browse_press_list.
Qed.

Lemma browse_matches_ok (keys : list BrowseScreen.Key) (d : BrowseScreen.Dismiss) (a : t) :
  matches_ok a -> matches_ok (action_toggle_browse_mode keys d a).
Proof.
  intros Ha. unfold action_toggle_browse_mode. destruct (mode a); [|exact Ha].
  destruct (decide (marked a = ∅)); [exact Ha|].
  unfold _launch_browse_mode.
  destruct (browse_keys_list keys (a, BrowseScreen.on_mount (store a) (marked a)))
    as [Hm Hs].
  pose proof (browse_keys_store keys (a, BrowseScreen.on_mount (store a) (marked a))) as Hst.
  destruct (fold_left _ _ _) as [a1 b]. cbn [fst] in Hm, Hs, Hst.
  assert (H1 : matches_ok a1) by (revert Ha; now apply matches_ok_frame).
  destruct (BrowseScreen.result b d); [|exact H1].
  apply enter_edit_matches_ok. exact H1.
Qed.

Lemma do_import_matches_ok (now : string) (result : option (list NoteStore.Path)) (a : t) :
  matches_ok a -> matches_ok (_do_import now result a).
Proof.
  intros Ha. unfold _do_import. destruct result as [[|p files]|]; try exact Ha.
  destruct (import_selected_keeps now (p :: files) (store a) 0 0 []) as [_ Hold].
  destruct (import_selected now (store a) (p :: files) 0 0 []) as [s [[[imp skip] ids]|]].
  - cbv zeta.
    destruct (0 <? skip);
      (eapply matches_ok_frame; [..|apply refresh_search_matches_ok]; reflexivity).
  - revert Ha. apply matches_ok_store; [reflexivity|reflexivity|exact Hold].
Qed.

Lemma run_command_matches_ok (c : string) (a : t) :
  matches_ok a -> matches_ok (_run_command c a).
Proof.
  intros Ha. unfold _run_command. destruct (Text.first_token c); [|exact Ha].
  cbv zeta. destruct (_ || _).
  - destruct (mode a); [exact Ha|].
    eapply matches_ok_frame; [..|apply (hide_editor_matches_ok
       (set_original_body "" (set_editing_note_id None (set_mode SEARCH a))) Ha)];
      reflexivity.
  - now destruct (String.eqb _ _).
Qed.

Lemma step_matches_ok (now : string) (a : t) (i : Intent) :
  matches_ok a -> matches_ok (step now a i).
Proof.
  intros Ha.
  destruct i as [| | | | | | |keys d|result|dl dir| |txt| | |new_text|target]; cbn [step].
  - unfold action_mode_back. destruct (mode a); [exact Ha|].
    destruct (unsaved_changes a); [exact Ha|].
    eapply matches_ok_frame; [..|apply refresh_search_matches_ok]; reflexivity.
  - now apply open_or_edit_matches_ok.
  - now apply toggle_mark_matches_ok.
  - unfold action_clear_all_marks. destruct (mode a); [|exact Ha].
    now destruct (decide _).
  - unfold action_mark_all. destruct (mode a); [|exact Ha].
    now destruct (matches a) eqn:E.
  - unfold action_cursor_down. now destruct (mode a).
  - unfold action_cursor_up. now destruct (mode a).
  - now apply browse_matches_ok.
  - now apply do_import_matches_ok.
  - unfold action_export_notes. destruct (decide _); [exact Ha|].
    destruct (negb dl); [exact Ha|].
    now destruct (NoteStore.export_separate_files _ _).
  - unfold action_save_edit. destruct (mode a); [exact Ha|].
    destruct (negb _); [exact Ha|].
    destruct (editing_note_id a); [|exact Ha].
    destruct (_editor a); [|exact Ha].
    destruct (NoteStore.get _ _) as [[[[[j t1] b1] c1] u1]|]; [|exact Ha].
    apply refresh_search_matches_ok.
  - unfold on_input_changed. cbv zeta.
    destruct (Text.starts_with_colon txt); [exact Ha|].
    destruct (mode a) eqn:Em.
    + change (mode (set_search_value txt a)) with (mode a). rewrite Em.
      apply refresh_search_matches_ok.
    + change (mode (set_search_value txt a)) with (mode a). now rewrite Em.
  - unfold on_input_submitted. cbv zeta.
    destruct (Text.strip (search_value a)) as [|c r] eqn:E.
    + now apply open_or_edit_matches_ok.
    + assert (H : matches_ok (action_open_or_edit now a))
        by now apply open_or_edit_matches_ok.
      destruct c as [[] [] [] [] [] [] [] []]; try exact H.
      now apply run_command_matches_ok.
  - unfold on_list_view_selected. destruct (mode a); [|exact Ha].
    destruct (ResultsList.current_note_id _); [|exact Ha].
    now apply enter_edit_matches_ok.
  - unfold editor_changed. now destruct (editor a).
  - exact Ha.
Qed.

End MatchesInvariant.

(** X24. In every session a run can reach, there are as many snippets as
    matches, at most [max_rows] of them, and every match names a note of the
    store: a listed note is never missing, whatever was saved, created or
    imported since the list was made, also after an import that failed half
    way. *)
Theorem reachable_matches_resolve (a : NotryApp.t) :
  reachable a -> matches_ok a.
Proof.
  induction 1 as [s h|now a i _ IH].
  - unfold NotryApp.on_mount.
    eapply matches_ok_frame; [..|apply refresh_search_matches_ok]; reflexivity.
  - now apply step_matches_ok.
Qed.

Lemma reachable_matches_resolve_witness :
  reachable seeded_app /\ matches_ok seeded_app.
Proof.
  assert (H : reachable seeded_app) by apply reach_mount.
  split; [exact H|]. apply (reachable_matches_resolve seeded_app H).
Defined.

(** ** The import dialog *)

Section DialogFacts.
Import ImportDialog.

Lemma toggle_at_paths (idx : nat) (items : list FileItem) :
  map file_path (toggle_at idx items) = map file_path items.
Proof.
  revert idx. induction items as [|x items IH]; intros [|idx]; simpl; try reflexivity.
  now rewrite IH.
Qed.

Lemma press_listed (d : t) (k : Key) : listed_files (press d k) = listed_files d.
Proof.
  unfold listed_files. destruct k; simpl.
  - unfold action_toggle_selection. destruct (focused_file d); [|reflexivity].
    apply toggle_at_paths.
  - rewrite map_map. reflexivity.
  - rewrite map_map. reflexivity.
  - unfold action_cursor_down. destruct (all_items_length d); [reflexivity|].
    destruct (focused d); [|reflexivity]. now destruct (_ <? _)%nat.
  - unfold action_cursor_up. destruct (all_items_length d); [reflexivity|].
    destruct (focused d); [|reflexivity]. now destruct (_ <? _)%nat.
  - unfold action_go_top. now destruct (all_items_length d).
  - unfold action_go_bottom. now destruct (all_items_length d).
Qed.

Lemma keys_listed (keys : list Key) (d : t) :
  listed_files (fold_left press keys d) = listed_files d.
Proof.
  revert d. induction keys as [|k keys IH]; intros d; simpl; [reflexivity|].
  now rewrite IH, press_listed.
Qed.

Lemma refresh_listed (has_parent : bool) (entries : list NoteStore.DirEntry)
    (extensions : list string) :
  listed_files (refresh_file_list has_parent (Some entries) extensions)
  = Sql.order_by lower_name_le (List.filter (NoteStore.is_importable extensions) entries).
Proof.
  unfold listed_files, refresh_file_list. cbn [file_items].
  rewrite map_map. apply map_id.
Qed.

Lemma selected_in_listed (items : list FileItem) (p : NoteStore.DirEntry) :
  In p (map file_path (List.filter is_selected items)) -> In p (map file_path items).
Proof.
  rewrite !in_map_iff. intros (x & E & Hx). apply filter_In in Hx as [Hx _]. eauto.
Qed.

Lemma filter_all_selected {A : Type} (g : A -> NoteStore.DirEntry) (l : list A) :
  List.filter is_selected (map (fun x => mkFileItem (g x) true) l)
  = map (fun x => mkFileItem (g x) true) l.
Proof. induction l as [|x l IH]; simpl; [reflexivity|]. now rewrite IH. Qed.

Lemma filter_none_selected {A : Type} (g : A -> NoteStore.DirEntry) (l : list A) :
  List.filter is_selected (map (fun x => mkFileItem (g x) false) l) = [].
Proof. induction l as [|x l IH]; simpl; [reflexivity|exact IH]. Qed.

End DialogFacts.

(** X25. Whatever keys were pressed in the import dialog over a listing,
    the list it hands back on import is never empty and holds only entries
    of the listed directory that are files with one of the extensions. *)
Theorem import_dialog_returns_listed_files (has_parent : bool)
    (entries : list NoteStore.DirEntry) (extensions : list string)
    (keys : list ImportDialog.Key) (selected : list NoteStore.DirEntry) :
  ImportDialog.action_import_selected
    (fold_left ImportDialog.press keys
       (ImportDialog.refresh_file_list has_parent (Some entries) extensions))
  = Some selected ->
  selected <> []
  /\ forall p, In p selected ->
       In p entries /\ NoteStore.is_importable extensions p = true.
Proof.
  set (d := fold_left ImportDialog.press keys _).
  unfold ImportDialog.action_import_selected. cbv zeta.
  destruct (map ImportDialog.file_path
              (List.filter ImportDialog.is_selected (ImportDialog.file_items d)))
    as [|x l] eqn:E; [discriminate|].
  intros [= <-]. split; [discriminate|].
  intros p Hp. rewrite <- E in Hp. apply selected_in_listed in Hp.
  change (In p (listed_files d)) in Hp. unfold d in Hp.
  rewrite keys_listed, refresh_listed in Hp.
  apply (Permutation_in _ (order_by_Permutation ImportDialog.lower_name_le _)) in Hp.
  apply filter_In in Hp. exact Hp.
Qed.

Lemma import_dialog_returns_listed_files_witness :
  ImportDialog.action_import_selected
    (fold_left ImportDialog.press
       [ImportDialog.cursor_down; ImportDialog.toggle_selection_key]
       (ImportDialog.refresh_file_list true (Some demo_directory)
          NoteStore.default_extensions))
  = Some [nth 2 demo_directory (NoteStore.mkDirEntry (NoteStore.mkPath "" None) "" "" false false)]
  /\ NoteStore.is_importable NoteStore.default_extensions
       (nth 2 demo_directory
          (NoteStore.mkDirEntry (NoteStore.mkPath "" None) "" "" false false)) = true.
Proof.
  assert (H : ImportDialog.action_import_selected
                (fold_left ImportDialog.press
                   [ImportDialog.cursor_down; ImportDialog.toggle_selection_key]
                   (ImportDialog.refresh_file_list true (Some demo_directory)
                      NoteStore.default_extensions))
              = Some [nth 2 demo_directory
                        (NoteStore.mkDirEntry (NoteStore.mkPath "" None) "" "" false false)])
    by (vm_compute; reflexivity).
  split; [exact H|].
  apply (import_dialog_returns_listed_files true demo_directory
           NoteStore.default_extensions
           [ImportDialog.cursor_down; ImportDialog.toggle_selection_key] _ H).
  left. reflexivity.
Defined.

(** X26. A listing opens with nothing selected, so import hands back
    nothing.  Select-all followed by import hands back every listed file,
    in the order of the listing (by lower-cased name), whatever was selected
    before; select-none followed by import hands back nothing, like
    cancel. *)
Theorem import_dialog_select_all_and_none (has_parent : bool)
    (entries : list NoteStore.DirEntry) (extensions : list string)
    (keys : list ImportDialog.Key) :
  ImportDialog.action_import_selected
    (ImportDialog.refresh_file_list has_parent (Some entries) extensions) = None
  /\ ImportDialog.action_import_selected
       (ImportDialog.action_select_all
          (fold_left ImportDialog.press keys
             (ImportDialog.refresh_file_list has_parent (Some entries) extensions)))
     = match Sql.order_by ImportDialog.lower_name_le
               (List.filter (NoteStore.is_importable extensions) entries) with
       | [] => None
       | files => Some files
       end
  /\ ImportDialog.action_import_selected
       (ImportDialog.action_select_none
          (fold_left ImportDialog.press keys
             (ImportDialog.refresh_file_list has_parent (Some entries) extensions)))
     = ImportDialog.action_cancel
         (fold_left ImportDialog.press keys
            (ImportDialog.refresh_file_list has_parent (Some entries) extensions)).
Proof.
  split; [|split].
  - unfold ImportDialog.action_import_selected, ImportDialog.refresh_file_list.
    cbn [ImportDialog.file_items].
    now rewrite (filter_none_selected (fun f => f)).
  - set (d := fold_left ImportDialog.press keys _).
    unfold ImportDialog.action_import_selected, ImportDialog.action_select_all.
    cbn [ImportDialog.file_items].
    rewrite (filter_all_selected ImportDialog.file_path), map_map.
    cbn [ImportDialog.file_path].
    change (map (fun x => ImportDialog.file_path x) (ImportDialog.file_items d))
      with (listed_files d).
    unfold d. rewrite keys_listed, refresh_listed.
    now destruct (Sql.order_by _ _).
  - unfold ImportDialog.action_import_selected, ImportDialog.action_select_none.
    cbn [ImportDialog.file_items].
    now rewrite (filter_none_selected ImportDialog.file_path).
Qed.

(** ** File previews *)

Section PreviewFacts.
Import ImportDialog.

Lemma split_lines_one_line (l : list ascii) :
  Forall (fun line => forallb (fun c => negb (Ascii.eqb c "010")) line = true)
    (split_lines l).
Proof.
  induction l as [|c l IH]; simpl; [repeat constructor|].
  destruct (Ascii.eqb c "010") eqn:E.
  - constructor; [reflexivity|exact IH].
  - destruct (split_lines l) as [|line lines]; [repeat constructor; simpl; now rewrite E|].
    apply Forall_cons in IH as [H1 H2]. constructor; [|exact H2].
    simpl. now rewrite E, H1.
Qed.

Lemma slice_to_keeps (P : ascii -> bool) (max_chars : Z) (l : list ascii) :
  forallb P l = true -> forallb P (ImportDialog.slice_to max_chars l) = true.
Proof.
  intros H. unfold ImportDialog.slice_to.
  destruct (max_chars <? 0); now apply firstn_keeps.
Qed.

Lemma first_preview_facts (max_chars : Z) (lines : list (list ascii)) :
  Forall (fun line => forallb (fun c => negb (Ascii.eqb c "010")) line = true) lines ->
  first_preview max_chars lines <> ""
  /\ one_line (first_preview max_chars lines) = true
  /\ (0 <= max_chars ->
      Z.of_nat (String.length (first_preview max_chars lines))
      <= Z.max (max_chars + 3) 12).
Proof.
  induction 1 as [|line lines Hl _ IH]; cbn [first_preview].
  - split; [discriminate|]. split; [reflexivity|]. intros _. simpl. lia.
  - destruct (Text.strip_chars line) as [|c stripped] eqn:E; [exact IH|].
    assert (Hs : forallb (fun c => negb (Ascii.eqb c "010")) (c :: stripped) = true)
      by (rewrite <- E; now apply strip_keeps).
    set (cut := slice_to max_chars (c :: stripped)).
    assert (Hcut : forallb (fun c => negb (Ascii.eqb c "010")) cut = true)
      by now apply slice_to_keeps.
    assert (Hlen : 0 <= max_chars -> Z.of_nat (length cut) <= max_chars).
    { intros H0. unfold cut, slice_to. destruct (Z.ltb_spec max_chars 0); [lia|].
      pose proof (firstn_le_length (Z.to_nat max_chars) (c :: stripped)). lia. }
    destruct (Z.ltb_spec max_chars (Z.of_nat (length (c :: stripped)))) as [Hlt|Hge].
    + change "..." with (Text.text ["."; "."; "."]%char).
      rewrite <- text_app. split; [|split].
      * destruct cut; discriminate.
      * unfold one_line. rewrite chars_text, forallb_app, Hcut. reflexivity.
      * intros H0. specialize (Hlen H0). rewrite text_length, length_app. simpl length. lia.
    + change (Text.text cut ++ "") with (Text.text cut ++ Text.text []).
      rewrite <- text_app, app_nil_r.
      assert (Ecut : cut = c :: stripped).
      { unfold cut, slice_to. destruct (Z.ltb_spec max_chars 0); [simpl length in Hge; lia|].
        apply firstn_all2. lia. }
      split; [|split].
      * rewrite Ecut. discriminate.
      * unfold one_line. now rewrite chars_text.
      * intros H0. specialize (Hlen H0). rewrite text_length. lia.
Qed.

Lemma blank_lines_preview (max_chars : Z) (lines : list (list ascii)) :
  Forall (fun line => Text.strip_chars line = []) lines ->
  first_preview max_chars lines = "(empty file)".
Proof.
  induction 1 as [|line lines Hl _ IH]; simpl; [reflexivity|]. now rewrite Hl.
Qed.

End PreviewFacts.

(** X27. The preview of a file is never empty and holds no line break,
    whatever [max_chars] is; for a [max_chars] that is not negative it is at
    most [max_chars + 3] characters long (or the 16 characters of the longer
    fixed note).  An unreadable file previews as the fixed note
    [(unable to read)], a file whose lines are all blank as [(empty file)]. *)
Theorem file_preview_is_short_line (content : option string) (max_chars : Z) :
  ImportDialog._get_file_preview content max_chars <> ""
  /\ one_line (ImportDialog._get_file_preview content max_chars) = true
  /\ (0 <= max_chars ->
      Z.of_nat (String.length (ImportDialog._get_file_preview content max_chars))
      <= Z.max (max_chars + 3) 16)
  /\ (content = None ->
      ImportDialog._get_file_preview content max_chars = "(unable to read)")
  /\ (forall text,
        content = Some text ->
        Forall (fun line => Text.strip_chars line = [])
          (ImportDialog.split_lines (Text.chars text)) ->
        ImportDialog._get_file_preview content max_chars = "(empty file)").
Proof.
  destruct content as [text|]; simpl.
  - destruct (first_preview_facts max_chars (ImportDialog.split_lines (Text.chars text))
                (split_lines_one_line _)) as (H1 & H2 & H3).
    split; [exact H1|]. split; [exact H2|]. split; [intros H0; specialize (H3 H0); lia|].
    split; [discriminate|]. intros text' [= <-]. apply blank_lines_preview.
  - split; [discriminate|]. split; [reflexivity|]. split; [intros _; simpl; lia|].
    split; [reflexivity|]. intros text' [=].
Qed.
